(** * dlapp.configuration: namespaces, property records and source resolution

    A shallow embedding of [src/dlapp/configuration.py].

    - Python values are the first-order type [pyval]; a callable value is
      [VFun n], interpreted through a table [call] (a section variable).
    - A raised exception is the [Raise] outcome of [result].
    - Objects that the code mutates (a property record, a namespace, the
      singleton manager) are passed as explicit state: a method returns its
      outcome together with the object afterwards, so that the state left
      behind by a raise is visible.
    - A method call [ns.m(...)] on a namespace first looks [m] up in the
      instance dictionary, which is also where the property records are
      stored: a property named like a method shadows it, and the call then
      raises [TypeError].
    - A call that passes a dictionary as keywords raises [TypeError] when a
      key names a parameter that the call has already bound.
    - [re.match] is a derivative matcher over a small regex syntax, proved
      equivalent to the usual inductive matching relation. *)

From Stdlib Require Import ZArith String Ascii List Lia Bool Sorted.
From stdpp Require Import base gmap strings list fin_maps.
From Equations Require Import Equations.
From Equations.Prop Require Import Logic.

Local Open Scope string_scope.
Local Open Scope Z_scope.

(** ** Python values and exceptions *)

#[warnings="-register-all"]
Inductive pyval : Type :=
| VNone
| VBool (b : bool)
| VInt (z : Z)
| VStr (s : string)
| VList (l : list pyval)
| VDict (d : list (string * pyval))
| VFun (n : nat).

Inductive exn : Type :=
| ConfigPropertyValueNotSet (msg : string)
| ConfigPropertyBadName (msg : string)
| ConfigPropertyNotFound (msg : string)
| ConfigNamespaceDuplicateProperty (msg : string)
| ConfigNamespaceBadName (msg : string)
| ConfigManagerBadVersion (v : Z)
| ConfigManagerDuplicateNamespace (msg : string)
| ConfigManagerMissingNamespace (msg : string)
| KeyError (k : string)
| TypeError
| IndexError
| AttributeError
| UserException (payload : pyval).

Inductive result (A : Type) : Type :=
| Ok (a : A)
| Raise (e : exn).
Arguments Ok {A} a.
Arguments Raise {A} e.

Definition is_raise {A} (r : result A) : bool :=
  match r with Ok _ => false | Raise _ => true end.

(** [callable(v)] *)
Definition callable (v : pyval) : bool :=
  match v with VFun _ => true | _ => false end.

(** Truth value of an object, as [if v:] tests it. *)
Definition truthy (v : pyval) : bool :=
  match v with
  | VNone => false
  | VBool b => b
  | VInt z => negb (z =? 0)
  | VStr s => negb (String.eqb s "")
  | VList l => match l with [] => false | _ => true end
  | VDict d => match d with [] => false | _ => true end
  | VFun _ => true
  end.

(** A dict with string keys, in insertion order. *)
Fixpoint dict_get {A} (d : list (string * A)) (k : string) : option A :=
  match d with
  | [] => None
  | (k', v) :: d' => if String.eqb k' k then Some v else dict_get d' k
  end.

Definition dict_has {A} (d : list (string * A)) (k : string) : bool :=
  match dict_get d k with Some _ => true | None => false end.

Fixpoint dict_pop {A} (d : list (string * A)) (k : string) : list (string * A) :=
  match d with
  | [] => []
  | (k', v) :: d' => if String.eqb k' k then dict_pop d' k else (k', v) :: dict_pop d' k
  end.

(** Binding the keywords of a call [f(a, ..., **kwargs)]: a keyword that
    names a parameter which the call has already bound raises [TypeError]
    before the body of [f] runs. [params] are the names bound by the call,
    [self] included for a method or a constructor. *)
Definition collides {A} (kwargs : list (string * A)) (params : list string) : bool :=
  existsb (dict_has kwargs) params.

(** [value[key]] for a string key: a dict looks the key up, every other
    value of the model refuses a string subscript. *)
Definition subscript (value : pyval) (key : string) : result pyval :=
  match value with
  | VDict d => match dict_get d key with
               | Some v => Ok v
               | None => Raise (KeyError key)
               end
  | _ => Raise TypeError
  end.

(** ** Strings: [rfind] and slices *)

Fixpoint rfind_from (s sub : string) (i : Z) : Z :=
  match s with
  | EmptyString => if String.prefix sub "" then i else -1
  | String c s' =>
      let r := rfind_from s' sub (i + 1) in
      if 0 <=? r then r else if String.prefix sub s then i else -1
  end.

(** [s.rfind(sub)] *)
Definition rfind (s sub : string) : Z := rfind_from s sub 0.

(** [s[0:i]] for [0 <= i] *)
Definition slice_to (s : string) (i : Z) : string :=
  String.substring 0 (Z.to_nat i) s.

(** [s[i:]] for [0 <= i] *)
Definition slice_from (s : string) (i : Z) : string :=
  String.substring (Z.to_nat i) (String.length s - Z.to_nat i) s.

(** ** The [re] module: patterns and [re.match] *)

Module Re.

Inductive citem : Type :=
| CRange (lo hi : ascii)
| CChar (c : ascii).

Definition citem_mem (c : ascii) (it : citem) : bool :=
  match it with
  | CRange lo hi => (nat_of_ascii lo <=? nat_of_ascii c)%nat
                    && (nat_of_ascii c <=? nat_of_ascii hi)%nat
  | CChar c' => Ascii.eqb c' c
  end.

Definition class_mem (items : list citem) (c : ascii) : bool :=
  existsb (citem_mem c) items.

Inductive regex : Type :=
| Void
| Eps
| Class (items : list citem)
| Seq (r1 r2 : regex)
| Alt (r1 r2 : regex)
| Star (r : regex).

(** [r?] *)
Definition Opt (r : regex) : regex := Alt r Eps.

Inductive matches : regex -> string -> Prop :=
| MEps : matches Eps ""
| MClass items c : class_mem items c = true -> matches (Class items) (String c "")
| MSeq r1 r2 s1 s2 : matches r1 s1 -> matches r2 s2 -> matches (Seq r1 r2) (s1 ++ s2)
| MAltL r1 r2 s : matches r1 s -> matches (Alt r1 r2) s
| MAltR r1 r2 s : matches r2 s -> matches (Alt r1 r2) s
| MStar0 r : matches (Star r) ""
| MStarS r s1 s2 : matches r s1 -> matches (Star r) s2 -> matches (Star r) (s1 ++ s2).

Fixpoint nullable (r : regex) : bool :=
  match r with
  | Void => false
  | Eps => true
  | Class _ => false
  | Seq r1 r2 => nullable r1 && nullable r2
  | Alt r1 r2 => nullable r1 || nullable r2
  | Star _ => true
  end.

Fixpoint deriv (c : ascii) (r : regex) : regex :=
  match r with
  | Void => Void
  | Eps => Void
  | Class items => if class_mem items c then Eps else Void
  | Seq r1 r2 =>
      if nullable r1 then Alt (Seq (deriv c r1) r2) (deriv c r2)
      else Seq (deriv c r1) r2
  | Alt r1 r2 => Alt (deriv c r1) (deriv c r2)
  | Star r1 => Seq (deriv c r1) (Star r1)
  end.

(** Does the whole of [s] match [r]? *)
Fixpoint fullmatch (r : regex) (s : string) : bool :=
  match s with
  | EmptyString => nullable r
  | String c s' => fullmatch (deriv c r) s'
  end.

(** [s] without its last character, when that is a line feed. *)
Fixpoint chomp (s : string) : option string :=
  match s with
  | EmptyString => None
  | String c EmptyString => if Ascii.eqb c "010" then Some "" else None
  | String c s' => option_map (String c) (chomp s')
  end.

(** [re.match(r + "$", s)] as a truth value. The pattern is tried at the
    start of [s]; [$] holds at the end of [s] and also just before a line
    feed that ends [s]. *)
Definition match_dollar (r : regex) (s : string) : bool :=
  fullmatch r s
  || match chomp s with Some s' => fullmatch r s' | None => false end.

End Re.

(** ** Module constants and the name predicates *)

Definition NS_SEP : string := ".".
Definition DEFAULT_NS : string := "__DEFAULT".

Definition cls_letter : list Re.citem :=
  [Re.CRange "A" "Z"; Re.CRange "a" "z"].
Definition cls_word : list Re.citem :=
  [Re.CChar "_"; Re.CRange "a" "z"; Re.CRange "A" "Z"; Re.CRange "0" "9"].
Definition cls_uletter : list Re.citem :=
  [Re.CChar "_"; Re.CRange "A" "Z"; Re.CRange "a" "z"].

(** The pattern of line 15: a group made of a letter and then any number of
    word characters (underscore, letter, digit); then any number of groups
    made of an optional dot, an underscore or letter, and any number of word
    characters; then the end anchor, which [Re.match_dollar] supplies. *)
Definition VALID_NS_NAMES : Re.regex :=
  Re.Seq
    (Re.Seq (Re.Class cls_letter) (Re.Star (Re.Class cls_word)))
    (Re.Star
       (Re.Seq (Re.Opt (Re.Class [Re.CChar "."]))
          (Re.Seq (Re.Class cls_uletter) (Re.Star (Re.Class cls_word))))).

(** The pattern of line 16: a letter, then any number of word characters,
    then the end anchor. *)
Definition VALID_PROPERTY_NAMES : Re.regex :=
  Re.Seq (Re.Class cls_letter) (Re.Star (Re.Class cls_word)).

(** [name and re.match(VALID_PROPERTY_NAMES, name)], as a truth value *)
Definition ispropertynamevalid (name : string) : bool :=
  negb (String.eqb name "") && Re.match_dollar VALID_PROPERTY_NAMES name.

(** [name and (name == DEFAULT_NS or re.match(VALID_NS_NAMES, name))] *)
Definition isnsnamevalid (name : string) : bool :=
  negb (String.eqb name "")
  && (String.eqb name DEFAULT_NS || Re.match_dollar VALID_NS_NAMES name).

(** ** State-and-exception monad

    A method of a mutable object [S] is a function from the object before
    to an outcome and the object after. A raise keeps the state reached so
    far: nothing is rolled back unless the code does it. *)

Definition M (S A : Type) : Type := S -> result A * S.

Definition ret {S A} (a : A) : M S A := fun s => (Ok a, s).
Definition raise {S A} (e : exn) : M S A := fun s => (Raise e, s).
Definition bind {S A B} (m : M S A) (k : A -> M S B) : M S B :=
  fun s => match m s with
           | (Ok a, s') => k a s'
           | (Raise e, s') => (Raise e, s')
           end.
Definition lift {S A} (r : result A) : M S A := fun s => (r, s).
Definition gets {S A} (f : S -> A) : M S A := fun s => (Ok (f s), s).

Notation "'do' x <- m ; k" := (bind m (fun x => k))
  (at level 10, x name, m at level 100, k at level 200).

Section Configuration.

(** The callables of the program: [call n args] is the outcome of calling
    the function object [VFun n] on [args]. Hooks, formatters and producers
    are assumed to touch no object of this module. *)
Variable call : nat -> list pyval -> result pyval.

Definition call_obj (f : pyval) (args : list pyval) : result pyval :=
  match f with
  | VFun n => call n args
  | _ => Raise TypeError
  end.

(** *** ConfigPropertyRecord and ConfigPropertyRecordExt *)

Record ConfigPropertyRecordExt : Type := mkRecord {
  _name : string;
  _value : pyval;
  _hasvalue : bool;
  callback : pyval;
  validate : pyval
}.

Definition kw_or_none (kwargs : list (string * pyval)) (k : string) : pyval :=
  match dict_get kwargs k with Some v => v | None => VNone end.

(** [ConfigPropertyRecordExt.__init__(name, **kwargs)] for a string [name]:
    [callback] and [validate] are popped, the base class reads [value]. *)
Definition ConfigPropertyRecordExt_init (name : string)
    (kwargs : list (string * pyval)) : ConfigPropertyRecordExt :=
  let callback := kw_or_none kwargs "callback" in
  let kwargs := dict_pop kwargs "callback" in
  let validate := kw_or_none kwargs "validate" in
  let kwargs := dict_pop kwargs "validate" in
  {| _name := name;
     _value := kw_or_none kwargs "value";
     _hasvalue := dict_has kwargs "value";
     callback := callback;
     validate := validate |}.

(** [config_property_record_factory(name, **kwargs)]: the constructor binds
    [self] and [name], so a keyword called [self] or [name] collides. *)
Definition config_property_record_factory (name : string)
    (kwargs : list (string * pyval)) : result ConfigPropertyRecordExt :=
  if collides kwargs ["self"; "name"] then Raise TypeError
  else Ok (ConfigPropertyRecordExt_init name kwargs).

(** The [value] getter. *)
Definition get_value : M ConfigPropertyRecordExt pyval :=
  fun self =>
    if negb (_hasvalue self) then (Raise (ConfigPropertyValueNotSet (_name self)), self)
    else (Ok (_value self), self).

Definition store_value (value : pyval) : M ConfigPropertyRecordExt unit :=
  fun self =>
    (Ok tt, {| _name := _name self; _value := value; _hasvalue := true;
               callback := callback self; validate := validate self |}).

(** The [value] setter of [ConfigPropertyRecordExt]. *)
Definition set_value (value : pyval) : M ConfigPropertyRecordExt pyval :=
  do validate <- gets validate;
  do name <- gets _name;
  do _ <- (if truthy validate && callable validate
           then lift (call_obj validate [VStr name; value])
           else ret VNone);
  do _ <- store_value value;
  do callback <- gets callback;
  do _ <- (if truthy callback && callable callback
           then lift (call_obj callback [VStr name; value])
           else ret VNone);
  gets _value.

(** *** ConfigNamespace *)

Inductive attr : Type :=
| AttrVal (v : pyval)
| AttrRec (r : ConfigPropertyRecordExt).

(** A namespace object is its instance dictionary: [self.name] and the
    property records live side by side in it.

    The methods live in the class, and [self.m(...)] searches the instance
    dictionary first: once a property is stored under the name of a method
    ([has_property], [add_property] and [add_properties] are valid property
    names), [self.m] is that record, and calling a record raises
    [TypeError]. Each method below starts with this lookup. *)
Record ConfigNamespace : Type := mkNamespace {
  __dict__ : gmap string attr
}.

Definition has_attr (self : ConfigNamespace) (name : string) : bool :=
  bool_decide (is_Some (__dict__ self !! name)).

Definition getattr (self : ConfigNamespace) (name : string) : result attr :=
  match __dict__ self !! name with
  | Some a => Ok a
  | None => Raise AttributeError
  end.

Definition has_property (self : ConfigNamespace) (name : string) : result bool :=
  if has_attr self "has_property" then Raise TypeError
  else if negb (ispropertynamevalid name) then Raise (ConfigPropertyBadName name)
  else Ok (has_attr self name).

(** [self.add_property(name, **kwargs)] *)
Definition add_property (name : string) (kwargs : list (string * pyval))
    : M ConfigNamespace attr :=
  fun self =>
    if has_attr self "add_property" then (Raise TypeError, self)
    else if collides kwargs ["self"; "name"] then (Raise TypeError, self)
    else if negb (ispropertynamevalid name) then (Raise (ConfigPropertyBadName name), self)
    else if has_attr self name then (Raise (ConfigNamespaceDuplicateProperty name), self)
    else match config_property_record_factory name kwargs with
         | Raise e => (Raise e, self)
         | Ok prop =>
             let self' := mkNamespace (<[name := AttrRec prop]> (__dict__ self)) in
             (getattr self' name, self')
         end.

(** The loop of [add_properties]: [props] is the local dictionary of the
    records built so far; [self] is only read. *)
Fixpoint build_props (self : ConfigNamespace) (items : list (string * pyval))
    (props : gmap string ConfigPropertyRecordExt)
    : result (gmap string ConfigPropertyRecordExt) :=
  match items with
  | [] => Ok props
  | (name, defn) :: rest =>
      if negb (ispropertynamevalid name) then Raise (ConfigPropertyBadName name)
      else if has_attr self name then Raise (ConfigNamespaceDuplicateProperty name)
      else
        match (match defn with
               | VDict d => config_property_record_factory name d
               | _ => config_property_record_factory name [("value", defn)]
               end) with
        | Raise e => Raise e
        | Ok p => build_props self rest (<[name := p]> props)
        end
  end.

(** [kwargs['properties'] if 'properties' in kwargs else kwargs], then
    [.items()]. *)
Definition properties_of (kwargs : list (string * pyval))
    : result (list (string * pyval)) :=
  match dict_get kwargs "properties" with
  | Some (VDict d) => Ok d
  | Some _ => Raise AttributeError
  | None => Ok kwargs
  end.

(** [self.add_properties] called with the keywords [kwargs] *)
Definition add_properties (kwargs : list (string * pyval))
    : M ConfigNamespace (gmap string attr) :=
  fun self =>
    if has_attr self "add_properties" then (Raise TypeError, self)
    else if collides kwargs ["self"] then (Raise TypeError, self)
    else
    match properties_of kwargs with
    | Raise e => (Raise e, self)
    | Ok items =>
        match build_props self items ∅ with
        | Raise e => (Raise e, self)
        | Ok props =>
            if bool_decide (props = ∅) then (Ok ∅, self)
            else
              let self' := mkNamespace ((AttrRec <$> props) ∪ __dict__ self) in
              (Ok (map_imap (fun name _ => __dict__ self' !! name) props), self')
        end
    end.

(** [ConfigNamespace(nspc, **kwargs)]; a raise leaves no object. *)
Definition ConfigNamespace_init (nspc : string) (kwargs : list (string * pyval))
    : result ConfigNamespace :=
  if collides kwargs ["self"; "nspc"] then Raise TypeError
  else if negb (isnsnamevalid nspc) then Raise (ConfigNamespaceBadName nspc)
  else
    let self := mkNamespace {[ "name" := AttrVal (VStr nspc) ]} in
    if truthy (VDict kwargs) then
      match add_properties kwargs self with
      | (Ok _, self') => Ok self'
      | (Raise e, _) => Raise e
      end
    else Ok self.

Definition configuration_namespace_factory := ConfigNamespace_init.

End Configuration.

(** ** Facts about [rfind] and slices used by the recursion of [_parents] *)

Lemma length_substring_0 (n : nat) (s : string) :
  String.length (String.substring 0 n s) = Nat.min n (String.length s).
Proof.
  revert n; induction s as [|c s IH]; intros [|n]; simpl; auto.
Qed.

Lemma prefix_sep (c : ascii) (s : string) :
  String.prefix NS_SEP (String c s) = Ascii.eqb "." c.
Proof.
  unfold NS_SEP. cbn [String.prefix].
  destruct (Ascii.ascii_dec "." c) as [<-|Hne].
  - now destruct s.
  - symmetry. now apply Ascii.eqb_neq.
Qed.

Lemma rfind_from_range (s : string) (i : Z) :
  0 <= i ->
  rfind_from s NS_SEP i = -1
  \/ i <= rfind_from s NS_SEP i < i + Z.of_nat (String.length s).
Proof.
  revert i; induction s as [|c s IH]; intros i Hi.
  - now left.
  - cbn [rfind_from String.length]. rewrite prefix_sep.
    destruct (IH (i + 1) ltac:(lia)) as [E | E].
    + rewrite E. change (0 <=? -1) with false. cbv iota.
      destruct (Ascii.eqb "." c); [right; lia | now left].
    + destruct (0 <=? rfind_from s NS_SEP (i + 1)) eqn:Hle; [right; lia|].
      apply Z.leb_gt in Hle. lia.
Qed.

Lemma slice_to_rfind_shorter (s : string) :
  (-1 <? rfind s NS_SEP) = true ->
  (String.length (slice_to s (rfind s NS_SEP)) < String.length s)%nat.
Proof.
  intros H. apply Z.ltb_lt in H. unfold slice_to, rfind in *.
  rewrite length_substring_0.
  destruct (rfind_from_range s 0 ltac:(lia)) as [E | E]; lia.
Qed.

(** ** ConfigurationManager *)

Record ConfigurationManager : Type := mkManager {
  version : Z;
  namespaces : gmap string ConfigNamespace
}.

Definition has_ns (self : ConfigurationManager) (nspc : string) : bool :=
  bool_decide (is_Some (namespaces self !! nspc)).

(** The loop of the constructor: [nspc[name] = factory(name, **defn)]. *)
Fixpoint build_namespaces (items : list (string * pyval))
    (nspc : gmap string ConfigNamespace) : result (gmap string ConfigNamespace) :=
  match items with
  | [] => Ok nspc
  | (name, defn) :: rest =>
      match defn with
      | VDict d =>
          match configuration_namespace_factory name d with
          | Raise e => Raise e
          | Ok ns => build_namespaces rest (<[name := ns]> nspc)
          end
      | _ => Raise TypeError
      end
  end.

Definition namespaces_of (kwargs : list (string * pyval))
    : result (list (string * pyval)) :=
  match dict_get kwargs "namespaces" with
  | Some (VDict d) => Ok d
  | Some _ => Raise AttributeError
  | None => Ok kwargs
  end.

(** [ConfigurationManager(version, **kwargs)]; each [defn] is passed to the
    namespace constructor as keywords, where [self] and [nspc] collide. *)
Definition ConfigurationManager_init (version : Z) (kwargs : list (string * pyval))
    : result ConfigurationManager :=
  if collides kwargs ["self"; "version"] then Raise TypeError
  else if negb (version =? 1) then Raise (ConfigManagerBadVersion version)
  else
    match namespaces_of kwargs with
    | Raise e => Raise e
    | Ok items =>
        match build_namespaces items ∅ with
        | Raise e => Raise e
        | Ok nspc =>
            match (if bool_decide (is_Some (nspc !! DEFAULT_NS)) then Ok nspc
                   else match configuration_namespace_factory DEFAULT_NS [] with
                        | Ok d => Ok (<[DEFAULT_NS := d]> nspc)
                        | Raise e => Raise e
                        end) with
            | Raise e => Raise e
            | Ok nspc => Ok (mkManager version (nspc ∪ ∅))
            end
        end
    end.

Equations? _parents (self : ConfigurationManager) (nspc : string) : list string
  by wf (String.length nspc) lt :=
  _parents self nspc with inspect (-1 <? rfind nspc NS_SEP) := {
    | exist _ true Hi =>
        (if has_ns self nspc then [nspc] else [])
        ++ _parents self (slice_to nspc (rfind nspc NS_SEP));
    | exist _ false Hi =>
        (if has_ns self nspc then [nspc] else []) ++ []
  }.
Proof. now apply slice_to_rfind_shorter. Qed.

Definition parent_namespaces (self : ConfigurationManager) (nspc : string)
    : list string :=
  _parents self nspc ++ [DEFAULT_NS].

Definition has_namespace (self : ConfigurationManager) (nspc : string) : result bool :=
  if negb (isnsnamevalid nspc) then Raise (ConfigNamespaceBadName nspc)
  else Ok (has_ns self nspc).

(** [self.add_namespace(nspc, **kwargs)] *)
Definition add_namespace (nspc : string) (kwargs : list (string * pyval))
    : M ConfigurationManager ConfigNamespace :=
  fun self =>
    if collides kwargs ["self"; "nspc"] then (Raise TypeError, self)
    else if negb (isnsnamevalid nspc) then (Raise (ConfigNamespaceBadName nspc), self)
    else if has_ns self nspc
    then (Raise (ConfigManagerDuplicateNamespace ("Namespace " ++ nspc ++ " already exists.")), self)
    else
      match configuration_namespace_factory nspc kwargs with
      | Raise e => (Raise e, self)
      | Ok ns => (Ok ns, mkManager (version self) (<[nspc := ns]> (namespaces self)))
      end.

(** [self.namespaces[nspc]] *)
Definition namespace_at (self : ConfigurationManager) (nspc : string)
    : result ConfigNamespace :=
  match namespaces self !! nspc with
  | Some ns => Ok ns
  | None => Raise (KeyError nspc)
  end.

Definition get_namespace (self : ConfigurationManager) (nspc : string)
    (ornearest : bool) : result ConfigNamespace :=
  if negb (isnsnamevalid nspc) then Raise (ConfigNamespaceBadName nspc)
  else if has_ns self nspc then namespace_at self nspc
  else if ornearest then
    match parent_namespaces self nspc with
    | nearest :: _ => namespace_at self nearest
    | [] => Raise IndexError
    end
  else Raise (ConfigManagerMissingNamespace nspc).

(** ** The singleton and its accessors

    The state is the module global [configuration_manager]; [None] is the
    Python [None] it starts as. [caller] stands for the name that
    [inspect.getmodule(inspect.stack()[1][0]).__name__] yields. *)

Abbreviation global := (option ConfigurationManager).

Definition getConfigManager (kwargs : list (string * pyval))
    : M global ConfigurationManager :=
  fun g =>
    match g with
    | Some mgr => (Ok mgr, g)
    | None =>
        match ConfigurationManager_init 1 kwargs with
        | Ok mgr => (Ok mgr, Some mgr)
        | Raise e => (Raise e, None)
        end
    end.

(** Run a method of the manager object that the global refers to. *)
Definition on_manager {A} (m : M ConfigurationManager A) : M global A :=
  fun g =>
    match g with
    | Some mgr => let '(r, mgr') := m mgr in (r, Some mgr')
    | None => (Raise AttributeError, g)
    end.

(** Run a method of the namespace object stored under [key]. *)
Definition on_namespace {A} (key : string) (m : M ConfigNamespace A)
    : M ConfigurationManager A :=
  fun mgr =>
    match namespaces mgr !! key with
    | Some ns =>
        let '(r, ns') := m ns in
        (r, mkManager (version mgr) (<[key := ns']> (namespaces mgr)))
    | None => (Raise (KeyError key), mgr)
    end.

(** [getConfig(nspc, ornearest, **kwargs)]: a keyword called [nspc] or
    [ornearest] collides with the two parameters. *)
Definition getConfig (caller : string) (nspc : option string) (ornearest : bool)
    (kwargs : list (string * pyval)) : M global ConfigNamespace :=
  if collides kwargs ["nspc"; "ornearest"] then raise TypeError
  else
  do mgr <- getConfigManager [];
  match nspc with
  | Some nspc0 =>
      if negb (String.eqb nspc0 "") then
        do has <- lift (has_namespace mgr nspc0);
        if (has : bool) then
          do rtn <- lift (get_namespace mgr nspc0 true);
          if truthy (VDict kwargs) then
            do _ <- on_manager (on_namespace nspc0 (add_properties kwargs));
            on_manager (fun mgr' => (namespace_at mgr' nspc0, mgr'))
          else ret rtn
        else on_manager (add_namespace nspc0 kwargs)
      else lift (get_namespace mgr caller ornearest)
  | None => lift (get_namespace mgr caller ornearest)
  end.

(** The loop over the parent chain in [getConfigRecord]. *)
Fixpoint search_parents (caller : string) (chain : list string) (propname : string)
    : M global (option attr) :=
  match chain with
  | [] => ret None
  | nss :: rest =>
      do nsp <- getConfig caller (Some nss) false [];
      do has <- lift (has_property nsp propname);
      if (has : bool) then
        do a <- lift (getattr nsp propname); ret (Some a)
      else search_parents caller rest propname
  end.

Definition getConfigRecord (caller : string) (fqname : string) (ornearest : bool)
    : M global attr :=
  if String.eqb fqname "" then raise (ConfigPropertyBadName fqname)
  else
    let p := rfind fqname NS_SEP in
    let '(nspc, propname) :=
      if 0 <=? p then (slice_to fqname p, slice_from fqname (p + 1))
      else (caller, fqname) in
    if negb (isnsnamevalid nspc) then raise (ConfigNamespaceBadName nspc)
    else if negb (ispropertynamevalid propname) then raise (ConfigPropertyBadName propname)
    else
      do ns <- getConfig caller (Some nspc) ornearest [];
      do has <- lift (has_property ns propname);
      if (has : bool) then lift (getattr ns propname)
      else
        do found <- (if ornearest then
                       do mgr <- getConfigManager [];
                       search_parents caller (parent_namespaces mgr nspc) propname
                     else ret None);
        match found with
        | Some a => ret a
        | None => raise (ConfigPropertyNotFound fqname)
        end.

(** ** AppConfig: the source resolver *)

(** The parser collaborator: [has_option(section, key)] and
    [get(section, key)]. *)
Record ConfigParser : Type := mkParser {
  has_option : string -> string -> bool;
  get : string -> string -> result pyval
}.

(** One entry of [dictalias]: a list of nested keys, or a single key. *)
Inductive keypath : Type :=
| KeyList (keys : list string)
| KeySingle (key : string).

Section Resolver.

Variable call : nat -> list pyval -> result pyval.

(** [os.environ] *)
Variable environ : gmap string string.

Record AppConfig : Type := mkAppConfig {
  record : ConfigPropertyRecordExt;
  argalias : pyval;
  argformat : pyval;
  envalias : list string;
  envformat : pyval;
  cfgparser : option ConfigParser;
  cfgalias : list (string * string);
  cfgformat : pyval;
  dictconfig : pyval;
  dictalias : list keypath;
  dictformat : pyval;
  default_value : pyval;
  has_default : bool
}.

(** The attributes that [__init__] sets when no keyword is given. *)
Definition AppConfig_plain (rec : ConfigPropertyRecordExt) : AppConfig :=
  {| record := rec;
     argalias := VNone; argformat := VNone;
     envalias := []; envformat := VNone;
     cfgparser := None; cfgalias := []; cfgformat := VNone;
     dictconfig := VNone; dictalias := []; dictformat := VNone;
     default_value := VNone; has_default := false |}.

(** [self.record.value = val]: the setter runs on the record object that
    [self.record] refers to. *)
Definition assign_record_value (val : pyval) : M AppConfig pyval :=
  fun self =>
    let '(r, rec') := set_value call val (record self) in
    (r, {| record := rec';
           argalias := argalias self; argformat := argformat self;
           envalias := envalias self; envformat := envformat self;
           cfgparser := cfgparser self; cfgalias := cfgalias self;
           cfgformat := cfgformat self;
           dictconfig := dictconfig self; dictalias := dictalias self;
           dictformat := dictformat self;
           default_value := default_value self;
           has_default := has_default self |}).

(** [if fmt and callable(fmt): val = fmt(self.record.name, val)] *)
Definition apply_format (fmt : pyval) (val : pyval) : M AppConfig pyval :=
  if truthy fmt && callable fmt
  then do name <- gets (fun self => _name (record self));
       lift (call_obj call fmt [VStr name; val])
  else ret val.

Definition is_none (v : pyval) : bool :=
  match v with VNone => true | _ => false end.

Definition _argalias : M AppConfig bool :=
  do argalias <- gets argalias;
  if negb (is_none argalias) then
    do val <- (if callable argalias then lift (call_obj call argalias [])
               else ret argalias);
    do argformat <- gets argformat;
    do val <- apply_format argformat val;
    do _ <- assign_record_value val;
    ret true
  else ret false.

Fixpoint _envalias_loop (aliases : list string) : M AppConfig bool :=
  match aliases with
  | [] => ret false
  | envalias :: rest =>
      match environ !! envalias with
      | Some raw =>
          do envformat <- gets envformat;
          do val <- apply_format envformat (VStr raw);
          do _ <- assign_record_value val;
          ret true
      | None => _envalias_loop rest
      end
  end.

Definition _envalias : M AppConfig bool :=
  do aliases <- gets envalias;
  _envalias_loop aliases.

Fixpoint _cfgalias_loop (parser : ConfigParser) (aliases : list (string * string))
    : M AppConfig bool :=
  match aliases with
  | [] => ret false
  | (section, key) :: rest =>
      if has_option parser section key then
        do val <- lift (get parser section key);
        do cfgformat <- gets cfgformat;
        do val <- apply_format cfgformat val;
        do _ <- assign_record_value val;
        ret true
      else _cfgalias_loop parser rest
  end.

Definition _cfgalias : M AppConfig bool :=
  do cfgparser <- gets cfgparser;
  match cfgparser with
  | Some parser =>
      do aliases <- gets cfgalias;
      _cfgalias_loop parser aliases
  | None => ret false
  end.

(** The loop of [_getdictentry]: only [KeyError] is caught. *)
Fixpoint _getdictentry_loop (got : bool) (value : pyval) (keys : list string)
    : result (bool * pyval) :=
  match keys with
  | [] => Ok (got, value)
  | key :: rest =>
      match subscript value key with
      | Ok v => _getdictentry_loop true v rest
      | Raise (KeyError _) => Ok (false, VNone)
      | Raise e => Raise e
      end
  end.

Definition _getdictentry (self : AppConfig) (keys : list string)
    : result (bool * pyval) :=
  _getdictentry_loop true (dictconfig self) keys.

Fixpoint _dictalias_loop (aliases : list keypath) : M AppConfig bool :=
  match aliases with
  | [] => ret false
  | keys :: rest =>
      do self <- gets id;
      do dictopt <- lift (match keys with
                          | KeyList l => _getdictentry self l
                          | KeySingle k => _getdictentry self [k]
                          end);
      if fst dictopt then
        do dictformat <- gets dictformat;
        do val <- apply_format dictformat (snd dictopt);
        do _ <- assign_record_value val;
        ret true
      else _dictalias_loop rest
  end.

Definition _dictalias : M AppConfig bool :=
  do dictconfig <- gets dictconfig;
  if negb (is_none dictconfig) then
    do aliases <- gets dictalias;
    _dictalias_loop aliases
  else ret false.

Definition _default : M AppConfig bool :=
  do has_default <- gets has_default;
  if (has_default : bool) then
    do default_value <- gets default_value;
    do _ <- assign_record_value default_value;
    ret true
  else ret false.

(** [for res in [...]: if res(): break] *)
Fixpoint first_hit (probes : list (M AppConfig bool)) : M AppConfig unit :=
  match probes with
  | [] => ret tt
  | res :: rest =>
      do hit <- res;
      if (hit : bool) then ret tt else first_hit rest
  end.

Definition read_record_value : M AppConfig pyval :=
  fun self => (fst (get_value (record self)), self).

Definition resolve : M AppConfig pyval :=
  do _ <- first_hit [_argalias; _envalias; _cfgalias; _dictalias; _default];
  read_record_value.

End Resolver.

(** * Properties *)

(** ** The name predicates, [rfind] and slices on the names of the test suite *)

Example isnsnamevalid_ex1 : isnsnamevalid "dlapp.test.test_appconfig" = true.
Proof. reflexivity. Qed.
Example isnsnamevalid_ex2 : isnsnamevalid "!badname" = false.
Proof. reflexivity. Qed.
Example isnsnamevalid_ex3 : isnsnamevalid "a.1b" = false.
Proof. reflexivity. Qed.
Example isnsnamevalid_ex4 : isnsnamevalid "a._b" = true.
Proof. reflexivity. Qed.
Example isnsnamevalid_ex5 : isnsnamevalid "_a" = false.
Proof. reflexivity. Qed.
Example isnsnamevalid_ex6 : isnsnamevalid "a..b" = false.
Proof. reflexivity. Qed.
Example ispropertynamevalid_ex1 : ispropertynamevalid "foo" = true.
Proof. reflexivity. Qed.
Example ispropertynamevalid_ex2 : ispropertynamevalid "!bad" = false.
Proof. reflexivity. Qed.
Example rfind_ex1 : rfind "a.b.c" "." = 3.
Proof. reflexivity. Qed.
Example rfind_ex2 : rfind "abc" "." = -1.
Proof. reflexivity. Qed.
Example slice_ex1 : slice_to "a.b.c" 3 = "a.b" /\ slice_from "a.b.c" 4 = "c".
Proof. split; reflexivity. Qed.

(** ** The value setter *)

(** The hooks of the test suite. Function object 0 is [tstvalidate]:
    numbers (booleans are numbers) strictly between 0 and 10 pass, anything
    else raises the validation exception with the value. Function object 1
    is [reformat], which returns [2 * value]: an integer doubled, a string
    or a list repeated. Function object 2 is [tstcallback], which always
    raises. A call with another number of arguments raises [TypeError]. *)
Definition sample_call (n : nat) (args : list pyval) : result pyval :=
  match n, args with
  | O, [_; VInt z] =>
      if (0 <? z) && (z <? 10) then Ok (VBool true)
      else Raise (UserException (VInt z))
  | O, [_; VBool b] =>
      if b then Ok (VBool true) else Raise (UserException (VBool b))
  | O, [_; v] => Raise (UserException v)
  | S O, [_; VInt z] => Ok (VInt (2 * z))
  | S O, [_; VBool b] => Ok (VInt (if b then 2 else 0))
  | S O, [_; VStr s] => Ok (VStr (s ++ s))
  | S O, [_; VList l] => Ok (VList (l ++ l))
  | S (S O), [_; _] => Raise (UserException VNone)
  | _, _ => Raise TypeError
  end.

Lemma set_value_reject call (r : ConfigPropertyRecordExt) (v : pyval) n e :
  validate r = VFun n ->
  call n [VStr (_name r); v] = Raise e ->
  set_value call v r = (Raise e, r).
Proof.
  intros Hv Hc. unfold set_value, bind, gets, lift, call_obj.
  rewrite Hv. simpl. now rewrite Hc.
Qed.

(** What a setter that returns normally leaves behind. *)
Lemma set_value_ok_inv call (r r' : ConfigPropertyRecordExt) (v x : pyval) :
  set_value call v r = (Ok x, r') ->
  x = v /\ _value r' = v /\ _hasvalue r' = true
  /\ _name r' = _name r /\ validate r' = validate r /\ callback r' = callback r.
Proof.
  unfold set_value, bind, gets, lift, ret, store_value.
  destruct (truthy (validate r) && callable (validate r)).
  - destruct (call_obj call (validate r) _); [|discriminate].
    simpl. destruct (truthy (callback r) && callable (callback r)).
    + destruct (call_obj call (callback r) _); [|discriminate].
      intros [= <- <-]. now simpl.
    + intros [= <- <-]. now simpl.
  - simpl. destruct (truthy (callback r) && callable (callback r)).
    + destruct (call_obj call (callback r) _); [|discriminate].
      intros [= <- <-]. now simpl.
    + intros [= <- <-]. now simpl.
Qed.

(** C3. When the validate hook of a record raises on a proposed value, the
    setter raises that same exception and the record is left exactly as it
    was (name, stored value, has-value flag and hooks). In particular, if the
    record had been reached by a successful assignment of [v1], reading the
    value afterwards still gives [v1]. *)
Theorem set_value_rejected_keeps_state call (r : ConfigPropertyRecordExt)
    (v2 : pyval) (n : nat) (e : exn) :
  validate r = VFun n ->
  call n [VStr (_name r); v2] = Raise e ->
  set_value call v2 r = (Raise e, r)
  /\ (forall r0 v1 x, set_value call v1 r0 = (Ok x, r) ->
        get_value (snd (set_value call v2 r)) = (Ok v1, r)).
Proof.
  intros Hv Hc. pose proof (set_value_reject call r v2 n e Hv Hc) as Hrej.
  split; [exact Hrej|].
  intros r0 v1 x Hok. rewrite Hrej. simpl.
  apply set_value_ok_inv in Hok as (_ & Hval & Hhas & _).
  unfold get_value. now rewrite Hhas, Hval.
Qed.

Lemma set_value_rejected_keeps_state_witness :
  let r := snd (set_value sample_call (VInt 5)
                  (ConfigPropertyRecordExt_init "foo" [("validate", VFun 0)])) in
  set_value sample_call (VInt 12) r = (Raise (UserException (VInt 12)), r)
  /\ get_value (snd (set_value sample_call (VInt 12) r)) = (Ok (VInt 5), r).
Proof.
  intros r.
  destruct (set_value_rejected_keeps_state sample_call r (VInt 12) 0
              (UserException (VInt 12)) eq_refl eq_refl) as [H1 H2].
  split; [exact H1|].
  apply (H2 (ConfigPropertyRecordExt_init "foo" [("validate", VFun 0)])
            (VInt 5) (VInt 5)).
  reflexivity.
Defined.

(** ** Namespaces *)

Lemma has_attr_true (self : ConfigNamespace) (name : string) :
  has_attr self name = true <-> is_Some (__dict__ self !! name).
Proof. unfold has_attr. apply bool_decide_eq_true. Qed.

Lemma collides_nil {A} (params : list string) :
  collides (@nil (string * A)) params = false.
Proof. induction params as [|p params IH]; [reflexivity | exact IH]. Qed.


(** A raise of [add_properties] leaves the namespace as it was. *)
Lemma add_properties_raise_unchanged kwargs self :
  is_raise (fst (add_properties kwargs self)) = true ->
  snd (add_properties kwargs self) = self.
Proof.
  unfold add_properties.
  destruct (has_attr self "add_properties"); [reflexivity|].
  destruct (collides kwargs ["self"]); [reflexivity|].
  destruct (properties_of kwargs) as [items|e]; [|reflexivity].
  destruct (build_props self items ∅) as [props|e]; [|reflexivity].
  destruct (bool_decide (props = ∅)); [reflexivity|].
  simpl. discriminate.
Qed.








(** *** Batch add *)

Lemma build_props_bad_entry self items props name defn :
  In (name, defn) items ->
  ispropertynamevalid name = false \/ has_attr self name = true ->
  is_raise (build_props self items props) = true.
Proof.
  revert props. induction items as [|[n d] items IH]; intros props Hin Hbad.
  - destruct Hin.
  - cbn [build_props].
    destruct (ispropertynamevalid n) eqn:Hn; [|reflexivity].
    destruct (has_attr self n) eqn:Hd; [reflexivity|]. cbn [negb].
    destruct Hin as [[= -> ->]|Hin].
    + destruct Hbad; congruence.
    + destruct (match d with
                | VDict d0 => config_property_record_factory n d0
                | _ => config_property_record_factory n [("value", d)]
                end); [|reflexivity].
      now apply IH.
Qed.

Lemma build_props_ok_dom self items props props' :
  build_props self items props = Ok props' ->
  (forall k, is_Some (props !! k) -> is_Some (props' !! k))
  /\ (forall name defn, In (name, defn) items -> is_Some (props' !! name)).
Proof.
  revert props. induction items as [|[n d] items IH]; intros props H.
  - cbn in H. injection H as <-. split; [auto|]. intros ? ? [].
  - cbn [build_props] in H.
    destruct (negb (ispropertynamevalid n)); [discriminate|].
    destruct (has_attr self n); [discriminate|].
    destruct (match d with
              | VDict d0 => config_property_record_factory n d0
              | _ => config_property_record_factory n [("value", d)]
              end) as [p|]; [|discriminate].
    apply IH in H as [H1 H2]. split.
    + intros k Hk. apply H1.
      destruct (decide (n = k)) as [->|Hne].
      * rewrite lookup_insert_eq. eauto.
      * now rewrite lookup_insert_ne.
    + intros name defn [[= -> ->]|Hin]; [|eauto].
      apply H1. rewrite lookup_insert_eq. eauto.
Qed.

(** C4. [add_properties] is all-or-nothing. (1) Whenever it raises, the
    namespace afterwards is the namespace before: none of the batch is
    added. (2) Every name of the batch is checked (grammar and duplicate)
    before the single update of the instance dictionary: one invalid or
    already present name anywhere in the batch makes the call raise. (3) When
    it returns, every name of the batch is in the namespace. (4) The batch
    ok (value 1), !bad (2) on an empty namespace raises the bad-name
    exception for !bad and leaves the namespace with no property. *)
Theorem add_properties_all_or_nothing (kwargs : list (string * pyval))
    (self : ConfigNamespace) :
  (is_raise (fst (add_properties kwargs self)) = true ->
   snd (add_properties kwargs self) = self)
  /\ (forall items name defn,
        properties_of kwargs = Ok items -> In (name, defn) items ->
        ispropertynamevalid name = false \/ has_attr self name = true ->
        is_raise (fst (add_properties kwargs self)) = true)
  /\ (forall items name defn,
        properties_of kwargs = Ok items -> In (name, defn) items ->
        is_raise (fst (add_properties kwargs self)) = false ->
        has_attr (snd (add_properties kwargs self)) name = true)
  /\ (forall empty, ConfigNamespace_init "foo" [] = Ok empty ->
        add_properties [("ok", VDict [("value", VInt 1)]); ("!bad", VInt 2)] empty
        = (Raise (ConfigPropertyBadName "!bad"), empty)).
Proof.
  split; [apply add_properties_raise_unchanged|].
  split; [|split].
  - intros items name defn Hp Hin Hbad. unfold add_properties.
    destruct (has_attr self "add_properties"); [reflexivity|].
    destruct (collides kwargs ["self"]); [reflexivity|]. rewrite Hp.
    pose proof (build_props_bad_entry self items ∅ name defn Hin Hbad) as H.
    destruct (build_props self items ∅); [discriminate|reflexivity].
  - intros items name defn Hp Hin. unfold add_properties.
    destruct (has_attr self "add_properties"); [discriminate|].
    destruct (collides kwargs ["self"]); [discriminate|]. rewrite Hp.
    destruct (build_props self items ∅) as [props|e] eqn:Hb; [|discriminate].
    apply build_props_ok_dom in Hb as [_ Hb]. specialize (Hb name defn Hin).
    destruct (bool_decide (props = ∅)) eqn:Hemp.
    + apply bool_decide_eq_true in Hemp. subst props.
      rewrite lookup_empty in Hb. now destruct Hb.
    + intros _. simpl. apply has_attr_true. simpl.
      destruct Hb as [p Hp']. exists (AttrRec p).
      apply lookup_union_Some_l. now rewrite lookup_fmap, Hp'.
  - intros empty [= <-]. reflexivity.
Qed.

Lemma add_properties_all_or_nothing_witness :
  let empty := mkNamespace {[ "name" := AttrVal (VStr "foo") ]} in
  let batch := [("ok", VDict [("value", VInt 1)]); ("!bad", VInt 2)] in
  is_raise (fst (add_properties batch empty)) = true
  /\ snd (add_properties batch empty) = empty
  /\ has_attr (snd (add_properties batch empty)) "ok" = false
  /\ add_properties batch empty = (Raise (ConfigPropertyBadName "!bad"), empty).
Proof.
  intros empty batch.
  destruct (add_properties_all_or_nothing batch empty) as (H1 & H2 & _ & H4).
  assert (Hr : is_raise (fst (add_properties batch empty)) = true).
  { apply (H2 batch "!bad" (VInt 2)); [reflexivity | right; now left | now left]. }
  split; [exact Hr|].
  split; [exact (H1 Hr)|].
  split; [rewrite (H1 Hr); reflexivity|].
  apply H4. reflexivity.
Defined.

(** ** Source resolution

    The specification's reading of [resolve]: every source either yields a
    value (after formatting) or yields nothing, without touching the
    destination; the first source that yields, in the fixed order, is
    committed. These definitions follow the specification's words and are
    compared with the code's probes below. *)

Section ResolverFacts.

Variable call : nat -> list pyval -> result pyval.
Variable environ : gmap string string.

(** The formatting step of a source on a raw value. *)
Definition formatted (self : AppConfig) (fmt raw : pyval) : result pyval :=
  if truthy fmt && callable fmt
  then call_obj call fmt [VStr (_name (record self)); raw]
  else Ok raw.

Definition and_then {A B} (r : result A) (k : A -> result B) : result B :=
  match r with Ok a => k a | Raise e => Raise e end.

Definition arg_source (self : AppConfig) : option (result pyval) :=
  match argalias self with
  | VNone => None
  | VFun n => Some (and_then (call n []) (formatted self (argformat self)))
  | literal => Some (formatted self (argformat self) literal)
  end.

Definition env_source (self : AppConfig) : option (result pyval) :=
  match List.find (fun a => bool_decide (is_Some (environ !! a))) (envalias self) with
  | Some a => Some (formatted self (envformat self) (VStr (default "" (environ !! a))))
  | None => None
  end.

Definition cfg_source (self : AppConfig) : option (result pyval) :=
  match cfgparser self with
  | None => None
  | Some parser =>
      match List.find (fun sk => has_option parser (fst sk) (snd sk)) (cfgalias self) with
      | Some sk => Some (and_then (get parser (fst sk) (snd sk))
                                  (formatted self (cfgformat self)))
      | None => None
      end
  end.

Definition keys_of (kp : keypath) : list string :=
  match kp with KeyList l => l | KeySingle k => [k] end.

(** The first key path that is present; a path on which a subscript fails
    for another reason than a missing key ends the search with that
    exception. *)
Fixpoint first_path (self : AppConfig) (paths : list keypath)
    : option (result pyval) :=
  match paths with
  | [] => None
  | kp :: rest =>
      match _getdictentry self (keys_of kp) with
      | Raise e => Some (Raise e)
      | Ok (true, v) => Some (Ok v)
      | Ok (false, _) => first_path self rest
      end
  end.

Definition dict_source (self : AppConfig) : option (result pyval) :=
  match dictconfig self with
  | VNone => None
  | _ => option_map (fun r => and_then r (formatted self (dictformat self)))
           (first_path self (dictalias self))
  end.

Definition default_source (self : AppConfig) : option (result pyval) :=
  if has_default self then Some (Ok (default_value self)) else None.

(** Argument, environment, config-parser, dictionary, static default. *)
Definition first_yield (self : AppConfig) : option (result pyval) :=
  match arg_source self with
  | Some y => Some y
  | None =>
      match env_source self with
      | Some y => Some y
      | None =>
          match cfg_source self with
          | Some y => Some y
          | None =>
              match dict_source self with
              | Some y => Some y
              | None => default_source self
              end
          end
      end
  end.

(** Committing what a source yielded: a raise while obtaining or formatting
    the value leaves the destination alone; otherwise the value goes
    through the record's setter. *)
Definition commit (y : result pyval) : M AppConfig bool :=
  do val <- lift y;
  do _ <- assign_record_value call val;
  ret true.

Definition probe_spec (source : AppConfig -> option (result pyval))
    (probe : M AppConfig bool) : Prop :=
  forall self,
    probe self = match source self with
                 | Some y => commit y self
                 | None => (Ok false, self)
                 end.

Lemma apply_format_eq fmt val self :
  apply_format call fmt val self = (formatted self fmt val, self).
Proof.
  unfold apply_format, formatted.
  destruct (truthy fmt && callable fmt); reflexivity.
Qed.

Lemma commit_eq y self :
  commit y self
  = match y with
    | Ok val =>
        match assign_record_value call val self with
        | (Ok _, self') => (Ok true, self')
        | (Raise e, self') => (Raise e, self')
        end
    | Raise e => (Raise e, self)
    end.
Proof. destruct y; reflexivity. Qed.

(** A formatted value, then the assignment: the tail shared by the probes. *)
Lemma format_assign_eq fmt raw self :
  (do val <- apply_format call fmt raw;
   do _ <- assign_record_value call val;
   ret true) self
  = commit (formatted self fmt raw) self.
Proof.
  unfold bind at 1. rewrite apply_format_eq, commit_eq.
  destruct (formatted self fmt raw); reflexivity.
Qed.

Lemma _argalias_spec : probe_spec arg_source (_argalias call).
Proof.
  intros self. unfold _argalias, arg_source.
  unfold bind at 1. unfold gets at 1.
  destruct (argalias self) eqn:Ha; cbn [is_none negb callable];
    try reflexivity;
    try (unfold bind at 1; unfold ret at 1; unfold bind at 1; unfold gets at 1;
         apply format_assign_eq).
  unfold bind at 1. unfold lift at 1. cbn [call_obj].
  destruct (call n []) as [raw|e]; cbn [and_then]; [|reflexivity].
  unfold bind at 1; unfold gets at 1. apply format_assign_eq.
Qed.

Lemma _envalias_spec : probe_spec env_source (_envalias call environ).
Proof.
  intros self. unfold _envalias, env_source.
  unfold bind at 1. unfold gets at 1.
  induction (envalias self) as [|a l IH]; cbn [_envalias_loop List.find];
    [reflexivity|].
  destruct (environ !! a) as [raw|] eqn:Ha.
  - rewrite bool_decide_eq_true_2 by eauto. rewrite Ha. cbn [default].
    unfold bind at 1; unfold gets at 1. apply format_assign_eq.
  - rewrite bool_decide_eq_false_2 by (intros [? ?]; discriminate). exact IH.
Qed.

Lemma _cfgalias_spec : probe_spec cfg_source (_cfgalias call).
Proof.
  intros self. unfold _cfgalias, cfg_source.
  unfold bind at 1. unfold gets at 1.
  destruct (cfgparser self) as [parser|]; [|reflexivity].
  unfold bind at 1. unfold gets at 1.
  induction (cfgalias self) as [|[s k] l IH]; cbn [_cfgalias_loop List.find];
    [reflexivity|].
  cbn [fst snd]. destruct (has_option parser s k); [|exact IH].
  cbn [fst snd]. unfold bind at 1. unfold lift at 1.
  destruct (get parser s k) as [raw|e]; cbn [and_then]; [|reflexivity].
  unfold bind at 1; unfold gets at 1. apply format_assign_eq.
Qed.

Lemma _dictalias_loop_spec self paths :
  _dictalias_loop call paths self
  = match option_map (fun r => and_then r (formatted self (dictformat self)))
            (first_path self paths) with
    | Some y => commit y self
    | None => (Ok false, self)
    end.
Proof.
  induction paths as [|kp l IH]; cbn [_dictalias_loop first_path];
    [reflexivity|].
  unfold bind at 1. unfold gets at 1. unfold id.
  unfold bind at 1. unfold lift at 1.
  replace (match kp with
           | KeyList l0 => _getdictentry self l0
           | KeySingle k => _getdictentry self [k]
           end) with (_getdictentry self (keys_of kp)) by now destruct kp.
  destruct (_getdictentry self (keys_of kp)) as [[[|] v]|e];
    cbn [fst snd option_map and_then].
  - unfold bind at 1; unfold gets at 1. apply format_assign_eq.
  - exact IH.
  - reflexivity.
Qed.

Lemma _dictalias_spec : probe_spec dict_source (_dictalias call).
Proof.
  intros self. unfold _dictalias, dict_source. unfold bind, gets, ret.
  destruct (dictconfig self) eqn:Hd; cbn; try reflexivity;
    apply _dictalias_loop_spec.
Qed.

Lemma _default_spec : probe_spec default_source (_default call).
Proof.
  intros self. unfold _default, default_source.
  unfold commit, bind, gets, lift, ret.
  destruct (has_default self); cbn; [|reflexivity].
  destruct (assign_record_value call (default_value self) self) as [[x|e] s];
    reflexivity.
Qed.

Lemma commit_not_false y self s : commit y self <> (Ok false, s).
Proof.
  rewrite commit_eq. destruct y as [val|e]; [|discriminate].
  destruct (assign_record_value call val self) as [[?|?] ?]; discriminate.
Qed.

Ltac probe_step Hspec :=
  unfold bind at 1; rewrite Hspec;
  match goal with
  | |- context [match ?src with Some _ => _ | None => _ end] =>
      destruct src as [y|];
      [ unfold bind;
        let Hc := fresh "Hc" in
        destruct (commit y _) as [[[|]|e] s] eqn:Hc;
        [ reflexivity | now apply commit_not_false in Hc | reflexivity ]
      | ]
  end.

(** The whole of [resolve]: the first yielding source is committed and the
    destination is read back; with no yielding source the destination is
    only read. *)
Lemma resolve_first_yield (self : AppConfig) :
  resolve call environ self
  = match first_yield self with
    | Some y => (do _ <- commit y; read_record_value) self
    | None => read_record_value self
    end.
Proof.
  unfold resolve, first_yield. cbn [first_hit]. unfold bind at 1.
  probe_step (_argalias_spec self).
  probe_step (_envalias_spec self).
  probe_step (_cfgalias_spec self).
  probe_step (_dictalias_spec self).
  unfold bind at 1. rewrite (_default_spec self).
  destruct (default_source self) as [y|]; [|reflexivity].
  unfold bind. destruct (commit y self) as [[[|]|e] s]; reflexivity.
Qed.

End ResolverFacts.

(** What [resolve] does once a source has yielded [y]. *)
Definition commit_then_read (call : nat -> list pyval -> result pyval)
    (y : result pyval) : M AppConfig pyval :=
  do _ <- commit call y; read_record_value.

Lemma commit_then_read_accept call (self : AppConfig) v x rec' :
  set_value call v (record self) = (Ok x, rec') ->
  fst (commit_then_read call (Ok v) self) = Ok v
  /\ record (snd (commit_then_read call (Ok v) self)) = rec'
  /\ _value rec' = v /\ _hasvalue rec' = true.
Proof.
  intros Hs. pose proof (set_value_ok_inv _ _ _ _ _ Hs) as (-> & Hv & Hh & _).
  unfold commit_then_read, commit, bind, lift, ret, assign_record_value,
    read_record_value, get_value.
  rewrite Hs. cbn. rewrite Hh, Hv. cbn. auto.
Qed.

(** The scenario of the resolution-priority property: a destination [foo]
    without hooks and without a value; the argument source supplies 1, the
    environment variable APP_FOO the string 2, the parser the string 3 for
    (main, foo), the dictionary 4 at the path a, foo, and the default is 5.
    [scenario n] has the [n] highest sources removed. *)
Definition sample_environ : gmap string string := {[ "APP_FOO" := "2" ]}.

Definition sample_parser : ConfigParser :=
  {| has_option := fun s k => String.eqb s "main" && String.eqb k "foo";
     get := fun _ _ => Ok (VStr "3") |}.

Definition scenario (n : nat) : AppConfig :=
  {| record := ConfigPropertyRecordExt_init "foo" [];
     argalias := if (n <? 1)%nat then VInt 1 else VNone;
     argformat := VNone;
     envalias := if (n <? 2)%nat then ["APP_FOO"] else [];
     envformat := VNone;
     cfgparser := if (n <? 3)%nat then Some sample_parser else None;
     cfgalias := if (n <? 3)%nat then [("main", "foo")] else [];
     cfgformat := VNone;
     dictconfig := if (n <? 4)%nat
                   then VDict [("a", VDict [("foo", VInt 4)])] else VNone;
     dictalias := if (n <? 4)%nat then [KeyList ["a"; "foo"]] else [];
     dictformat := VNone;
     default_value := if (n <? 5)%nat then VInt 5 else VNone;
     has_default := (n <? 5)%nat |}.

(** The outcome of a call and what the destination holds afterwards. *)
Definition destination (r : result pyval * AppConfig) : result pyval * bool * pyval :=
  (fst r, _hasvalue (record (snd r)), _value (record (snd r))).

(** C1. [resolve] tries the sources in the fixed order argument,
    environment, config-parser, dictionary, static default, and commits the
    (formatted) value of the first one that yields: whatever the argument
    source yields is committed whatever the other sources hold; when it is
    not configured, what the environment yields; and so on down to the
    default. A committed value that the record's setter accepts is the value
    stored and returned. When no source yields and no default was supplied,
    the destination is left exactly as it was, and [resolve] only reads
    it. *)
Theorem resolve_priority_order call environ (self : AppConfig) :
  (forall y, arg_source call self = Some y ->
     resolve call environ self = commit_then_read call y self)
  /\ (forall y, arg_source call self = None ->
        env_source call environ self = Some y ->
        resolve call environ self = commit_then_read call y self)
  /\ (forall y, arg_source call self = None ->
        env_source call environ self = None ->
        cfg_source call self = Some y ->
        resolve call environ self = commit_then_read call y self)
  /\ (forall y, arg_source call self = None ->
        env_source call environ self = None ->
        cfg_source call self = None ->
        dict_source call self = Some y ->
        resolve call environ self = commit_then_read call y self)
  /\ (forall y, arg_source call self = None ->
        env_source call environ self = None ->
        cfg_source call self = None ->
        dict_source call self = None ->
        default_source self = Some y ->
        resolve call environ self = commit_then_read call y self)
  /\ (arg_source call self = None ->
      env_source call environ self = None ->
      cfg_source call self = None ->
      dict_source call self = None ->
      default_source self = None ->
      resolve call environ self = read_record_value self
      /\ snd (resolve call environ self) = self)
  /\ (forall v x rec',
        first_yield call environ self = Some (Ok v) ->
        set_value call v (record self) = (Ok x, rec') ->
        fst (resolve call environ self) = Ok v
        /\ record (snd (resolve call environ self)) = rec'
        /\ _value rec' = v /\ _hasvalue rec' = true).
Proof.
  pose proof (resolve_first_yield call environ self) as H.
  unfold first_yield in *.
  split; [|split; [|split; [|split; [|split; [|split]]]]].
  - intros y Ha. now rewrite Ha in H.
  - intros y Ha He. now rewrite Ha, He in H.
  - intros y Ha He Hc. now rewrite Ha, He, Hc in H.
  - intros y Ha He Hc Hd. now rewrite Ha, He, Hc, Hd in H.
  - intros y Ha He Hc Hd Hf. now rewrite Ha, He, Hc, Hd, Hf in H.
  - intros Ha He Hc Hd Hf. rewrite Ha, He, Hc, Hd, Hf in H.
    split; [exact H | now rewrite H].
  - intros v x rec' Hy Hs. rewrite Hy in H. rewrite H.
    now apply (commit_then_read_accept call self v x rec').
Qed.

Lemma resolve_priority_order_witness :
  destination (resolve sample_call sample_environ (scenario 0))
  = (Ok (VInt 1), true, VInt 1)
  /\ destination (resolve sample_call sample_environ (scenario 1))
     = (Ok (VStr "2"), true, VStr "2")
  /\ destination (resolve sample_call sample_environ (scenario 2))
     = (Ok (VStr "3"), true, VStr "3")
  /\ destination (resolve sample_call sample_environ (scenario 3))
     = (Ok (VInt 4), true, VInt 4)
  /\ destination (resolve sample_call sample_environ (scenario 4))
     = (Ok (VInt 5), true, VInt 5)
  /\ resolve sample_call sample_environ (scenario 5)
     = (Raise (ConfigPropertyValueNotSet "foo"), scenario 5).
Proof.
  split; [|split; [|split; [|split; [|split]]]].
  - destruct (resolve_priority_order sample_call sample_environ (scenario 0))
      as (H & _).
    rewrite (H (Ok (VInt 1)) eq_refl). reflexivity.
  - destruct (resolve_priority_order sample_call sample_environ (scenario 1))
      as (_ & H & _).
    rewrite (H (Ok (VStr "2")) eq_refl eq_refl). reflexivity.
  - destruct (resolve_priority_order sample_call sample_environ (scenario 2))
      as (_ & _ & H & _).
    rewrite (H (Ok (VStr "3")) eq_refl eq_refl eq_refl). reflexivity.
  - destruct (resolve_priority_order sample_call sample_environ (scenario 3))
      as (_ & _ & _ & H & _).
    rewrite (H (Ok (VInt 4)) eq_refl eq_refl eq_refl eq_refl). reflexivity.
  - destruct (resolve_priority_order sample_call sample_environ (scenario 4))
      as (_ & _ & _ & _ & H & _).
    rewrite (H (Ok (VInt 5)) eq_refl eq_refl eq_refl eq_refl eq_refl).
    reflexivity.
  - destruct (resolve_priority_order sample_call sample_environ (scenario 5))
      as (_ & _ & _ & _ & _ & H & _).
    destruct (H eq_refl eq_refl eq_refl eq_refl eq_refl) as [H1 _].
    rewrite H1. reflexivity.
Defined.

(** *** No source yields *)

(** Every key of the chain resolves in the nested mapping, ending at [v]. *)
Inductive path_resolves : pyval -> list string -> pyval -> Prop :=
| path_here v : path_resolves v [] v
| path_step d key rest v w :
    dict_get d key = Some v ->
    path_resolves v rest w ->
    path_resolves (VDict d) (key :: rest) w.




Lemma find_none_all {A} (f : A -> bool) (l : list A) :
  (forall a, In a l -> f a = false) -> List.find f l = None.
Proof.
  induction l as [|a l IH]; intros H; cbn; [reflexivity|].
  rewrite (H a (or_introl eq_refl)). apply IH. intros b Hb. apply H. now right.
Qed.





(** An [AppConfig] built with no keyword at all, on a destination without
    a value. *)
Example resolve_plain_unset call environ :
  resolve call environ (AppConfig_plain (ConfigPropertyRecordExt_init "foo" []))
  = (Raise (ConfigPropertyValueNotSet "foo"),
     AppConfig_plain (ConfigPropertyRecordExt_init "foo" [])).
Proof. reflexivity. Qed.

(** *** The dictionary source *)

Lemma _getdictentry_loop_hit got value keys v :
  _getdictentry_loop got value keys = Ok (true, v)
  <-> (keys = [] /\ got = true /\ v = value
       \/ keys <> [] /\ path_resolves value keys v).
Proof.
  revert got value. induction keys as [|key rest IH]; intros got value; cbn.
  - split.
    + intros [= -> ->]. now left.
    + intros [(_ & -> & ->) | [H _]]; [reflexivity | congruence].
  - split.
    + intros H. right. split; [discriminate|].
      destruct value; try discriminate. cbn in H.
      destruct (dict_get d key) as [x|] eqn:Hk; [|discriminate].
      apply IH in H as [(-> & _ & ->) | [_ H]].
      * econstructor; eauto. constructor.
      * econstructor; eauto.
    + intros [(H & _) | [_ H]]; [discriminate|].
      inversion H as [|d key' rest' x w Hk Hrest]; subst. cbn. rewrite Hk.
      apply IH. destruct rest as [|k2 rest2].
      * inversion Hrest; subst. now left.
      * right. split; [discriminate | exact Hrest].
Qed.

Lemma _getdictentry_hit (self : AppConfig) keys v :
  _getdictentry self keys = Ok (true, v)
  <-> path_resolves (dictconfig self) keys v.
Proof.
  unfold _getdictentry. rewrite _getdictentry_loop_hit. split.
  - intros [(-> & _ & ->) | [_ H]]; [constructor | exact H].
  - intros H. destruct keys as [|k l].
    + inversion H; subst. now left.
    + right. split; [discriminate | exact H].
Qed.





(** ** The parent chain *)

Lemma _parents_eq (self : ConfigurationManager) (nspc : string) :
  _parents self nspc
  = ((if has_ns self nspc then [nspc] else [])
     ++ (if -1 <? rfind nspc NS_SEP
         then _parents self (slice_to nspc (rfind nspc NS_SEP))
         else []))%list.
Proof. funelim (_parents self nspc); now rewrite Hi. Qed.

Fixpoint has_dot (s : string) : bool :=
  match s with
  | EmptyString => false
  | String c s' => Ascii.eqb "." c || has_dot s'
  end.

Lemma append_cons (c : ascii) (a b : string) :
  String c a ++ b = String c (a ++ b).
Proof. reflexivity. Qed.

Lemma append_nil (b : string) : "" ++ b = b.
Proof. reflexivity. Qed.

Ltac app_simpl := rewrite ?append_cons, ?append_nil in *.

Lemma append_assoc_s (a b c : string) : (a ++ b) ++ c = a ++ (b ++ c).
Proof. induction a as [|x a IH]; app_simpl; [reflexivity | now f_equal]. Qed.

Lemma length_append_s (a b : string) :
  String.length (a ++ b) = (String.length a + String.length b)%nat.
Proof.
  induction a as [|x a IH]; app_simpl; [reflexivity|]. cbn. now f_equal.
Qed.

Lemma has_dot_append (a b : string) :
  has_dot (a ++ b) = has_dot a || has_dot b.
Proof.
  induction a as [|x a IH]; app_simpl; [reflexivity|].
  cbn. rewrite IH. now rewrite orb_assoc.
Qed.

Lemma substring_0_append (a b : string) :
  String.substring 0 (String.length a) (a ++ b) = a.
Proof.
  induction a as [|x a IH]; app_simpl; [now destruct b|]. cbn. now f_equal.
Qed.

(** Two ways of cutting the same string: one cut point is before the other. *)
Lemma append_eq_split (a x p y : string) :
  a ++ x = p ++ y ->
  (exists z, p = a ++ z /\ x = z ++ y) \/ (exists z, a = p ++ z /\ y = z ++ x).
Proof.
  revert p. induction a as [|c a IH]; intros p H.
  - left. exists p. now split.
  - destruct p as [|d p].
    + right. exists (String c a). now split.
    + rewrite !append_cons in H. injection H as -> H.
      destruct (IH p H) as [[z [-> ->]] | [z [-> ->]]].
      * left. exists z. now split.
      * right. exists z. now split.
Qed.

Lemma append_empty_r (a : string) : a ++ "" = a.
Proof. induction a as [|x a IH]; app_simpl; [reflexivity | now f_equal]. Qed.

(** [rfind] of the separator: either there is no separator, or the string
    is cut at its last one. *)
Lemma rfind_from_sep (s : string) (i : Z) :
  0 <= i ->
  (has_dot s = false /\ rfind_from s NS_SEP i = -1)
  \/ (exists a b, s = a ++ String "." b /\ has_dot b = false
                  /\ rfind_from s NS_SEP i = i + Z.of_nat (String.length a)).
Proof.
  revert i. induction s as [|c s IH]; intros i Hi.
  - left. now split.
  - cbn [rfind_from has_dot]. rewrite prefix_sep.
    destruct (IH (i + 1) ltac:(lia)) as [[Hnd Hr] | (a & b & -> & Hb & Hr)].
    + rewrite Hr. change (0 <=? -1) with false. cbv iota.
      destruct (Ascii.eqb "." c) eqn:Hc.
      * apply Ascii.eqb_eq in Hc. subst c. right. exists "", s.
        repeat split; [exact Hnd | cbn; lia].
      * left. now rewrite Hnd.
    + rewrite Hr. right. exists (String c a), b.
      destruct (0 <=? i + 1 + Z.of_nat (String.length a)) eqn:Hle.
      * repeat split; [exact Hb | cbn [String.length]; lia].
      * apply Z.leb_gt in Hle. lia.
Qed.

Lemma rfind_sep (s : string) :
  (has_dot s = false /\ rfind s NS_SEP = -1)
  \/ (exists a b, s = a ++ String "." b /\ has_dot b = false
                  /\ 0 <= rfind s NS_SEP
                  /\ slice_to s (rfind s NS_SEP) = a).
Proof.
  unfold rfind, slice_to.
  destruct (rfind_from_sep s 0 ltac:(lia)) as [H | (a & b & Hs & Hb & Hr)];
    [now left|].
  right. exists a, b. rewrite Hr. repeat split; auto; [lia|].
  rewrite Z.add_0_l, Nat2Z.id, Hs. apply substring_0_append.
Qed.

(** [p] is [n] with zero or more trailing dot-segments stripped. *)
Definition dotprefix (p n : string) : Prop :=
  p = n \/ exists r, n = p ++ String "." r.

Lemma dotprefix_nodot (p s : string) :
  has_dot s = false -> dotprefix p s <-> p = s.
Proof.
  intros Hnd. split; [|now left].
  intros [H | [r ->]]; [exact H|].
  rewrite has_dot_append in Hnd. cbn in Hnd.
  now rewrite orb_true_r in Hnd.
Qed.

Lemma dotprefix_cut (p a b : string) :
  has_dot b = false ->
  dotprefix p (a ++ String "." b) <-> p = a ++ String "." b \/ dotprefix p a.
Proof.
  intros Hb. split.
  - intros [H | [r Hr]]; [now left|]. right.
    destruct (append_eq_split _ _ _ _ Hr) as [[z [-> Hz]] | [z [-> Hz]]].
    + destruct z as [|c z]; app_simpl.
      * left. now rewrite append_empty_r.
      * injection Hz as <- ->. rewrite has_dot_append in Hb. cbn in Hb.
        now rewrite orb_true_r in Hb.
    + destruct z as [|c z]; app_simpl.
      * left. now rewrite append_empty_r.
      * injection Hz as <- _. right. now exists z.
  - intros [H | [H | [r ->]]].
    + now left.
    + subst p. right. now exists b.
    + right. exists (r ++ String "." b). now rewrite append_assoc_s.
Qed.

Lemma dotprefix_length (p n : string) :
  dotprefix p n -> (String.length p <= String.length n)%nat.
Proof.
  intros [-> | [r ->]]; [lia|]. rewrite length_append_s. lia.
Qed.

Lemma in_parents (self : ConfigurationManager) (nspc p : string) :
  In p (_parents self nspc) <-> has_ns self p = true /\ dotprefix p nspc.
Proof.
  funelim (_parents self nspc); clear Heqcall.
  - pose proof (proj1 (Z.ltb_lt _ _) Hi) as Hlt.
    destruct (rfind_sep nspc) as [[_ Hr] | (a & b & Hs & Hb & _ & Hcut)];
      [lia|].
    rewrite Hcut in *. rewrite in_app_iff, H.
    rewrite Hs at 3. rewrite (dotprefix_cut p a b Hb), <- Hs.
    destruct (has_ns self nspc) eqn:Hn; cbn.
    + split.
      * intros [[<- | []] | [H1 H2]]; [split; [exact Hn | now left] | auto].
      * intros [H1 [-> | H2]]; [left; now left | right; auto].
    + split.
      * intros [[] | [H1 H2]]. auto.
      * intros [H1 [-> | H2]]; [congruence | right; auto].
  - pose proof (proj1 (Z.ltb_ge _ _) Hi) as Hge.
    destruct (rfind_sep nspc) as [[Hnd _] | (a & b & _ & _ & Hr & _)]; [|lia].
    rewrite app_nil_r, (dotprefix_nodot p nspc Hnd).
    destruct (has_ns self nspc) eqn:Hn; cbn.
    + split; [intros [<- | []]; auto | intros [_ ->]; now left].
    + split; [intros [] | intros [H1 ->]; congruence].
Qed.

Definition nearer (a b : string) : Prop :=
  (String.length b < String.length a)%nat.

Lemma parents_nearest_first (self : ConfigurationManager) (nspc : string) :
  StronglySorted nearer (_parents self nspc).
Proof.
  funelim (_parents self nspc); clear Heqcall.
  - destruct (has_ns self nspc); cbn; [|exact H].
    constructor; [exact H|].
    apply List.Forall_forall. intros p Hp. apply in_parents in Hp as [_ Hp].
    apply dotprefix_length in Hp.
    pose proof (slice_to_rfind_shorter nspc Hi). unfold nearer. lia.
  - rewrite app_nil_r. destruct (has_ns self nspc); repeat constructor.
Qed.

Lemma parents_at_sep (self : ConfigurationManager) (n : string) (i : Z) (p : string) :
  rfind n NS_SEP = i -> 0 <= i -> slice_to n i = p ->
  _parents self n = ((if has_ns self n then [n] else []) ++ _parents self p)%list.
Proof.
  intros Hr Hi Hp. rewrite _parents_eq, Hr, Hp.
  destruct (-1 <? i) eqn:Hlt; [reflexivity|]. apply Z.ltb_ge in Hlt. lia.
Qed.

Lemma parents_no_sep (self : ConfigurationManager) (n : string) :
  rfind n NS_SEP = -1 ->
  _parents self n = if has_ns self n then [n] else [].
Proof. intros Hr. rewrite _parents_eq, Hr. cbn. apply app_nil_r. Qed.

(** A registry built through the public interface: the constructor with no
    namespaces given, then [add_namespace] for each name in turn. *)
Fixpoint add_all (names : list string) : M ConfigurationManager unit :=
  match names with
  | [] => ret tt
  | n :: rest => do _ <- add_namespace n []; add_all rest
  end.

Definition registry_with (names : list string) : result ConfigurationManager :=
  match ConfigurationManager_init 1 [] with
  | Ok mgr => match add_all names mgr with
              | (Ok _, mgr') => Ok mgr'
              | (Raise e, _) => Raise e
              end
  | Raise e => Raise e
  end.

Ltac parents_abc :=
  unfold parent_namespaces;
  rewrite (parents_at_sep _ "a.b.c" 3 "a.b" eq_refl ltac:(lia) eq_refl);
  rewrite (parents_at_sep _ "a.b" 1 "a" eq_refl ltac:(lia) eq_refl);
  rewrite (parents_no_sep _ "a" eq_refl);
  reflexivity.

(** C5. [parent_namespaces] of a name is a chain followed by the default
    sentinel as last element. The chain holds exactly the names of the
    registry among the name itself and what progressively stripping its
    last dot-segment gives, each strictly longer than the next (nearest
    first). So a name that is not obtained by stripping, a sibling for
    instance, is never in the chain. On the registry with only the default
    namespace the result for a.b.c is the sentinel alone; after adding a.b it
    is a.b and the sentinel; after adding a.b.c and a as well it is a.b.c,
    a.b, a and the sentinel, also when the sibling a.x is registered. *)
Theorem parent_namespaces_chain :
  (forall (self : ConfigurationManager) (nspc : string),
     parent_namespaces self nspc = (_parents self nspc ++ [DEFAULT_NS])%list
     /\ (forall p, In p (_parents self nspc)
                   <-> has_ns self p = true /\ dotprefix p nspc)
     /\ StronglySorted nearer (_parents self nspc))
  /\ (exists m0 m1 m3 m4,
        registry_with [] = Ok m0
        /\ parent_namespaces m0 "a.b.c" = [DEFAULT_NS]
        /\ registry_with ["a.b"] = Ok m1
        /\ parent_namespaces m1 "a.b.c" = ["a.b"; DEFAULT_NS]
        /\ registry_with ["a.b"; "a.b.c"; "a"] = Ok m3
        /\ parent_namespaces m3 "a.b.c" = ["a.b.c"; "a.b"; "a"; DEFAULT_NS]
        /\ registry_with ["a.b"; "a.b.c"; "a"; "a.x"] = Ok m4
        /\ parent_namespaces m4 "a.b.c" = ["a.b.c"; "a.b"; "a"; DEFAULT_NS]).
Proof.
  split.
  - intros self nspc. split; [reflexivity|].
    split; [apply in_parents | apply parents_nearest_first].
  - destruct (registry_with []) as [m0|] eqn:H0;
      [|vm_compute in H0; discriminate].
    destruct (registry_with ["a.b"]) as [m1|] eqn:H1;
      [|vm_compute in H1; discriminate].
    destruct (registry_with ["a.b"; "a.b.c"; "a"]) as [m3|] eqn:H3;
      [|vm_compute in H3; discriminate].
    destruct (registry_with ["a.b"; "a.b.c"; "a"; "a.x"]) as [m4|] eqn:H4;
      [|vm_compute in H4; discriminate].
    exists m0, m1, m3, m4.
    vm_compute in H0; injection H0 as <-.
    vm_compute in H1; injection H1 as <-.
    vm_compute in H3; injection H3 as <-.
    vm_compute in H4; injection H4 as <-.
    repeat (split; [first [reflexivity | parents_abc]|]).
    parents_abc.
Qed.

(** ** The singleton accessors *)

Lemma has_ns_true (self : ConfigurationManager) (n : string) (x : ConfigNamespace) :
  namespaces self !! n = Some x -> has_ns self n = true.
Proof. intros H. apply bool_decide_eq_true. eauto. Qed.

Lemma has_ns_false (self : ConfigurationManager) (n : string) :
  namespaces self !! n = None -> has_ns self n = false.
Proof.
  intros H. apply bool_decide_eq_false. rewrite H. intros [? ?]; discriminate.
Qed.

Lemma isnsnamevalid_nonempty (n : string) :
  isnsnamevalid n = true -> String.eqb n "" = false.
Proof.
  unfold isnsnamevalid. destruct (String.eqb n ""); [discriminate | reflexivity].
Qed.

(** The namespace that the constructor makes when no property is given. *)
Definition empty_namespace (nspc : string) : ConfigNamespace :=
  mkNamespace {[ "name" := AttrVal (VStr nspc) ]}.

Lemma empty_namespace_attr (nspc k : string) :
  k <> "name" -> has_attr (empty_namespace nspc) k = false.
Proof.
  intros Hk. unfold has_attr, empty_namespace. cbn [__dict__].
  apply bool_decide_eq_false. rewrite lookup_singleton_ne by congruence.
  intros [x Hx]. discriminate.
Qed.

(** [getConfig] with the name of a namespace that the registry lacks:
    whatever [ornearest], the namespace is created empty, registered and
    returned. *)
Lemma getConfig_named_absent caller (mgr : ConfigurationManager) nspc ornearest :
  isnsnamevalid nspc = true ->
  namespaces mgr !! nspc = None ->
  getConfig caller (Some nspc) ornearest [] (Some mgr)
  = (Ok (empty_namespace nspc),
     Some (mkManager (version mgr)
             (<[nspc := empty_namespace nspc]> (namespaces mgr)))).
Proof.
  intros Hv Hn. unfold getConfig. rewrite collides_nil. cbv iota.
  unfold bind, getConfigManager, lift, has_namespace.
  rewrite (isnsnamevalid_nonempty nspc Hv), Hv. cbn [negb].
  rewrite (has_ns_false mgr nspc Hn).
  unfold on_manager, add_namespace. rewrite collides_nil. cbv iota.
  rewrite Hv, (has_ns_false mgr nspc Hn). cbn [negb].
  unfold configuration_namespace_factory, ConfigNamespace_init.
  rewrite collides_nil. cbv iota.
  rewrite Hv. reflexivity.
Qed.

(** [getConfig] with the name of a namespace that the registry has, and no
    property to add: the namespace is returned and nothing changes. *)
Lemma getConfig_named_present caller (mgr : ConfigurationManager) nspc ornearest x :
  isnsnamevalid nspc = true ->
  namespaces mgr !! nspc = Some x ->
  getConfig caller (Some nspc) ornearest [] (Some mgr) = (Ok x, Some mgr).
Proof.
  intros Hv Hn. unfold getConfig. rewrite collides_nil. cbv iota.
  unfold bind, getConfigManager, lift, has_namespace.
  rewrite (isnsnamevalid_nonempty nspc Hv), Hv. cbn [negb].
  rewrite (has_ns_true mgr nspc x Hn).
  unfold get_namespace. rewrite Hv, (has_ns_true mgr nspc x Hn). cbn [negb].
  unfold namespace_at. now rewrite Hn.
Qed.

(** Without properties to add, [getConfig] never removes or changes a
    registered namespace. *)
Lemma getConfig_keeps caller (mgr : ConfigurationManager) nspc ornearest k x :
  namespaces mgr !! k = Some x ->
  exists mgr', snd (getConfig caller nspc ornearest [] (Some mgr)) = Some mgr'
               /\ namespaces mgr' !! k = Some x.
Proof.
  intros Hk.
  assert (Hsame : forall r : result ConfigNamespace,
             exists mgr', snd (r, Some mgr) = Some mgr'
                          /\ namespaces mgr' !! k = Some x) by (intros; eauto).
  unfold getConfig. rewrite collides_nil. cbv iota.
  unfold bind, getConfigManager, lift. destruct nspc as [n|];
    [|destruct (get_namespace mgr caller ornearest); apply Hsame].
  destruct (String.eqb n "") eqn:Hne; cbn [negb];
    [destruct (get_namespace mgr caller ornearest); apply Hsame|].
  unfold has_namespace. destruct (isnsnamevalid n) eqn:Hv; cbn [negb];
    [|apply Hsame].
  destruct (namespaces mgr !! n) as [y|] eqn:Hn.
  - rewrite (has_ns_true mgr n y Hn).
    unfold get_namespace. rewrite Hv, (has_ns_true mgr n y Hn). cbn [negb].
    unfold namespace_at. rewrite Hn. apply Hsame.
  - rewrite (has_ns_false mgr n Hn).
    unfold on_manager, add_namespace. rewrite collides_nil. cbv iota.
    rewrite Hv, (has_ns_false mgr n Hn).
    cbn [negb]. unfold configuration_namespace_factory, ConfigNamespace_init.
    rewrite collides_nil. cbv iota.
    rewrite Hv. cbn. eexists; split; [reflexivity|]. cbn.
    rewrite lookup_insert_ne; [exact Hk | congruence].
Qed.

(** The registry of the scenario of C2: the singleton is created by
    registering the namespace pkg with the property foo = 5. *)
Definition pkg_registry : global :=
  snd (getConfig "main" (Some "pkg") true
         [("foo", VDict [("value", VInt 5)])] None).

(** C2, as stated, fails: in the registry that holds pkg (with foo) and
    no pkg.mod, [getConfig] called with the name pkg.mod and ornearest true
    does not return a namespace whose name is pkg. *)
Lemma getConfig_nearest_counterexample :
  (exists mgr pkg,
     pkg_registry = Some mgr
     /\ namespaces mgr !! "pkg" = Some pkg
     /\ has_property pkg "foo" = Ok true
     /\ namespaces mgr !! "pkg.mod" = None)
  /\ ~ (exists ns,
          fst (getConfig "main" (Some "pkg.mod") true [] pkg_registry) = Ok ns
          /\ getattr ns "name" = Ok (AttrVal (VStr "pkg"))).
Proof.
  split.
  - destruct pkg_registry as [mgr|] eqn:Hg; [|vm_compute in Hg; discriminate].
    destruct (namespaces mgr !! "pkg") as [pkg|] eqn:Hp.
    + exists mgr, pkg. vm_compute in Hg. injection Hg as <-.
      vm_compute in Hp. injection Hp as <-.
      repeat split; vm_compute; reflexivity.
    + vm_compute in Hg. injection Hg as <-. vm_compute in Hp. discriminate.
  - intros (ns & Hns & Hname).
    vm_compute in Hns. injection Hns as <-.
    vm_compute in Hname. discriminate.
Qed.

(** C2, amended. With pkg registered and pkg.mod not, [getConfig] called
    with the name pkg.mod creates, registers and returns a new empty
    namespace named pkg.mod, whatever [ornearest] is. The nearest existing
    namespace, pkg, is what [get_namespace] of the registry returns for
    pkg.mod with ornearest true, and what [getConfig] returns when the name
    is omitted and the calling module is pkg.mod; neither changes the
    registry. *)
Theorem getConfig_named_creates caller (mgr : ConfigurationManager)
    (pkg : ConfigNamespace) (ornearest : bool) :
  namespaces mgr !! "pkg" = Some pkg ->
  namespaces mgr !! "pkg.mod" = None ->
  getConfig caller (Some "pkg.mod") ornearest [] (Some mgr)
  = (Ok (empty_namespace "pkg.mod"),
     Some (mkManager (version mgr)
             (<["pkg.mod" := empty_namespace "pkg.mod"]> (namespaces mgr))))
  /\ getattr (empty_namespace "pkg.mod") "name" = Ok (AttrVal (VStr "pkg.mod"))
  /\ get_namespace mgr "pkg.mod" true = Ok pkg
  /\ getConfig "pkg.mod" None true [] (Some mgr) = (Ok pkg, Some mgr).
Proof.
  intros Hp Hm.
  assert (Hnear : get_namespace mgr "pkg.mod" true = Ok pkg).
  { unfold get_namespace. change (isnsnamevalid "pkg.mod") with true.
    cbn [negb]. rewrite (has_ns_false mgr _ Hm).
    unfold parent_namespaces.
    rewrite (parents_at_sep mgr "pkg.mod" 3 "pkg" eq_refl ltac:(lia) eq_refl).
    rewrite (has_ns_false mgr _ Hm).
    rewrite (parents_no_sep mgr "pkg" eq_refl), (has_ns_true mgr _ _ Hp).
    cbn. unfold namespace_at. now rewrite Hp. }
  split; [now apply getConfig_named_absent|].
  split; [reflexivity|].
  split; [exact Hnear|].
  unfold getConfig. rewrite collides_nil. cbv iota.
  unfold bind, getConfigManager, lift. now rewrite Hnear.
Qed.

Lemma getConfig_named_creates_witness :
  exists mgr pkg,
    pkg_registry = Some mgr
    /\ namespaces mgr !! "pkg" = Some pkg
    /\ fst (getConfig "main" (Some "pkg.mod") true [] pkg_registry)
       = Ok (empty_namespace "pkg.mod")
    /\ get_namespace mgr "pkg.mod" true = Ok pkg.
Proof.
  destruct pkg_registry as [mgr|] eqn:Hg; [|vm_compute in Hg; discriminate].
  destruct (namespaces mgr !! "pkg") as [pkg|] eqn:Hp.
  - exists mgr, pkg.
    assert (Hm : namespaces mgr !! "pkg.mod" = None).
    { vm_compute in Hg. injection Hg as <-. vm_compute. reflexivity. }
    destruct (getConfig_named_creates "main" mgr pkg true Hp Hm)
      as (H1 & _ & H3 & _).
    rewrite H1. repeat split; auto.
  - vm_compute in Hg. injection Hg as <-. vm_compute in Hp. discriminate.
Defined.

(** *** Lookup by qualified name *)

(** The registry that the first access creates. *)
Definition initial_manager : ConfigurationManager :=
  mkManager 1 (<[DEFAULT_NS := empty_namespace DEFAULT_NS]> ∅ ∪ ∅).

Lemma getConfigManager_first : 
  getConfigManager [] None = (Ok initial_manager, Some initial_manager).
Proof. reflexivity. Qed.

Lemma getConfig_unborn caller nspc ornearest kwargs :
  collides kwargs ["nspc"; "ornearest"] = false ->
  getConfig caller nspc ornearest kwargs None
  = getConfig caller nspc ornearest kwargs (Some initial_manager).
Proof.
  intros Hc. unfold getConfig. rewrite Hc. cbv iota.
  unfold bind. now rewrite getConfigManager_first.
Qed.

Lemma search_parents_keeps caller chain propname (mgr : ConfigurationManager) k x :
  namespaces mgr !! k = Some x ->
  exists mgr', snd (search_parents caller chain propname (Some mgr)) = Some mgr'
               /\ namespaces mgr' !! k = Some x.
Proof.
  revert mgr. induction chain as [|nss rest IH]; intros mgr Hk.
  - cbn. eauto.
  - cbn [search_parents]. unfold bind at 1.
    destruct (getConfig_keeps caller mgr (Some nss) false k x Hk)
      as (mgr1 & Hs & Hk1).
    destruct (getConfig caller (Some nss) false [] (Some mgr)) as [[nsp|e] g1];
      cbn in Hs; subst g1; [|cbn; eauto].
    unfold bind at 1. unfold lift at 1.
    destruct (has_property nsp propname) as [[|]|e]; [| |cbn; eauto].
    + unfold bind, lift, ret. destruct (getattr nsp propname); cbn; eauto.
    + now apply IH.
Qed.

(** C9, as stated, fails: pkg is a valid namespace name that the registry
    lacks, yet looking up the qualified name pkg.1x raises the bad-property-
    name exception before any namespace lookup, and the registry is left
    without pkg. *)
Lemma getConfigRecord_counterexample :
  isnsnamevalid "pkg" = true
  /\ namespaces initial_manager !! "pkg" = None
  /\ getConfigRecord "main" "pkg.1x" true (Some initial_manager)
     = (Raise (ConfigPropertyBadName "1x"), Some initial_manager).
Proof. repeat split. Qed.

(** C9, amended. [getConfigRecord] is not a pure lookup: for every
    qualified name whose part before the last dot is a valid namespace name
    absent from the registry and whose part after it is a valid property
    name, the call leaves the registry holding a new empty namespace under
    that name, whether it returns or raises (the property-not-found
    exception included); the namespaces registered before stay as they
    were. *)
Theorem getConfigRecord_creates_namespace caller (fqname : string)
    (ornearest : bool) (g : global) :
  0 <= rfind fqname NS_SEP ->
  isnsnamevalid (slice_to fqname (rfind fqname NS_SEP)) = true ->
  ispropertynamevalid (slice_from fqname (rfind fqname NS_SEP + 1)) = true ->
  (forall mgr, g = Some mgr ->
     namespaces mgr !! slice_to fqname (rfind fqname NS_SEP) = None) ->
  exists mgr',
    snd (getConfigRecord caller fqname ornearest g) = Some mgr'
    /\ namespaces mgr' !! slice_to fqname (rfind fqname NS_SEP)
       = Some (empty_namespace (slice_to fqname (rfind fqname NS_SEP)))
    /\ (forall mgr k x, g = Some mgr -> namespaces mgr !! k = Some x ->
          namespaces mgr' !! k = Some x).
Proof.
  intros Hp Hns Hprop Habsent.
  remember (slice_to fqname (rfind fqname NS_SEP)) as nspc eqn:En.
  remember (slice_from fqname (rfind fqname NS_SEP + 1)) as propname eqn:Epn.
  (* the state after the namespace lookup *)
  assert (Hfirst : exists mgr1,
             getConfig caller (Some nspc) ornearest [] g
             = (Ok (empty_namespace nspc), Some mgr1)
             /\ namespaces mgr1 !! nspc = Some (empty_namespace nspc)
             /\ (forall mgr k x, g = Some mgr ->
                   namespaces mgr !! k = Some x ->
                   namespaces mgr1 !! k = Some x)).
  { destruct g as [mgr|].
    - rewrite (getConfig_named_absent caller mgr nspc ornearest Hns
                 (Habsent mgr eq_refl)).
      eexists; split; [reflexivity|]. cbn. split.
      + apply lookup_insert_eq.
      + intros mgr0 k x [= <-] Hk. rewrite lookup_insert_ne; [exact Hk|].
        intros <-. rewrite (Habsent mgr eq_refl) in Hk. discriminate.
    - rewrite getConfig_unborn by apply collides_nil.
      destruct (namespaces initial_manager !! nspc) as [y|] eqn:Hy.
      + assert (nspc = DEFAULT_NS /\ y = empty_namespace DEFAULT_NS) as [Hd ->].
        { unfold initial_manager in Hy. cbn [namespaces] in Hy.
          rewrite (right_id_L ∅ (∪)) in Hy.
          apply lookup_insert_Some in Hy as [[<- <-] | [_ Hy]]; [auto|].
          rewrite lookup_empty in Hy. discriminate. }
        rewrite (getConfig_named_present caller initial_manager nspc ornearest
                   _ Hns Hy).
        rewrite Hd in *. eexists; split; [reflexivity|].
        split; [exact Hy | discriminate].
      + rewrite (getConfig_named_absent caller initial_manager nspc ornearest
                   Hns Hy).
        eexists; split; [reflexivity|]. cbn. split.
        * apply lookup_insert_eq.
        * discriminate. }
  destruct Hfirst as (mgr1 & Hg1 & Hk1 & Hold).
  assert (Hdone : forall r : result attr,
             exists mgr', snd (r, Some mgr1) = Some mgr'
               /\ namespaces mgr' !! nspc = Some (empty_namespace nspc)
               /\ (forall mgr k x, g = Some mgr ->
                     namespaces mgr !! k = Some x ->
                     namespaces mgr' !! k = Some x)) by (intros; eauto).
  unfold getConfigRecord.
  destruct (String.eqb fqname "") eqn:He.
  { apply String.eqb_eq in He. subst fqname. cbn in Hp. lia. }
  apply Z.leb_le in Hp. rewrite Hp, <- En, <- Epn.
  rewrite Hns, Hprop. cbn [negb].
  unfold bind at 1. rewrite Hg1.
  unfold bind at 1. unfold lift at 1. unfold has_property at 1.
  rewrite (empty_namespace_attr nspc "has_property") by discriminate.
  rewrite Hprop. cbn [negb].
  destruct (has_attr (empty_namespace nspc) propname).
  { unfold lift. apply Hdone. }
  unfold bind at 1. destruct ornearest.
  - unfold bind at 1. unfold getConfigManager at 1.
    set (chain := parent_namespaces mgr1 nspc).
    destruct (search_parents_keeps caller chain propname mgr1 nspc _ Hk1)
      as (mgr2 & Hs2 & Hk2).
    assert (Hold2 : forall mgr k x, g = Some mgr ->
               namespaces mgr !! k = Some x -> namespaces mgr2 !! k = Some x).
    { intros mgr k x Hg Hk. specialize (Hold mgr k x Hg Hk).
      destruct (search_parents_keeps caller chain propname mgr1 k x Hold)
        as (mgr2' & Hs2' & Hk2').
      rewrite Hs2 in Hs2'. now injection Hs2' as <-. }
    destruct (search_parents caller chain propname (Some mgr1))
      as [[[a|]|e] g2]; cbn in Hs2; subst g2; cbn; eauto.
  - unfold ret at 1. cbn. eauto.
Qed.

Lemma getConfigRecord_creates_namespace_witness :
  namespaces initial_manager !! "pkg.mod" = None
  /\ exists mgr',
       snd (getConfigRecord "main" "pkg.mod.foo" true (Some initial_manager))
       = Some mgr'
       /\ namespaces mgr' !! "pkg.mod" = Some (empty_namespace "pkg.mod")
       /\ namespaces mgr' !! DEFAULT_NS = Some (empty_namespace DEFAULT_NS).
Proof.
  split; [reflexivity|].
  destruct (getConfigRecord_creates_namespace "main" "pkg.mod.foo" true
              (Some initial_manager))
    as (mgr' & Hs & Hk & Hold).
  - vm_compute. discriminate.
  - reflexivity.
  - reflexivity.
  - intros mgr [= <-]. reflexivity.
  - exists mgr'. split; [exact Hs|]. split; [exact Hk|].
    apply (Hold initial_manager); reflexivity.
Defined.

(** The call of the witness above ends by raising the property-not-found
    exception. *)
Example getConfigRecord_not_found :
  fst (getConfigRecord "main" "pkg.mod.foo" true (Some initial_manager))
  = Raise (ConfigPropertyNotFound "pkg.mod.foo").
Proof.
  unfold getConfigRecord.
  change (String.eqb "pkg.mod.foo" "") with false.
  change (rfind "pkg.mod.foo" NS_SEP) with 7.
  change (0 <=? 7) with true.
  change (slice_to "pkg.mod.foo" 7) with "pkg.mod".
  change (slice_from "pkg.mod.foo" (7 + 1)) with "foo".
  cbv beta iota zeta.
  change (isnsnamevalid "pkg.mod") with true.
  change (ispropertynamevalid "foo") with true.
  cbn [negb]. unfold bind at 1.
  rewrite (getConfig_named_absent "main" initial_manager "pkg.mod" true
             eq_refl eq_refl).
  unfold bind at 1. unfold lift at 1.
  change (has_property (empty_namespace "pkg.mod") "foo") with (Ok false).
  unfold bind at 1. unfold bind at 1. unfold getConfigManager at 1.
  unfold parent_namespaces.
  rewrite (parents_at_sep _ "pkg.mod" 3 "pkg" eq_refl ltac:(lia) eq_refl).
  rewrite (parents_no_sep _ "pkg" eq_refl).
  reflexivity.
Qed.

(** ** The matcher and the name grammars *)

Lemma append_eq_empty (a b : string) : a ++ b = "" -> a = "" /\ b = "".
Proof. destruct a; [auto | discriminate]. Qed.

Lemma append_eq_cons (a b : string) (c : ascii) (s : string) :
  a ++ b = String c s ->
  (a = "" /\ b = String c s) \/ (exists a', a = String c a' /\ s = a' ++ b).
Proof.
  destruct a as [|x a]; [now left|].
  rewrite append_cons. intros [= -> <-]. right. now exists a.
Qed.

Lemma matches_eps_inv (s : string) : Re.matches Re.Eps s -> s = "".
Proof. now inversion 1. Qed.

Lemma matches_class_inv items (s : string) :
  Re.matches (Re.Class items) s ->
  exists c, s = String c "" /\ Re.class_mem items c = true.
Proof. inversion 1; subst; eauto. Qed.

Lemma matches_seq_inv r1 r2 (s : string) :
  Re.matches (Re.Seq r1 r2) s ->
  exists s1 s2, s = s1 ++ s2 /\ Re.matches r1 s1 /\ Re.matches r2 s2.
Proof. inversion 1; subst; eauto. Qed.

Lemma matches_alt_inv r1 r2 (s : string) :
  Re.matches (Re.Alt r1 r2) s -> Re.matches r1 s \/ Re.matches r2 s.
Proof. inversion 1; subst; auto. Qed.

Lemma nullable_matches (r : Re.regex) :
  Re.nullable r = true <-> Re.matches r "".
Proof.
  induction r as [| |items|r1 IH1 r2 IH2|r1 IH1 r2 IH2|r IH]; cbn.
  - split; [discriminate | inversion 1].
  - split; [constructor | reflexivity].
  - split; [discriminate|].
    intros H. apply matches_class_inv in H as (c & E & _). discriminate.
  - rewrite andb_true_iff, IH1, IH2. split.
    + intros [H1 H2]. change "" with ("" ++ ""). now constructor.
    + intros H. apply matches_seq_inv in H as (s1 & s2 & E & H1 & H2).
      symmetry in E. apply append_eq_empty in E as [-> ->]. now split.
  - rewrite orb_true_iff, IH1, IH2. split.
    + intros [H | H]; [now apply Re.MAltL | now apply Re.MAltR].
    + apply matches_alt_inv.
  - split; [constructor | reflexivity].
Qed.

(** A non-empty match of a star starts with a non-empty match of its body. *)
Lemma star_cons_inv (r : Re.regex) (c : ascii) (s : string) :
  Re.matches (Re.Star r) (String c s) ->
  exists s1 s2, s = s1 ++ s2 /\ Re.matches r (String c s1)
                /\ Re.matches (Re.Star r) s2.
Proof.
  intros H. remember (Re.Star r) as sr eqn:Er.
  remember (String c s) as cs eqn:Ecs. revert s Ecs.
  induction H as [| | | | | |r' s1 s2 H1 _ H2 IH2]; try discriminate.
  injection Er as ->. intros s Ecs.
  apply append_eq_cons in Ecs as [[-> ->] | (a' & -> & ->)].
  - now apply IH2.
  - now exists a', s2.
Qed.

Lemma deriv_matches (c : ascii) (r : Re.regex) (s : string) :
  Re.matches (Re.deriv c r) s <-> Re.matches r (String c s).
Proof.
  revert s.
  induction r as [| |items|r1 IH1 r2 IH2|r1 IH1 r2 IH2|r IH]; intros s; cbn.
  - split; inversion 1.
  - split; inversion 1.
  - destruct (Re.class_mem items c) eqn:Hc; split.
    + intros H. apply matches_eps_inv in H as ->. now constructor.
    + intros H. apply matches_class_inv in H as (c' & [= <- ->] & _).
      constructor.
    + inversion 1.
    + intros H. apply matches_class_inv in H as (c' & [= <- ->] & H).
      congruence.
  - assert (Hseq : forall t, Re.matches (Re.Seq (Re.deriv c r1) r2) t ->
              Re.matches (Re.Seq r1 r2) (String c t)).
    { intros t Ht. apply matches_seq_inv in Ht as (s1 & s2 & -> & H1 & H2).
      apply IH1 in H1. rewrite <- append_cons. now constructor. }
    split.
    + intros H.
      destruct (Re.nullable r1) eqn:Hn; [|now apply Hseq].
      apply matches_alt_inv in H as [H | H]; [now apply Hseq|].
      change (String c s) with ("" ++ String c s).
      constructor; [now apply nullable_matches | now apply IH2].
    + intros H. apply matches_seq_inv in H as (s1 & s2 & E & H1 & H2).
      symmetry in E.
      apply append_eq_cons in E as [[-> ->] | (a' & -> & ->)].
      * apply nullable_matches in H1. rewrite H1.
        apply Re.MAltR. now apply IH2.
      * assert (Hd : Re.matches (Re.Seq (Re.deriv c r1) r2) (a' ++ s2)).
        { constructor; [now apply IH1 | exact H2]. }
        destruct (Re.nullable r1); [now apply Re.MAltL | exact Hd].
  - split.
    + intros H. apply matches_alt_inv in H as [H | H];
        [apply Re.MAltL; now apply IH1 | apply Re.MAltR; now apply IH2].
    + intros H. apply matches_alt_inv in H as [H | H];
        [apply Re.MAltL; now apply IH1 | apply Re.MAltR; now apply IH2].
  - split.
    + intros H. apply matches_seq_inv in H as (s1 & s2 & -> & H1 & H2).
      apply IH in H1. rewrite <- append_cons. now constructor.
    + intros H. apply star_cons_inv in H as (s1 & s2 & -> & H1 & H2).
      constructor; [now apply IH | exact H2].
Qed.

(** The derivative matcher decides the matching relation. *)
Lemma fullmatch_matches (r : Re.regex) (s : string) :
  Re.fullmatch r s = true <-> Re.matches r s.
Proof.
  revert r. induction s as [|c s IH]; intros r; cbn.
  - apply nullable_matches.
  - rewrite IH. apply deriv_matches.
Qed.

(** *** Character classes *)

Definition is_letter (c : ascii) : bool := Re.class_mem cls_letter c.
Definition is_word (c : ascii) : bool := Re.class_mem cls_word c.
Definition is_uletter (c : ascii) : bool := Re.class_mem cls_uletter c.

Ltac by_cases_on_ascii c :=
  destruct c as [[] [] [] [] [] [] [] []]; vm_compute; intros;
  first [reflexivity | discriminate | congruence].

Lemma uletter_word (c : ascii) : is_uletter c = true -> is_word c = true.
Proof. by_cases_on_ascii c. Qed.

Lemma letter_uletter (c : ascii) : is_letter c = true -> is_uletter c = true.
Proof. by_cases_on_ascii c. Qed.

Lemma word_not_dot (c : ascii) : is_word c = true -> Ascii.eqb c "." = false.
Proof. by_cases_on_ascii c. Qed.

Lemma dot_class (c : ascii) :
  Re.class_mem [Re.CChar "."] c = Ascii.eqb c ".".
Proof. by_cases_on_ascii c. Qed.

Fixpoint all_word (s : string) : bool :=
  match s with
  | EmptyString => true
  | String c s' => is_word c && all_word s'
  end.

(** *** The grammar in the specification's words and in the code's *)

(** [s.split(".")], as the first segment and the later ones. *)
Fixpoint split_dots (s : string) : string * list string :=
  match s with
  | EmptyString => ("", [])
  | String c s' =>
      let (seg, segs) := split_dots s' in
      if Ascii.eqb c "." then ("", seg :: segs) else (String c seg, segs)
  end.

Definition segments (s : string) : list string :=
  fst (split_dots s) :: snd (split_dots s).

(** A segment matching [A-Za-z][A-Za-z0-9_]*. *)
Definition is_identifier (seg : string) : bool :=
  match seg with
  | EmptyString => false
  | String c rest => is_letter c && all_word rest
  end.

(** A segment matching [A-Za-z_][A-Za-z0-9_]*. *)
Definition is_uidentifier (seg : string) : bool :=
  match seg with
  | EmptyString => false
  | String c rest => is_uletter c && all_word rest
  end.

(** The namespace-name grammar as the specification words it: the sentinel,
    or dot-separated segments that are all identifiers. *)
Definition spec_ns_grammar (s : string) : Prop :=
  s = DEFAULT_NS \/ forallb is_identifier (segments s) = true.

(** The grammar of the pattern: the sentinel, or dot-separated segments of
    which the first is an identifier and the later ones may also start with
    an underscore. *)
Definition code_ns_grammar (s : string) : Prop :=
  s = DEFAULT_NS
  \/ (is_identifier (fst (split_dots s))
      && forallb is_uidentifier (snd (split_dots s))) = true.

(** [s] does not end with a line feed. *)
Definition no_final_newline (s : string) : Prop :=
  forall t, s <> t ++ String "010" "".

(** The scanner that the pattern amounts to, after the first letter: word
    characters, and dots that an underscore or letter follows. *)
Fixpoint tail_ok (s : string) : bool :=
  match s with
  | EmptyString => true
  | String c s' =>
      if is_word c then tail_ok s'
      else if Ascii.eqb c "." then
        match s' with
        | String u _ => is_uletter u && tail_ok s'
        | EmptyString => false
        end
      else false
  end.

Definition ns_chars_ok (s : string) : bool :=
  match s with
  | EmptyString => false
  | String c s' => is_letter c && tail_ok s'
  end.

Example segments_ex : segments "a._b.c1" = ["a"; "_b"; "c1"].
Proof. reflexivity. Qed.
Example segments_ex2 : segments "" = [""] /\ segments "a..b" = ["a"; ""; "b"].
Proof. split; reflexivity. Qed.

(** *** The language of the namespace pattern *)

Definition word_star : Re.regex := Re.Star (Re.Class cls_word).

Definition later_group : Re.regex :=
  Re.Seq (Re.Opt (Re.Class [Re.CChar "."]))
    (Re.Seq (Re.Class cls_uletter) word_star).

Lemma word_star_all_word (w : string) :
  Re.matches word_star w <-> all_word w = true.
Proof.
  split.
  - intros H. unfold word_star in H.
    remember (Re.Star (Re.Class cls_word)) as r eqn:Er.
    induction H as [| | | | | |r' s1 s2 H1 _ H2 IH2]; try discriminate;
      [reflexivity|].
    injection Er as ->.
    apply matches_class_inv in H1 as (c & -> & Hc).
    rewrite append_cons, append_nil. cbn [all_word].
    unfold is_word. rewrite Hc. now apply IH2.
  - induction w as [|c w IH]; intros H; [constructor|].
    cbn [all_word] in H. apply andb_true_iff in H as [Hc Hw].
    change (String c w) with (String c "" ++ w).
    constructor; [now constructor | now apply IH].
Qed.

Lemma all_word_tail_ok (w : string) : all_word w = true -> tail_ok w = true.
Proof.
  induction w as [|c w IH]; [reflexivity|]. cbn [all_word tail_ok].
  intros H. apply andb_true_iff in H as [-> Hw]. now apply IH.
Qed.

Lemma tail_ok_append (a b : string) :
  tail_ok a = true -> tail_ok b = true -> tail_ok (a ++ b) = true.
Proof.
  induction a as [|c a IH]; intros Ha Hb; [exact Hb|].
  rewrite append_cons. cbn [tail_ok] in *.
  destruct (is_word c); [now apply IH|].
  destruct (Ascii.eqb c "."); [|discriminate].
  destruct a as [|u a']; [discriminate|].
  apply andb_true_iff in Ha as [Hu Ha].
  rewrite append_cons, Hu. rewrite <- append_cons. now apply IH.
Qed.

Lemma tail_ok_uletter (u : ascii) (s : string) :
  is_uletter u = true -> tail_ok (String u s) = tail_ok s.
Proof. intros Hu. cbn [tail_ok]. now rewrite (uletter_word u Hu). Qed.

Lemma later_group_tail_ok (b : string) :
  Re.matches later_group b -> tail_ok b = true.
Proof.
  intros H. apply matches_seq_inv in H as (d & r & -> & Hd & Hr).
  apply matches_seq_inv in Hr as (x & w & -> & Hx & Hw).
  apply matches_class_inv in Hx as (u & -> & Hu).
  apply word_star_all_word, all_word_tail_ok in Hw.
  rewrite append_cons, append_nil.
  assert (Huw : tail_ok (String u w) = true)
    by now rewrite (tail_ok_uletter u w Hu).
  apply matches_alt_inv in Hd as [Hd | Hd].
  - apply matches_class_inv in Hd as (c & -> & Hc).
    rewrite dot_class in Hc. rewrite append_cons, append_nil.
    cbn [tail_ok]. rewrite Hc.
    destruct (is_word c); [exact Huw|].
    change (is_uletter u) with (Re.class_mem cls_uletter u).
    rewrite Hu. exact Huw.
  - apply matches_eps_inv in Hd as ->. exact Huw.
Qed.

Lemma later_groups_tail_ok (s : string) :
  Re.matches (Re.Star later_group) s -> tail_ok s = true.
Proof.
  intros H. remember (Re.Star later_group) as r eqn:Er.
  induction H as [| | | | | |r' s1 s2 H1 _ H2 IH2]; try discriminate;
    [reflexivity|].
  injection Er as ->.
  apply tail_ok_append; [now apply later_group_tail_ok | now apply IH2].
Qed.

Lemma tail_ok_decompose (t : string) :
  tail_ok t = true ->
  exists w s2, t = w ++ s2 /\ all_word w = true
               /\ Re.matches (Re.Star later_group) s2
               /\ (s2 = "" \/ exists r, s2 = String "." r).
Proof.
  induction t as [|c t IH]; intros H.
  - exists "", "". repeat split; [constructor | now left].
  - cbn [tail_ok] in H. destruct (is_word c) eqn:Hw.
    + destruct (IH H) as (w & s2 & -> & Haw & Hs2 & Hinv).
      exists (String c w), s2. repeat split; auto.
      cbn [all_word]. now rewrite Hw.
    + destruct (Ascii.eqb c ".") eqn:Hd; [|discriminate].
      apply Ascii.eqb_eq in Hd. subst c.
      destruct t as [|u t']; [discriminate|].
      apply andb_true_iff in H as [Hu Ht].
      destruct (IH Ht) as (w & s2 & E & Haw & Hs2 & Hinv).
      destruct w as [|x w'].
      * rewrite append_nil in E. subst s2.
        destruct Hinv as [Hinv | [r Hinv]]; [discriminate|].
        injection Hinv as -> _. vm_compute in Hu. discriminate.
      * rewrite append_cons in E. injection E as <- ->.
        cbn [all_word] in Haw. apply andb_true_iff in Haw as [_ Haw].
        exists "", (String "." (String u w') ++ s2).
        repeat split.
        -- apply Re.MStarS; [|exact Hs2].
           change (String "." (String u w'))
             with (String "." "" ++ (String u "" ++ w')).
           constructor.
           ++ apply Re.MAltL. now constructor.
           ++ constructor; [now constructor | now apply word_star_all_word].
        -- right. now exists (String u w' ++ s2).
Qed.

Lemma ns_pattern_chars (s : string) :
  Re.matches VALID_NS_NAMES s <-> ns_chars_ok s = true.
Proof.
  split.
  - intros H. apply matches_seq_inv in H as (h & s2 & -> & Hh & Hs2).
    apply matches_seq_inv in Hh as (l & w & -> & Hl & Hw).
    apply matches_class_inv in Hl as (c & -> & Hc).
    rewrite !append_cons, append_nil. cbn [ns_chars_ok].
    unfold is_letter. rewrite Hc. cbn [andb].
    apply tail_ok_append.
    + now apply all_word_tail_ok, word_star_all_word.
    + now apply later_groups_tail_ok.
  - destruct s as [|c t]; [discriminate|]. cbn [ns_chars_ok].
    intros H. apply andb_true_iff in H as [Hc Ht].
    destruct (tail_ok_decompose t Ht) as (w & s2 & -> & Hw & Hs2 & _).
    change (String c (w ++ s2)) with ((String c "" ++ w) ++ s2).
    constructor; [|exact Hs2].
    constructor; [now constructor | now apply word_star_all_word].
Qed.

(** *** The scanner and the segments *)

Lemma uletter_not_dot (u : ascii) :
  Ascii.eqb u "." = true -> is_uletter u = false.
Proof. by_cases_on_ascii u. Qed.

Lemma tail_ok_segments (t : string) :
  tail_ok t
  = all_word (fst (split_dots t)) && forallb is_uidentifier (snd (split_dots t)).
Proof.
  induction t as [|c t IH]; [reflexivity|].
  cbn [split_dots tail_ok].
  destruct (split_dots t) as [seg segs] eqn:Hsp. cbn [fst snd] in IH.
  destruct (is_word c) eqn:Hw.
  - rewrite (word_not_dot c Hw). cbn [fst snd all_word]. now rewrite Hw.
  - destruct (Ascii.eqb c ".") eqn:Hd; cbn [fst snd all_word forallb].
    + destruct t as [|u t'].
      * cbn in Hsp. injection Hsp as <- <-. reflexivity.
      * cbn [split_dots] in Hsp.
        destruct (split_dots t') as [seg' segs'].
        destruct (Ascii.eqb u ".") eqn:Hu; injection Hsp as <- <-.
        -- now rewrite (uletter_not_dot u Hu).
        -- rewrite IH. cbn [is_uidentifier all_word].
           destruct (is_uletter u) eqn:Hul; [|reflexivity].
           rewrite (uletter_word u Hul). cbn [andb]. reflexivity.
    + now rewrite Hw.
Qed.

Lemma letter_not_dot (c : ascii) :
  Ascii.eqb c "." = true -> is_letter c = false.
Proof. by_cases_on_ascii c. Qed.

Lemma ns_chars_segments (s : string) :
  ns_chars_ok s
  = is_identifier (fst (split_dots s))
    && forallb is_uidentifier (snd (split_dots s)).
Proof.
  destruct s as [|c t]; [reflexivity|].
  cbn [ns_chars_ok split_dots]. rewrite tail_ok_segments.
  destruct (split_dots t) as [seg segs]. cbn [fst snd].
  destruct (Ascii.eqb c ".") eqn:Hd; cbn [fst snd is_identifier].
  - now rewrite (letter_not_dot c Hd).
  - now rewrite andb_assoc.
Qed.

Lemma chomp_none (s : string) : no_final_newline s -> Re.chomp s = None.
Proof.
  induction s as [|c s IH]; intros H; [reflexivity|].
  cbn [Re.chomp]. destruct s as [|d s'].
  - destruct (Ascii.eqb c "010") eqn:Hc; [|reflexivity].
    apply Ascii.eqb_eq in Hc. subst c. now destruct (H "").
  - rewrite IH; [reflexivity|].
    intros t Ht. apply (H (String c t)). rewrite append_cons. now f_equal.
Qed.

Lemma chomp_append_newline (t : string) :
  Re.chomp (t ++ String "010" "") = Some t.
Proof.
  induction t as [|c t IH]; [reflexivity|].
  rewrite append_cons. cbn [Re.chomp]. rewrite IH.
  destruct (t ++ String "010" "") eqn:E; [destruct t; discriminate|].
  reflexivity.
Qed.

Lemma chomp_none_no_final_newline (s : string) :
  Re.chomp s = None -> no_final_newline s.
Proof. intros H t ->. rewrite chomp_append_newline in H. discriminate. Qed.

(** C7, as stated, fails: a._b is accepted although its second segment
    starts with an underscore, so it is not of the grammar as the
    specification words it. *)
Lemma isnsnamevalid_counterexample :
  isnsnamevalid "a._b" = true /\ ~ spec_ns_grammar "a._b".
Proof.
  split; [reflexivity|].
  intros [H | H]; [discriminate | vm_compute in H; discriminate].
Qed.

(** C7, amended. On strings that do not end with a line feed,
    [isnsnamevalid] accepts exactly the sentinel and the strings made of one
    or more dot-separated segments of which the first matches
    [A-Za-z][A-Za-z0-9_]* and every later one matches [A-Za-z_][A-Za-z0-9_]*:
    a later segment may start with an underscore, no segment may start with
    a digit or be empty, and the first may not start with an underscore.
    Every string of the grammar as the specification words it is accepted. *)
Theorem isnsnamevalid_grammar (s : string) :
  no_final_newline s ->
  (isnsnamevalid s = true <-> code_ns_grammar s)
  /\ (spec_ns_grammar s -> isnsnamevalid s = true).
Proof.
  intros Hnl.
  assert (Hcode : isnsnamevalid s = true <-> code_ns_grammar s).
  { unfold isnsnamevalid, Re.match_dollar, code_ns_grammar.
    rewrite (chomp_none s Hnl), orb_false_r, <- ns_chars_segments.
    split.
    - intros H. apply andb_true_iff in H as [_ H].
      apply orb_true_iff in H as [H | H].
      + left. now apply String.eqb_eq.
      + right. now apply ns_pattern_chars, fullmatch_matches.
    - intros [-> | H]; [reflexivity|].
      apply andb_true_iff. split.
      + destruct s; [discriminate | reflexivity].
      + apply orb_true_iff. right.
        now apply fullmatch_matches, ns_pattern_chars. }
  split; [exact Hcode|].
  intros [-> | H]; [reflexivity|].
  apply Hcode. right. unfold segments in H. cbn [forallb] in H.
  apply andb_true_iff in H as [H1 H2]. rewrite H1. cbn [andb].
  apply forallb_forall. intros seg Hin.
  rewrite forallb_forall in H2. specialize (H2 seg Hin).
  destruct seg as [|c rest]; [discriminate|]. cbn [is_identifier is_uidentifier] in *.
  apply andb_true_iff in H2 as [Hc Hr].
  now rewrite (letter_uletter c Hc), Hr.
Qed.

Lemma isnsnamevalid_grammar_witness :
  no_final_newline "pkg._mod.x1"
  /\ code_ns_grammar "pkg._mod.x1"
  /\ isnsnamevalid "pkg._mod.x1" = true.
Proof.
  assert (Hnl : no_final_newline "pkg._mod.x1")
    by (apply chomp_none_no_final_newline; reflexivity).
  split; [exact Hnl|].
  assert (Hg : code_ns_grammar "pkg._mod.x1") by (right; reflexivity).
  split; [exact Hg|].
  destruct (isnsnamevalid_grammar "pkg._mod.x1" Hnl) as [H _].
  apply H. exact Hg.
Defined.

(** The end anchor of the pattern also holds before a final line feed: a
    valid name followed by one line feed is accepted as well. *)
Example isnsnamevalid_final_newline :
  isnsnamevalid (String "a" (String "010" "")) = true.
Proof. reflexivity. Qed.

(** * Further properties of the code *)

(** ** The name predicates in full *)

Lemma chomp_some (s t : string) :
  Re.chomp s = Some t <-> s = t ++ String "010" "".
Proof.
  split; [|intros ->; apply chomp_append_newline].
  revert t. induction s as [|c s IH]; intros t H; [discriminate|].
  cbn [Re.chomp] in H. destruct s as [|d s'].
  - destruct (Ascii.eqb c "010") eqn:Hc; [|discriminate].
    apply Ascii.eqb_eq in Hc. subst c. now injection H as <-.
  - destruct (Re.chomp (String d s')) as [t'|] eqn:Ht; [|discriminate].
    injection H as <-. rewrite append_cons. f_equal. now apply IH.
Qed.

Lemma match_dollar_cases (r : Re.regex) (s : string) :
  Re.match_dollar r s = true
  <-> Re.matches r s \/ exists t, s = t ++ String "010" "" /\ Re.matches r t.
Proof.
  unfold Re.match_dollar. rewrite orb_true_iff, fullmatch_matches.
  split; (intros [H | H]; [now left | right]).
  - destruct (Re.chomp s) as [t|] eqn:Ht; [|discriminate].
    exists t. split; [now apply chomp_some | now apply fullmatch_matches].
  - destruct H as (t & -> & Ht). rewrite chomp_append_newline.
    now apply fullmatch_matches.
Qed.

Lemma property_pattern_identifier (s : string) :
  Re.matches VALID_PROPERTY_NAMES s <-> is_identifier s = true.
Proof.
  split.
  - intros H. apply matches_seq_inv in H as (l & w & -> & Hl & Hw).
    apply matches_class_inv in Hl as (c & -> & Hc).
    rewrite append_cons, append_nil. cbn [is_identifier].
    unfold is_letter. rewrite Hc. now apply word_star_all_word.
  - destruct s as [|c w]; [discriminate|]. cbn [is_identifier].
    intros H. apply andb_true_iff in H as [Hc Hw].
    change (String c w) with (String c "" ++ w).
    constructor; [now constructor | now apply word_star_all_word].
Qed.

Lemma append_newline_nonempty (t : string) :
  String.eqb (t ++ String "010" "") "" = false.
Proof. now destruct t. Qed.

(** X1. [ispropertynamevalid] accepts exactly the strings made of a letter
    followed by letters, digits and underscores, and those strings followed
    by one line feed. In particular the empty string, a leading underscore
    or digit, and a dot anywhere are rejected. *)
Theorem ispropertynamevalid_exact (s : string) :
  ispropertynamevalid s = true
  <-> is_identifier s = true
      \/ exists t, s = t ++ String "010" "" /\ is_identifier t = true.
Proof.
  unfold ispropertynamevalid.
  rewrite andb_true_iff, match_dollar_cases, property_pattern_identifier.
  split.
  - intros [_ [H | (t & -> & H)]]; [now left | right].
    exists t. split; [reflexivity | now apply property_pattern_identifier].
  - intros [H | (t & -> & H)].
    + split; [now destruct s | now left].
    + split; [now rewrite append_newline_nonempty|].
      right. exists t. split; [reflexivity | now apply property_pattern_identifier].
Qed.

(** The grammar of the namespace pattern alone, without the sentinel. *)
Definition pattern_ns_grammar (s : string) : Prop :=
  (is_identifier (fst (split_dots s))
   && forallb is_uidentifier (snd (split_dots s))) = true.

(** X2. [isnsnamevalid] accepts exactly: the sentinel; the strings made of
    dot-separated segments of which the first is a letter followed by word
    characters and the later ones an underscore or letter followed by word
    characters; and such a string followed by one line feed. The sentinel
    followed by a line feed is rejected. *)
Theorem isnsnamevalid_exact (s : string) :
  isnsnamevalid s = true
  <-> s = DEFAULT_NS
      \/ pattern_ns_grammar s
      \/ exists t, s = t ++ String "010" "" /\ pattern_ns_grammar t.
Proof.
  unfold isnsnamevalid, pattern_ns_grammar.
  rewrite andb_true_iff, orb_true_iff, match_dollar_cases, String.eqb_eq.
  rewrite ns_pattern_chars, ns_chars_segments.
  split.
  - intros [_ [H | [H | (t & -> & H)]]]; [now left | right; now left |].
    right. right. exists t. split; [reflexivity|].
    now rewrite <- ns_chars_segments, <- ns_pattern_chars.
  - intros [-> | [H | (t & -> & H)]].
    + split; [reflexivity | now left].
    + split; [|right; now left].
      destruct s; [discriminate | reflexivity].
    + split; [now rewrite append_newline_nonempty|].
      right. right. exists t. split; [reflexivity|].
      now rewrite ns_pattern_chars, ns_chars_segments.
Qed.

(** *** Splitting a qualified name *)

Lemma all_word_no_dot (w : string) : all_word w = true -> has_dot w = false.
Proof.
  induction w as [|c w IH]; [reflexivity|]. cbn [all_word has_dot].
  intros H. apply andb_true_iff in H as [Hc Hw].
  apply word_not_dot in Hc. rewrite Ascii.eqb_sym, Hc. now apply IH.
Qed.

Lemma identifier_no_dot (s : string) : is_identifier s = true -> has_dot s = false.
Proof.
  destruct s as [|c w]; [discriminate|]. cbn [is_identifier has_dot].
  intros H. apply andb_true_iff in H as [Hc Hw].
  rewrite (all_word_no_dot w Hw), orb_false_r.
  destruct (Ascii.eqb "." c) eqn:E; [|reflexivity].
  rewrite Ascii.eqb_sym in E. apply letter_not_dot in E. congruence.
Qed.

Lemma valid_property_no_dot (p : string) :
  ispropertynamevalid p = true -> has_dot p = false.
Proof.
  unfold ispropertynamevalid. intros H.
  apply andb_true_iff in H as [_ H].
  apply match_dollar_cases in H as [H | (t & -> & H)];
    apply property_pattern_identifier in H.
  - now apply identifier_no_dot.
  - rewrite has_dot_append, (identifier_no_dot t H). reflexivity.
Qed.

Lemma cut_unique (a b a' b' : string) :
  a ++ String "." b = a' ++ String "." b' ->
  has_dot b = false -> has_dot b' = false -> a = a' /\ b = b'.
Proof.
  intros E Hb Hb'.
  destruct (append_eq_split _ _ _ _ E) as [[z [-> Hz]] | [z [-> Hz]]];
    destruct z as [|c z]; app_simpl.
  - rewrite append_empty_r. now injection Hz as ->.
  - injection Hz as <- ->. rewrite has_dot_append in Hb. cbn in Hb.
    now rewrite orb_true_r in Hb.
  - rewrite append_empty_r. now injection Hz as ->.
  - injection Hz as <- ->. rewrite has_dot_append in Hb'. cbn in Hb'.
    now rewrite orb_true_r in Hb'.
Qed.

Lemma substring_skip (a b : string) :
  String.substring (String.length a) (String.length b) (a ++ b) = b.
Proof.
  induction a as [|x a IH]; app_simpl.
  - cbn [String.length]. induction b as [|c b IH]; [reflexivity|].
    cbn. now f_equal.
  - cbn [String.length String.substring]. exact IH.
Qed.

Lemma slice_from_append (a b : string) :
  slice_from (a ++ b) (Z.of_nat (String.length a)) = b.
Proof.
  unfold slice_from. rewrite Nat2Z.id, length_append_s.
  replace (String.length a + String.length b - String.length a)%nat
    with (String.length b) by lia.
  apply substring_skip.
Qed.

Lemma rfind_last_sep (a b : string) :
  has_dot b = false ->
  rfind (a ++ String "." b) NS_SEP = Z.of_nat (String.length a).
Proof.
  intros Hb. unfold rfind.
  destruct (rfind_from_sep (a ++ String "." b) 0 ltac:(lia))
    as [[Hnd _] | (a' & b' & E & Hb' & Hr)].
  - rewrite has_dot_append in Hnd. cbn in Hnd. now rewrite orb_true_r in Hnd.
  - apply cut_unique in E as [-> ->]; auto.
Qed.

(** X3. Joining a namespace name and a valid property name with a dot and
    splitting the result at the last dot, as [getConfigRecord] does, gives
    the two parts back: a valid property name never contains a dot. *)
Theorem qualified_name_split (ns prop : string) :
  ispropertynamevalid prop = true ->
  rfind (ns ++ String "." prop) NS_SEP = Z.of_nat (String.length ns)
  /\ slice_to (ns ++ String "." prop) (rfind (ns ++ String "." prop) NS_SEP) = ns
  /\ slice_from (ns ++ String "." prop) (rfind (ns ++ String "." prop) NS_SEP + 1)
     = prop.
Proof.
  intros Hp. apply valid_property_no_dot in Hp.
  rewrite (rfind_last_sep ns prop Hp). split; [reflexivity|]. split.
  - unfold slice_to. rewrite Nat2Z.id. apply substring_0_append.
  - replace (ns ++ String "." prop) with ((ns ++ String "." "") ++ prop)
      by now rewrite append_assoc_s.
    replace (Z.of_nat (String.length ns) + 1)
      with (Z.of_nat (String.length (ns ++ String "." "")))
      by (rewrite length_append_s; cbn [String.length]; lia).
    apply slice_from_append.
Qed.

Lemma qualified_name_split_witness :
  rfind "dlapp.test.foo" NS_SEP = 10
  /\ slice_to "dlapp.test.foo" (rfind "dlapp.test.foo" NS_SEP) = "dlapp.test"
  /\ slice_from "dlapp.test.foo" (rfind "dlapp.test.foo" NS_SEP + 1) = "foo".
Proof. exact (qualified_name_split "dlapp.test" "foo" eq_refl). Defined.

(** ** Property records *)

(** The [name] setter of [ConfigPropertyRecord] (inherited by the extended
    record): a name equal to the current one is kept without any check. *)
Definition set_name (name : string) : M ConfigPropertyRecordExt string :=
  fun self =>
    if negb (String.eqb name (_name self)) then
      if ispropertynamevalid name then
        (Ok name, {| _name := name; _value := _value self;
                     _hasvalue := _hasvalue self;
                     callback := callback self; validate := validate self |})
      else (Raise (ConfigPropertyBadName name), self)
    else (Ok (_name self), self).

(** X4. A callback that raises does not undo the assignment: when the
    validator accepts the value (or is not callable) and the callback
    raises, the setter raises the callback's exception and the record
    already holds the new value. *)
Theorem set_value_callback_raise_commits call (r : ConfigPropertyRecordExt)
    (v : pyval) (n : nat) (e : exn) :
  is_raise (if truthy (validate r) && callable (validate r)
            then call_obj call (validate r) [VStr (_name r); v]
            else Ok VNone) = false ->
  callback r = VFun n ->
  call n [VStr (_name r); v] = Raise e ->
  set_value call v r
  = (Raise e, {| _name := _name r; _value := v; _hasvalue := true;
                 callback := callback r; validate := validate r |})
  /\ get_value (snd (set_value call v r)) = (Ok v, snd (set_value call v r)).
Proof.
  intros Hv Hc Hcall.
  assert (H : set_value call v r
              = (Raise e, {| _name := _name r; _value := v; _hasvalue := true;
                             callback := callback r; validate := validate r |})).
  { unfold set_value, bind, gets, lift, ret, store_value.
    destruct (truthy (validate r) && callable (validate r)).
    - destruct (call_obj call (validate r) _); [|discriminate].
      cbn. rewrite Hc. cbn. now rewrite Hcall.
    - cbn. rewrite Hc. cbn. now rewrite Hcall. }
  split; [exact H|]. rewrite H. reflexivity.
Qed.

Lemma set_value_callback_raise_commits_witness :
  let r := ConfigPropertyRecordExt_init "foo"
             [("value", VInt 7); ("validate", VFun 1); ("callback", VFun 0)] in
  fst (set_value sample_call (VInt 12) r) = Raise (UserException (VInt 12))
  /\ get_value (snd (set_value sample_call (VInt 12) r))
     = (Ok (VInt 12), snd (set_value sample_call (VInt 12) r)).
Proof.
  intros r.
  destruct (set_value_callback_raise_commits sample_call r (VInt 12) 0
              (UserException (VInt 12)) eq_refl eq_refl eq_refl) as [H1 H2].
  split; [now rewrite H1 | exact H2].
Defined.

Lemma set_value_no_hooks call (r : ConfigPropertyRecordExt) (v : pyval) :
  callable (validate r) = false -> callable (callback r) = false ->
  set_value call v r
  = (Ok v, {| _name := _name r; _value := v; _hasvalue := true;
              callback := callback r; validate := validate r |}).
Proof.
  intros Hv Hc. unfold set_value, bind, gets, lift, ret, store_value.
  rewrite Hv, andb_false_r. cbn. rewrite Hc, andb_false_r. reflexivity.
Qed.

(** X5. Assignment and reading round-trip: whenever the setter returns, the
    getter then returns the assigned value, None included; and a record
    whose hooks are not callable accepts every value. *)
Theorem set_then_get call (r : ConfigPropertyRecordExt) (v : pyval) :
  (forall x r', set_value call v r = (Ok x, r') -> get_value r' = (Ok v, r'))
  /\ (callable (validate r) = false -> callable (callback r) = false ->
      exists r', set_value call v r = (Ok v, r')
                 /\ get_value r' = (Ok v, r')).
Proof.
  assert (Hget : forall x r', set_value call v r = (Ok x, r') ->
                   get_value r' = (Ok v, r')).
  { intros x r' H. apply set_value_ok_inv in H as (_ & Hv & Hh & _).
    unfold get_value. now rewrite Hh, Hv. }
  split; [exact Hget|].
  intros Hv Hc. eexists. split.
  - now apply set_value_no_hooks.
  - reflexivity.
Qed.

Lemma set_then_get_witness :
  exists r',
    set_value sample_call VNone (ConfigPropertyRecordExt_init "foo" []) = (Ok VNone, r')
    /\ get_value r' = (Ok VNone, r').
Proof.
  destruct (set_then_get sample_call (ConfigPropertyRecordExt_init "foo" []) VNone)
    as [_ H].
  exact (H eq_refl eq_refl).
Defined.

(** X6. The name setter: a rename raises only for a name that differs from
    the current one and is not a valid property name, and then leaves the
    record as it was; when it returns, only the name has changed and it is
    the requested one. So a record with a valid name keeps a valid name
    whatever renames are attempted, while assigning the current name never
    raises, even when that name is not valid. *)
Theorem set_name_behaviour (r : ConfigPropertyRecordExt) (name : string) :
  (forall e, fst (set_name name r) = Raise e ->
     e = ConfigPropertyBadName name /\ snd (set_name name r) = r
     /\ name <> _name r /\ ispropertynamevalid name = false)
  /\ (forall x, fst (set_name name r) = Ok x ->
        x = name /\ _name (snd (set_name name r)) = name
        /\ _value (snd (set_name name r)) = _value r
        /\ _hasvalue (snd (set_name name r)) = _hasvalue r
        /\ callback (snd (set_name name r)) = callback r
        /\ validate (snd (set_name name r)) = validate r)
  /\ (ispropertynamevalid (_name r) = true ->
      ispropertynamevalid (_name (snd (set_name name r))) = true)
  /\ is_raise (fst (set_name (_name r) r)) = false.
Proof.
  unfold set_name. rewrite String.eqb_refl. cbn [negb].
  destruct (String.eqb name (_name r)) eqn:E; cbn [negb].
  - apply String.eqb_eq in E. subst name.
    split; [intros e; discriminate|].
    split; [intros x [= <-]; now cbn|].
    split; [now cbn | reflexivity].
  - apply String.eqb_neq in E.
    destruct (ispropertynamevalid name) eqn:V.
    + split; [intros e; discriminate|].
      split; [intros x [= <-]; now cbn|].
      split; [now cbn | reflexivity].
    + split; [intros e [= <-]; now cbn|].
      split; [intros x; discriminate|].
      split; [now cbn | reflexivity].
Qed.

Lemma set_name_behaviour_witness :
  set_name "9bad" (ConfigPropertyRecordExt_init "foo" [("value", VInt 1)])
  = (Raise (ConfigPropertyBadName "9bad"),
     ConfigPropertyRecordExt_init "foo" [("value", VInt 1)])
  /\ fst (set_name "!bad" (ConfigPropertyRecordExt_init "!bad" [])) = Ok "!bad".
Proof.
  split; [|reflexivity].
  destruct (set_name_behaviour
              (ConfigPropertyRecordExt_init "foo" [("value", VInt 1)]) "9bad")
    as (H & _).
  destruct (H (ConfigPropertyBadName "9bad") eq_refl) as (_ & Hs & _).
  rewrite <- Hs at 2. reflexivity.
Defined.

(** ** Namespaces: adding and finding properties *)

Lemma has_attr_false (self : ConfigNamespace) (name : string) :
  has_attr self name = false <-> __dict__ self !! name = None.
Proof.
  unfold has_attr. rewrite bool_decide_eq_false.
  destruct (__dict__ self !! name); split; try congruence.
  - intros H. destruct H. eauto.
  - intros _ [? ?]; discriminate.
Qed.

(** X7. Adding a property, when the method is not shadowed and no keyword
    collides with a parameter, under a valid name that the namespace does
    not hold: the record that the factory builds from the keywords is stored
    and returned, [getattr] finds it, and every other attribute is as
    before. [has_property] then finds it too, unless that method is
    shadowed; a property added under the name has_property itself shadows
    the method, and every later [has_property] raises [TypeError]. Adding
    the same name again changes nothing and raises the duplicate-property
    exception, or [TypeError] when the name added was add_property or a
    keyword collides. *)
Theorem add_property_then_lookup (self : ConfigNamespace) (name : string)
    (kwargs : list (string * pyval)) :
  has_attr self "add_property" = false ->
  collides kwargs ["self"; "name"] = false ->
  ispropertynamevalid name = true ->
  has_attr self name = false ->
  let rec := ConfigPropertyRecordExt_init name kwargs in
  let self' := snd (add_property name kwargs self) in
  fst (add_property name kwargs self) = Ok (AttrRec rec)
  /\ getattr self' name = Ok (AttrRec rec)
  /\ (forall k, k <> name -> __dict__ self' !! k = __dict__ self !! k)
  /\ (has_attr self "has_property" = false -> name <> "has_property" ->
      has_property self' name = Ok true)
  /\ (name = "has_property" -> forall n, has_property self' n = Raise TypeError)
  /\ (forall kwargs2,
        add_property name kwargs2 self'
        = (Raise (if String.eqb name "add_property"
                     || collides kwargs2 ["self"; "name"]
                  then TypeError
                  else ConfigNamespaceDuplicateProperty name), self')).
Proof.
  intros Hm Hc Hv Ha rec self'. subst rec self'.
  set (rec := ConfigPropertyRecordExt_init name kwargs).
  set (S' := mkNamespace (<[name:=AttrRec rec]> (__dict__ self))).
  assert (Hl : getattr S' name = Ok (AttrRec rec)).
  { unfold getattr, S'. cbn. now rewrite lookup_insert_eq. }
  assert (Hh : has_attr S' name = true).
  { apply has_attr_true. unfold S'. cbn. rewrite lookup_insert_eq. eauto. }
  assert (Hother : forall k, k <> name -> has_attr S' k = has_attr self k).
  { intros k Hne. unfold has_attr, S'. cbn [__dict__].
    now rewrite lookup_insert_ne by congruence. }
  assert (Hadd : add_property name kwargs self = (Ok (AttrRec rec), S')).
  { unfold add_property, config_property_record_factory.
    rewrite Hm, Hc, Hv, Ha. cbn [negb]. fold rec. fold S'. now rewrite Hl. }
  rewrite Hadd. cbn [fst snd].
  split; [reflexivity|].
  split; [exact Hl|].
  split; [intros k Hne; unfold S'; cbn; now rewrite lookup_insert_ne|].
  split; [|split].
  - intros Hhp Hne. unfold has_property.
    rewrite (Hother "has_property") by congruence.
    now rewrite Hhp, Hv, Hh.
  - intros -> n. unfold has_property. now rewrite Hh.
  - intros kwargs2. unfold add_property.
    destruct (String.eqb name "add_property") eqn:E.
    + apply String.eqb_eq in E. subst name. now rewrite Hh.
    + apply String.eqb_neq in E.
      rewrite (Hother "add_property") by congruence. rewrite Hm.
      cbn [orb]. destruct (collides kwargs2 ["self"; "name"]); [reflexivity|].
      now rewrite Hv, Hh.
Qed.

Lemma add_property_then_lookup_witness :
  let self := empty_namespace "foo" in
  let self' := snd (add_property "baz" [("value", VInt 9)] self) in
  has_property self' "baz" = Ok true
  /\ getattr self' "baz"
     = Ok (AttrRec (ConfigPropertyRecordExt_init "baz" [("value", VInt 9)]))
  /\ add_property "baz" [] self'
     = (Raise (ConfigNamespaceDuplicateProperty "baz"), self').
Proof.
  intros self self'.
  destruct (add_property_then_lookup self "baz" [("value", VInt 9)]
              eq_refl eq_refl eq_refl eq_refl) as (_ & H2 & _ & H4 & _ & H6).
  split; [apply H4; [reflexivity | discriminate]|].
  split; [exact H2 | apply H6].
Defined.

(** The keywords that [add_properties] passes to the factory for one entry
    of the batch. *)
Definition kwargs_of (defn : pyval) : list (string * pyval) :=
  match defn with
  | VDict d => d
  | _ => [("value", defn)]
  end.

(** Adding the entries of a batch one at a time with [add_property]. *)
Definition add_each (items : list (string * pyval)) (self : ConfigNamespace)
    : ConfigNamespace :=
  fold_left (fun ns it => snd (add_property (fst it) (kwargs_of (snd it)) ns))
    items self.

Lemma build_props_factory n defn :
  match defn with
  | VDict d0 => config_property_record_factory n d0
  | _ => config_property_record_factory n [("value", defn)]
  end = config_property_record_factory n (kwargs_of defn).
Proof. now destruct defn. Qed.

Lemma factory_ok_no_collision n kwargs p :
  config_property_record_factory n kwargs = Ok p ->
  collides kwargs ["self"; "name"] = false.
Proof.
  unfold config_property_record_factory.
  now destruct (collides kwargs ["self"; "name"]).
Qed.

Lemma build_props_as_add_each (D0 : gmap string attr)
    (items : list (string * pyval)) (props props' : gmap string ConfigPropertyRecordExt) :
  build_props (mkNamespace D0) items props = Ok props' ->
  NoDup (map fst items) ->
  (forall n, In n (map fst items) -> props !! n = None) ->
  D0 !! "add_property" = None ->
  props !! "add_property" = None ->
  ~ In "add_property" (map fst items) ->
  add_each items (mkNamespace ((AttrRec <$> props) ∪ D0))
  = mkNamespace ((AttrRec <$> props') ∪ D0).
Proof.
  revert props.
  induction items as [|[n d] items IH]; intros props Hb Hnd Hfresh HD Hpm Hnot.
  - cbn in Hb. now injection Hb as <-.
  - cbn [build_props] in Hb.
    destruct (ispropertynamevalid n) eqn:Hv; [|discriminate].
    destruct (has_attr (mkNamespace D0) n) eqn:Ha; [discriminate|].
    cbn [negb] in Hb. rewrite build_props_factory in Hb.
    destruct (config_property_record_factory n (kwargs_of d)) as [p|] eqn:Hf;
      [|discriminate].
    cbn [map fst] in Hnd. apply NoDup_cons in Hnd as [Hn Hnd].
    cbn [map fst] in Hnot.
    assert (Hnm : n <> "add_property") by (intros ->; apply Hnot; now left).
    unfold add_each. cbn [fold_left fst snd].
    assert (Hstep : snd (add_property n (kwargs_of d)
                           (mkNamespace ((AttrRec <$> props) ∪ D0)))
                    = mkNamespace ((AttrRec <$> <[n:=p]> props) ∪ D0)).
    { unfold add_property.
      assert (Hmeth : has_attr (mkNamespace ((AttrRec <$> props) ∪ D0))
                        "add_property" = false).
      { apply has_attr_false. cbn. apply lookup_union_None. split; [|exact HD].
        now rewrite lookup_fmap, Hpm. }
      rewrite Hmeth, (factory_ok_no_collision _ _ _ Hf), Hv. cbn [negb].
      assert (Hnone : has_attr (mkNamespace ((AttrRec <$> props) ∪ D0)) n = false).
      { apply has_attr_false. cbn. apply lookup_union_None. split.
        - rewrite lookup_fmap, (Hfresh n); [reflexivity | now left].
        - now apply has_attr_false in Ha. }
      rewrite Hnone, Hf. cbn. f_equal.
      now rewrite fmap_insert, insert_union_l. }
    rewrite Hstep. apply IH; [exact Hb | exact Hnd | | exact HD | |].
    + intros m Hm.
      assert (Hne : n <> m).
      { intros ->. apply Hn. now apply list_elem_of_In. }
      rewrite (lookup_insert_ne props n m p Hne). apply Hfresh. now right.
    + now rewrite lookup_insert_ne.
    + intros Hin. apply Hnot. now right.
Qed.

(** X8. A batch add that returns has the effect of adding its entries one
    after the other with [add_property], for a batch whose names are
    pairwise different (as the keys of a dictionary are), provided that
    [add_property] is not shadowed in the namespace and that the batch adds
    no property named add_property. The proviso is needed: the batch
    add_property, foo is stored whole by [add_properties], while added one
    by one the first record shadows the method and the second
    [add_property] raises [TypeError], leaving foo out. *)
Theorem add_properties_as_add_each (kwargs items : list (string * pyval))
    (self : ConfigNamespace) :
  properties_of kwargs = Ok items ->
  NoDup (map fst items) ->
  has_attr self "add_property" = false ->
  ~ In "add_property" (map fst items) ->
  is_raise (fst (add_properties kwargs self)) = false ->
  snd (add_properties kwargs self) = add_each items self.
Proof.
  intros Hp Hnd Hm Hnot. unfold add_properties.
  destruct (has_attr self "add_properties"); [discriminate|].
  destruct (collides kwargs ["self"]); [discriminate|].
  rewrite Hp.
  destruct (build_props self items ∅) as [props|e] eqn:Hb; [|discriminate].
  intros _. destruct self as [D0].
  pose proof (build_props_as_add_each D0 items ∅ props Hb Hnd
                ltac:(intros; apply lookup_empty)
                ltac:(now apply has_attr_false in Hm)
                ltac:(apply lookup_empty) Hnot) as H.
  rewrite fmap_empty, (left_id_L ∅ (∪)) in H. rewrite H.
  destruct (bool_decide (props = ∅)) eqn:He; [|reflexivity].
  apply bool_decide_eq_true in He. subst props.
  cbn. now rewrite fmap_empty, (left_id_L ∅ (∪)).
Qed.

Lemma add_properties_as_add_each_witness :
  snd (add_properties [("properties", VDict [("foo", VDict [("value", VInt 5)]);
                                             ("bar", VInt 7)])]
         (empty_namespace "foo"))
  = snd (add_property "bar" [("value", VInt 7)]
           (snd (add_property "foo" [("value", VInt 5)] (empty_namespace "foo")))).
Proof.
  apply (add_properties_as_add_each _
           [("foo", VDict [("value", VInt 5)]); ("bar", VInt 7)]).
  - reflexivity.
  - cbn [map fst]. apply NoDup_cons. split; [|apply NoDup_singleton].
    rewrite list_elem_of_In. intros [H | []]. discriminate.
  - reflexivity.
  - cbn [map fst]. intros [H | [H | []]]; discriminate.
  - reflexivity.
Defined.

(** The batch add_property, foo: [add_properties] stores both records; added
    one by one, the first record shadows the method and the second
    [add_property] raises [TypeError], so foo is left out. *)
Example add_each_shadowed :
  let batch := [("add_property", VInt 1); ("foo", VInt 2)] in
  let fresh := empty_namespace "ns" in
  has_attr (snd (add_properties batch fresh)) "foo" = true
  /\ has_attr (add_each batch fresh) "foo" = false
  /\ add_property "foo" [("value", VInt 2)]
       (snd (add_property "add_property" [("value", VInt 1)] fresh))
     = (Raise TypeError,
        snd (add_property "add_property" [("value", VInt 1)] fresh)).
Proof. cbv zeta. split; [|split]; vm_compute; reflexivity. Qed.

(** ** The registry *)

(** What every registry built through the interface satisfies: the default
    namespace is registered, every key is a valid namespace name, and the
    namespace stored under a key carries that key as its [name]. *)
Definition manager_ok (m : ConfigurationManager) : Prop :=
  is_Some (namespaces m !! DEFAULT_NS)
  /\ forall k ns, namespaces m !! k = Some ns ->
       isnsnamevalid k = true
       /\ __dict__ ns !! "name" = Some (AttrVal (VStr k)).

Definition global_ok (g : global) : Prop :=
  forall m, g = Some m -> manager_ok m.

Lemma build_props_fresh self items props props' k :
  build_props self items props = Ok props' ->
  has_attr self k = true -> props !! k = None -> props' !! k = None.
Proof.
  revert props. induction items as [|[n d] items IH]; intros props Hb Hk Hp.
  - cbn in Hb. now injection Hb as <-.
  - cbn [build_props] in Hb.
    destruct (negb (ispropertynamevalid n)); [discriminate|].
    destruct (has_attr self n) eqn:Ha; [discriminate|].
    rewrite build_props_factory in Hb.
    destruct (config_property_record_factory n (kwargs_of d)) as [p|];
      [|discriminate].
    apply (IH _ Hb Hk). rewrite lookup_insert_ne; [exact Hp|].
    intros ->. congruence.
Qed.

Lemma add_properties_keeps_value kwargs self k a :
  __dict__ self !! k = Some a ->
  __dict__ (snd (add_properties kwargs self)) !! k = Some a.
Proof.
  intros Hk. unfold add_properties.
  destruct (has_attr self "add_properties"); [exact Hk|].
  destruct (collides kwargs ["self"]); [exact Hk|].
  destruct (properties_of kwargs) as [items|e]; [|exact Hk].
  destruct (build_props self items ∅) as [props|e] eqn:Hb; [|exact Hk].
  destruct (bool_decide (props = ∅)); [exact Hk|]. cbn.
  assert (Hnone : props !! k = None).
  { apply (build_props_fresh self items ∅ props k Hb).
    - apply has_attr_true. eauto.
    - apply lookup_empty. }
  rewrite lookup_union_r; [exact Hk|]. now rewrite lookup_fmap, Hnone.
Qed.

Lemma namespace_init_name nspc kwargs ns :
  ConfigNamespace_init nspc kwargs = Ok ns ->
  isnsnamevalid nspc = true
  /\ __dict__ ns !! "name" = Some (AttrVal (VStr nspc)).
Proof.
  unfold ConfigNamespace_init.
  destruct (collides kwargs ["self"; "nspc"]); [discriminate|].
  destruct (isnsnamevalid nspc); [|discriminate]. cbn [negb].
  set (self := mkNamespace _).
  assert (Hself : __dict__ self !! "name" = Some (AttrVal (VStr nspc)))
    by apply lookup_singleton_eq.
  destruct (truthy (VDict kwargs)).
  - pose proof (add_properties_keeps_value kwargs self "name" _ Hself) as H.
    destruct (add_properties kwargs self) as [[x|e] self']; [|discriminate].
    now intros [= <-].
  - now intros [= <-].
Qed.

Definition entries_ok (nspc : gmap string ConfigNamespace) : Prop :=
  forall k ns, nspc !! k = Some ns ->
    isnsnamevalid k = true /\ __dict__ ns !! "name" = Some (AttrVal (VStr k)).

Lemma entries_ok_insert nspc k ns :
  entries_ok nspc -> isnsnamevalid k = true ->
  __dict__ ns !! "name" = Some (AttrVal (VStr k)) ->
  entries_ok (<[k:=ns]> nspc).
Proof.
  intros H Hv Hn k' ns' Hl.
  apply lookup_insert_Some in Hl as [[<- <-] | [_ Hl]]; [now split | eauto].
Qed.

Lemma build_namespaces_ok items nspc nspc' :
  build_namespaces items nspc = Ok nspc' ->
  entries_ok nspc ->
  entries_ok nspc'
  /\ (forall k, is_Some (nspc !! k) -> is_Some (nspc' !! k))
  /\ (forall name defn, In (name, defn) items -> is_Some (nspc' !! name)).
Proof.
  revert nspc. induction items as [|[n d] items IH]; intros nspc Hb Hok.
  - cbn in Hb. injection Hb as <-. split; [exact Hok|]. split; [auto|].
    intros ? ? [].
  - cbn [build_namespaces] in Hb. destruct d; try discriminate.
    unfold configuration_namespace_factory in Hb.
    destruct (ConfigNamespace_init n d) as [ns|] eqn:Hi; [|discriminate].
    apply namespace_init_name in Hi as [Hv Hn].
    destruct (IH _ Hb (entries_ok_insert nspc n ns Hok Hv Hn)) as (H1 & H2 & H3).
    split; [exact H1|]. split.
    + intros k Hk. apply H2. destruct (decide (n = k)) as [->|Hne].
      * rewrite lookup_insert_eq. eauto.
      * now rewrite lookup_insert_ne.
    + intros name defn [[= <- <-] | Hin]; [|eauto].
      apply H2. rewrite lookup_insert_eq. eauto.
Qed.

Lemma manager_init_ok version kwargs m :
  ConfigurationManager_init version kwargs = Ok m ->
  manager_ok m
  /\ version = 1
  /\ (forall items name defn, namespaces_of kwargs = Ok items ->
        In (name, defn) items -> is_Some (namespaces m !! name)).
Proof.
  unfold ConfigurationManager_init.
  destruct (collides kwargs ["self"; "version"]); [discriminate|].
  destruct (version =? 1) eqn:Hver; [|discriminate]. cbn [negb].
  apply Z.eqb_eq in Hver.
  destruct (namespaces_of kwargs) as [items|]; [|discriminate].
  destruct (build_namespaces items ∅) as [nspc|] eqn:Hb; [|discriminate].
  apply build_namespaces_ok in Hb as (Hok & _ & Hin);
    [|intros k ns Hk; rewrite lookup_empty in Hk; discriminate].
  destruct (bool_decide (is_Some (nspc !! DEFAULT_NS))) eqn:Hd.
  - intros [= <-]. unfold manager_ok. cbn [namespaces].
    rewrite (right_id_L ∅ (∪)).
    apply bool_decide_eq_true in Hd.
    split; [now split|]. split; [exact Hver|].
    intros items' name defn [= <-]. apply Hin.
  - unfold configuration_namespace_factory.
    change (ConfigNamespace_init DEFAULT_NS []) with (Ok (empty_namespace DEFAULT_NS)).
    intros [= <-]. unfold manager_ok. cbn [namespaces].
    rewrite (right_id_L ∅ (∪)).
    split; [split|].
    + rewrite lookup_insert_eq. eauto.
    + now apply entries_ok_insert.
    + split; [exact Hver|].
      intros items' name defn [= <-] Hi. specialize (Hin name defn Hi).
      destruct (decide (DEFAULT_NS = name)) as [<-|Hne].
      * rewrite lookup_insert_eq. eauto.
      * now rewrite lookup_insert_ne.
Qed.

Lemma add_namespace_ok n kwargs m :
  manager_ok m -> manager_ok (snd (add_namespace n kwargs m)).
Proof.
  intros [Hd Hok]. unfold add_namespace.
  destruct (collides kwargs ["self"; "nspc"]); [now split|].
  destruct (negb (isnsnamevalid n)); [now split|].
  destruct (has_ns m n) eqn:Hh; [now split|].
  unfold configuration_namespace_factory.
  destruct (ConfigNamespace_init n kwargs) as [ns|] eqn:Hi; [|now split].
  apply namespace_init_name in Hi as [Hv Hn].
  unfold manager_ok. cbn [snd namespaces]. split.
  - destruct (decide (n = DEFAULT_NS)) as [->|Hne].
    + rewrite lookup_insert_eq. eauto.
    + now rewrite lookup_insert_ne.
  - now apply entries_ok_insert.
Qed.

Lemma initial_manager_ok : manager_ok initial_manager.
Proof.
  destruct (manager_init_ok 1 [] initial_manager eq_refl) as [H _]. exact H.
Qed.

Lemma on_namespace_add_properties_ok key kwargs m :
  manager_ok m ->
  manager_ok (snd (on_namespace key (add_properties kwargs) m)).
Proof.
  intros [Hd Hok]. unfold on_namespace.
  destruct (namespaces m !! key) as [ns|] eqn:Hk; [|now split].
  destruct (Hok key ns Hk) as [Hv Hn].
  pose proof (add_properties_keeps_value kwargs ns "name" _ Hn) as Hn'.
  destruct (add_properties kwargs ns) as [r ns'].
  unfold manager_ok. cbn [snd namespaces] in *. split.
  - destruct (decide (key = DEFAULT_NS)) as [->|Hne].
    + rewrite lookup_insert_eq. eauto.
    + now rewrite lookup_insert_ne.
  - now apply entries_ok_insert.
Qed.

Lemma getConfig_some_ok caller nspc ornearest kwargs m :
  manager_ok m ->
  exists m', snd (getConfig caller nspc ornearest kwargs (Some m)) = Some m'
             /\ manager_ok m'.
Proof.
  intros Hok.
  assert (Hsame : forall r : result ConfigNamespace,
             exists m', snd (r, Some m) = Some m' /\ manager_ok m')
    by (intros; eauto).
  unfold getConfig.
  destruct (collides kwargs ["nspc"; "ornearest"]); [apply Hsame|].
  unfold bind, getConfigManager, lift. destruct nspc as [n|];
    [|destruct (get_namespace m caller ornearest); apply Hsame].
  destruct (String.eqb n "") eqn:Hne; cbn [negb];
    [destruct (get_namespace m caller ornearest); apply Hsame|].
  destruct (has_namespace m n) as [[|]|e]; [| |apply Hsame].
  - destruct (get_namespace m n true) as [rtn|e]; [|apply Hsame].
    destruct (truthy (VDict kwargs)); [|apply Hsame].
    unfold on_manager.
    pose proof (on_namespace_add_properties_ok n kwargs m Hok) as Hok'.
    destruct (on_namespace n (add_properties kwargs) m) as [[x|e] m1];
      cbn in Hok'; [|cbn; eauto].
    destruct (namespace_at m1 n); cbn; eauto.
  - unfold on_manager.
    pose proof (add_namespace_ok n kwargs m Hok) as Hok'.
    destruct (add_namespace n kwargs m) as [[x|e] m1]; cbn in *; eauto.
Qed.

Lemma getConfig_ok caller nspc ornearest kwargs g :
  global_ok g -> global_ok (snd (getConfig caller nspc ornearest kwargs g)).
Proof.
  intros Hg. destruct g as [m|].
  - destruct (getConfig_some_ok caller nspc ornearest kwargs m (Hg m eq_refl))
      as (m' & -> & Hok).
    now intros m0 [= <-].
  - destruct (collides kwargs ["nspc"; "ornearest"]) eqn:Hc.
    + unfold getConfig. rewrite Hc. intros m0. discriminate.
    + rewrite getConfig_unborn by exact Hc.
      destruct (getConfig_some_ok caller nspc ornearest kwargs initial_manager
                  initial_manager_ok) as (m' & -> & Hok).
      now intros m0 [= <-].
Qed.

Lemma search_parents_ok caller chain propname g :
  global_ok g -> global_ok (snd (search_parents caller chain propname g)).
Proof.
  revert g. induction chain as [|nss rest IH]; intros g Hg; [exact Hg|].
  cbn [search_parents]. unfold bind at 1.
  pose proof (getConfig_ok caller (Some nss) false [] g Hg) as H1.
  destruct (getConfig caller (Some nss) false [] g) as [[nsp|e] g1];
    cbn in H1; [|exact H1].
  unfold bind at 1. unfold lift at 1.
  destruct (has_property nsp propname) as [[|]|e]; [| |exact H1].
  - unfold bind, lift, ret. destruct (getattr nsp propname); exact H1.
  - now apply IH.
Qed.

Lemma getConfigRecord_ok caller fqname ornearest g :
  global_ok g -> global_ok (snd (getConfigRecord caller fqname ornearest g)).
Proof.
  intros Hg. unfold getConfigRecord.
  destruct (String.eqb fqname ""); [exact Hg|].
  destruct (if 0 <=? rfind fqname NS_SEP
            then (slice_to fqname (rfind fqname NS_SEP),
                  slice_from fqname (rfind fqname NS_SEP + 1))
            else (caller, fqname)) as [nspc propname].
  destruct (negb (isnsnamevalid nspc)); [exact Hg|].
  destruct (negb (ispropertynamevalid propname)); [exact Hg|].
  unfold bind at 1.
  pose proof (getConfig_ok caller (Some nspc) ornearest [] g Hg) as H1.
  destruct (getConfig caller (Some nspc) ornearest [] g) as [[ns|e] g1];
    cbn in H1; [|exact H1].
  unfold bind at 1. unfold lift at 1.
  destruct (has_property ns propname) as [[|]|e]; [| |exact H1].
  - unfold lift. exact H1.
  - unfold bind at 1. destruct ornearest.
    + unfold bind at 1.
      assert (Hm : global_ok (snd (getConfigManager [] g1))).
      { destruct g1 as [m1|]; [exact H1|].
        rewrite getConfigManager_first. intros m [= <-].
        apply initial_manager_ok. }
      destruct (getConfigManager [] g1) as [[mgr|e] g2]; cbn in Hm; [|exact Hm].
      pose proof (search_parents_ok caller (parent_namespaces mgr nspc)
                    propname g2 Hm) as H2.
      destruct (search_parents caller (parent_namespaces mgr nspc) propname g2)
        as [[[a|]|e] g3]; exact H2.
    + exact H1.
Qed.

(** X9. Every registry that the constructor returns holds the default
    namespace, has only valid namespace names as keys, and stores under each
    key a namespace whose [name] is that key; [add_namespace], [getConfig]
    (also when it merges properties into a namespace) and [getConfigRecord]
    keep it so, whether they return or raise. *)
Theorem registry_invariant :
  (forall version kwargs m,
     ConfigurationManager_init version kwargs = Ok m -> manager_ok m)
  /\ (forall n kwargs m,
        manager_ok m -> manager_ok (snd (add_namespace n kwargs m)))
  /\ (forall caller nspc ornearest kwargs g,
        global_ok g ->
        global_ok (snd (getConfig caller nspc ornearest kwargs g)))
  /\ (forall caller fqname ornearest g,
        global_ok g ->
        global_ok (snd (getConfigRecord caller fqname ornearest g))).
Proof.
  split; [intros v kw m H; now apply manager_init_ok in H|].
  split; [apply add_namespace_ok|].
  split; [apply getConfig_ok | apply getConfigRecord_ok].
Qed.

Lemma registry_invariant_witness :
  manager_ok initial_manager
  /\ global_ok (snd (getConfig "main" (Some "pkg") true
                       [("foo", VInt 5)] None)).
Proof.
  destruct registry_invariant as (H1 & _ & H3 & _).
  split.
  - apply (H1 1 []). reflexivity.
  - apply H3. intros m. discriminate.
Defined.

(** X10. The constructor accepts version 1 only: any other version raises
    the bad-version exception (a keyword called self or version collides
    with a parameter first and raises [TypeError]). When the constructor
    returns, every namespace it was given is registered, and so is the
    default one. *)
Theorem manager_init_registers (version : Z) (kwargs : list (string * pyval)) :
  (version <> 1 ->
   ConfigurationManager_init version kwargs
   = Raise (if collides kwargs ["self"; "version"] then TypeError
            else ConfigManagerBadVersion version))
  /\ (forall m items name defn,
        ConfigurationManager_init version kwargs = Ok m ->
        namespaces_of kwargs = Ok items -> In (name, defn) items ->
        has_ns m name = true /\ has_ns m DEFAULT_NS = true).
Proof.
  split.
  - intros Hv. unfold ConfigurationManager_init.
    destruct (collides kwargs ["self"; "version"]); [reflexivity|].
    apply Z.eqb_neq in Hv. now rewrite Hv.
  - intros m items name defn Hi Hn Hin.
    apply manager_init_ok in Hi as ([Hd _] & _ & H).
    split; apply bool_decide_eq_true; eauto.
Qed.

Lemma manager_init_registers_witness :
  ConfigurationManager_init 2 [] = Raise (ConfigManagerBadVersion 2)
  /\ exists m,
       ConfigurationManager_init 1
         [("namespaces", VDict [("first", VDict []); ("second", VDict [])])] = Ok m
       /\ has_ns m "second" = true /\ has_ns m DEFAULT_NS = true.
Proof.
  split.
  - destruct (manager_init_registers 2 []) as [H _]. apply H. lia.
  - destruct (ConfigurationManager_init 1
                [("namespaces", VDict [("first", VDict []); ("second", VDict [])])])
      as [m|] eqn:Hm; [|vm_compute in Hm; discriminate].
    exists m. split; [reflexivity|].
    destruct (manager_init_registers 1
                [("namespaces", VDict [("first", VDict []); ("second", VDict [])])])
      as [_ H].
    apply (H m [("first", VDict []); ("second", VDict [])] "second" (VDict []) Hm
             eq_refl).
    right. now left.
Defined.

(** *** Nearest-namespace lookup *)

Lemma dotprefix_refl (n : string) : dotprefix n n.
Proof. now left. Qed.

(** X11. For a valid name and a registry that holds the default namespace,
    [get_namespace] with ornearest never raises. It returns the namespace
    registered under the longest registered name among the requested name
    and what stripping its trailing dot-segments gives, and the default
    namespace when none of these is registered. Without ornearest, a name
    that is not registered raises the missing-namespace exception. *)
Theorem get_namespace_nearest (m : ConfigurationManager) (n : string) :
  isnsnamevalid n = true ->
  is_Some (namespaces m !! DEFAULT_NS) ->
  (exists p ns,
     get_namespace m n true = Ok ns
     /\ namespaces m !! p = Some ns
     /\ ((has_ns m p = true /\ dotprefix p n
          /\ forall q, has_ns m q = true -> dotprefix q n ->
               (String.length q <= String.length p)%nat)
         \/ (p = DEFAULT_NS
             /\ forall q, dotprefix q n -> has_ns m q = false)))
  /\ (has_ns m n = false ->
      get_namespace m n false = Raise (ConfigManagerMissingNamespace n)).
Proof.
  intros Hv [d Hd]. split.
  2:{ intros Hn. unfold get_namespace. now rewrite Hv, Hn. }
  unfold get_namespace. rewrite Hv. cbn [negb].
  destruct (has_ns m n) eqn:Hn.
  - pose proof Hn as Hn'. apply bool_decide_eq_true in Hn' as [ns Hns].
    exists n, ns. unfold namespace_at. rewrite Hns.
    split; [reflexivity|]. split; [reflexivity|]. left.
    split; [exact Hn|]. split; [apply dotprefix_refl|].
    intros q _ Hq. now apply dotprefix_length.
  - unfold parent_namespaces.
    pose proof (in_parents m n) as Hin.
    pose proof (parents_nearest_first m n) as Hs.
    destruct (_parents m n) as [|p rest].
    + exists DEFAULT_NS, d. cbn. unfold namespace_at. rewrite Hd.
      split; [reflexivity|]. split; [reflexivity|]. right.
      split; [reflexivity|]. intros q Hq.
      destruct (has_ns m q) eqn:Hhq; [|reflexivity].
      destruct (proj2 (Hin q) (conj Hhq Hq)).
    + destruct (proj1 (Hin p) (or_introl eq_refl)) as [Hp Hpn].
      pose proof Hp as Hp'. apply bool_decide_eq_true in Hp' as [ns Hns].
      exists p, ns. cbn. unfold namespace_at. rewrite Hns.
      split; [reflexivity|]. split; [reflexivity|]. left.
      split; [exact Hp|]. split; [exact Hpn|].
      intros q Hhq Hq. destruct (proj2 (Hin q) (conj Hhq Hq)) as [<- | Hr]; [lia|].
      apply StronglySorted_inv in Hs as [_ Hall].
      rewrite List.Forall_forall in Hall. specialize (Hall q Hr).
      unfold nearer in Hall. lia.
Qed.

Lemma get_namespace_nearest_witness :
  exists m ns,
    registry_with ["dlapp"; "dlapp.alttree"] = Ok m
    /\ get_namespace m "dlapp.test.test_configmanager" true = Ok ns
    /\ namespaces m !! "dlapp" = Some ns
    /\ get_namespace m "dlapp.test.test_configmanager" false
       = Raise (ConfigManagerMissingNamespace "dlapp.test.test_configmanager").
Proof.
  destruct (registry_with ["dlapp"; "dlapp.alttree"]) as [m|] eqn:Hm;
    [|vm_compute in Hm; discriminate].
  vm_compute in Hm. injection Hm as <-.
  match goal with |- exists m ns, Ok ?M = Ok m /\ _ => set (m0 := M) end.
  destruct (get_namespace_nearest m0 "dlapp.test.test_configmanager"
              eq_refl ltac:(eexists; reflexivity))
    as ((p & ns & Hg & Hp & Hcase) & Hmiss).
  exists m0, ns. split; [reflexivity|]. split; [exact Hg|].
  split; [|apply Hmiss; reflexivity].
  clear Hp Hcase Hmiss.
  assert (E : get_namespace m0 "dlapp.test.test_configmanager" true
              = namespace_at m0 "dlapp").
  { unfold get_namespace, parent_namespaces.
    rewrite (parents_at_sep m0 "dlapp.test.test_configmanager" 10 "dlapp.test"
               eq_refl ltac:(lia) eq_refl).
    rewrite (parents_at_sep m0 "dlapp.test" 5 "dlapp" eq_refl ltac:(lia) eq_refl).
    rewrite (parents_no_sep m0 "dlapp" eq_refl).
    reflexivity. }
  rewrite E in Hg. unfold namespace_at in Hg.
  assert (Hd : namespaces m0 !! "dlapp" = Some (empty_namespace "dlapp"))
    by (vm_compute; reflexivity).
  rewrite Hd in Hg. injection Hg as <-. exact Hd.
Defined.

Lemma manager_eta (m : ConfigurationManager) :
  mkManager (version m) (namespaces m) = m.
Proof. now destruct m. Qed.

Lemma add_namespace_raise_unchanged n kwargs m e :
  fst (add_namespace n kwargs m) = Raise e -> snd (add_namespace n kwargs m) = m.
Proof.
  unfold add_namespace.
  destruct (collides kwargs ["self"; "nspc"]); [reflexivity|].
  destruct (negb (isnsnamevalid n)); [reflexivity|].
  destruct (has_ns m n); [reflexivity|].
  destruct (configuration_namespace_factory n kwargs); [discriminate | reflexivity].
Qed.

(** X12. [add_namespace] either raises and leaves the registry as it was, or
    returns a namespace that [get_namespace] then returns for that name
    (with or without ornearest), every other name being registered as
    before; adding the same name again changes nothing and raises the
    duplicate-namespace exception (a keyword called self or nspc collides
    with a parameter first and raises [TypeError]). *)
Theorem add_namespace_then_get (n : string) (kwargs : list (string * pyval))
    (m : ConfigurationManager) :
  (forall e, fst (add_namespace n kwargs m) = Raise e ->
     snd (add_namespace n kwargs m) = m)
  /\ (forall ns, fst (add_namespace n kwargs m) = Ok ns ->
        let m' := snd (add_namespace n kwargs m) in
        (forall ornearest, get_namespace m' n ornearest = Ok ns)
        /\ (forall k, k <> n -> namespaces m' !! k = namespaces m !! k)
        /\ (forall kwargs2,
              add_namespace n kwargs2 m'
              = (Raise (if collides kwargs2 ["self"; "nspc"] then TypeError
                        else ConfigManagerDuplicateNamespace
                               ("Namespace " ++ n ++ " already exists.")), m'))).
Proof.
  destruct (add_namespace n kwargs m) as [r m1] eqn:Hadd.
  unfold add_namespace in Hadd. cbn [fst snd].
  destruct (collides kwargs ["self"; "nspc"]);
    [injection Hadd as <- <-; split; [reflexivity | discriminate]|].
  destruct (isnsnamevalid n) eqn:Hv; cbn [negb] in Hadd;
    [|injection Hadd as <- <-; split; [reflexivity | discriminate]].
  destruct (has_ns m n) eqn:Hh;
    [injection Hadd as <- <-; split; [reflexivity | discriminate]|].
  destruct (configuration_namespace_factory n kwargs) as [ns|e];
    injection Hadd as <- <-; [|split; [reflexivity | discriminate]].
  split; [discriminate|].
  intros ns' [= <-].
  assert (Hl : namespaces (mkManager (version m) (<[n:=ns]> (namespaces m))) !! n
               = Some ns) by apply lookup_insert_eq.
  split; [|split].
  - intros o. unfold get_namespace. rewrite Hv, (has_ns_true _ _ _ Hl).
    cbn [negb]. unfold namespace_at. now rewrite Hl.
  - intros k Hk. cbn [namespaces]. now rewrite lookup_insert_ne.
  - intros kwargs2. unfold add_namespace.
    destruct (collides kwargs2 ["self"; "nspc"]); [reflexivity|].
    now rewrite Hv, (has_ns_true _ _ _ Hl).
Qed.

Lemma add_namespace_then_get_witness :
  let m' := snd (add_namespace "dlapp" [] initial_manager) in
  get_namespace m' "dlapp" false = Ok (empty_namespace "dlapp")
  /\ add_namespace "dlapp" [] m'
     = (Raise (ConfigManagerDuplicateNamespace "Namespace dlapp already exists."),
        m')
  /\ snd (add_namespace "!badname" [] initial_manager) = initial_manager.
Proof.
  intros m'.
  destruct (add_namespace_then_get "dlapp" [] initial_manager) as [_ H].
  destruct (H (empty_namespace "dlapp") eq_refl) as (H1 & _ & H3).
  split; [apply H1|]. split; [apply H3|].
  destruct (add_namespace_then_get "!badname" [] initial_manager) as [H' _].
  apply (H' (ConfigNamespaceBadName "!badname")). reflexivity.
Defined.

(** X13. A call of [getConfig] that raises leaves an existing registry
    exactly as it was: a rejected name, a failed merge of properties into
    an existing namespace and a failed creation change nothing. *)
Theorem getConfig_raise_unchanged caller (nspc : option string)
    (ornearest : bool) (kwargs : list (string * pyval)) (m : ConfigurationManager) :
  is_raise (fst (getConfig caller nspc ornearest kwargs (Some m))) = true ->
  snd (getConfig caller nspc ornearest kwargs (Some m)) = Some m.
Proof.
  unfold getConfig.
  destruct (collides kwargs ["nspc"; "ornearest"]); [reflexivity|].
  unfold bind, getConfigManager, lift. destruct nspc as [n|];
    [|now destruct (get_namespace m caller ornearest)].
  destruct (String.eqb n "") eqn:Hne; cbn [negb];
    [now destruct (get_namespace m caller ornearest)|].
  destruct (has_namespace m n) as [[|]|e] eqn:Hh; [| |reflexivity].
  - destruct (get_namespace m n true) as [rtn|e]; [|reflexivity].
    destruct (truthy (VDict kwargs)); [|discriminate].
    unfold on_manager, on_namespace.
    destruct (namespaces m !! n) as [ns|] eqn:Hn; [|reflexivity].
    pose proof (add_properties_raise_unchanged kwargs ns) as Hr.
    destruct (add_properties kwargs ns) as [[x|e] ns']; cbn in Hr.
    + unfold namespace_at. cbn [namespaces]. rewrite lookup_insert_eq.
      discriminate.
    + intros _. rewrite (Hr eq_refl). cbn [snd].
      rewrite (insert_id _ _ _ Hn). now rewrite manager_eta.
  - unfold on_manager.
    pose proof (add_namespace_raise_unchanged n kwargs m) as Hr.
    destruct (add_namespace n kwargs m) as [[x|e] m']; [discriminate|].
    intros _. cbn in *. now rewrite (Hr e eq_refl).
Qed.

Lemma getConfig_raise_unchanged_witness :
  exists m,
    pkg_registry = Some m
    /\ getConfig "main" (Some "pkg") true [("foo", VInt 6); ("bar", VInt 1)]
         (Some m)
       = (Raise (ConfigNamespaceDuplicateProperty "foo"), Some m).
Proof.
  destruct pkg_registry as [m|] eqn:Hg; [|vm_compute in Hg; discriminate].
  exists m. split; [reflexivity|].
  assert (Hf : fst (getConfig "main" (Some "pkg") true
                      [("foo", VInt 6); ("bar", VInt 1)] (Some m))
               = Raise (ConfigNamespaceDuplicateProperty "foo")).
  { vm_compute in Hg. injection Hg as <-. vm_compute. reflexivity. }
  pose proof (getConfig_raise_unchanged "main" (Some "pkg") true
                [("foo", VInt 6); ("bar", VInt 1)] m) as H.
  rewrite Hf in H. specialize (H eq_refl).
  destruct (getConfig "main" (Some "pkg") true
              [("foo", VInt 6); ("bar", VInt 1)] (Some m)) as [r g'].
  cbn in *. now subst.
Defined.

(** X14. [getConfig] with a name and no properties is idempotent: after a
    call that returned a namespace, the same call returns the same namespace
    again and no longer changes the registry, whatever ornearest is. *)
Theorem getConfig_idempotent caller (n : string) (o1 o2 : bool)
    (g g' : global) (ns : ConfigNamespace) :
  n <> "" ->
  getConfig caller (Some n) o1 [] g = (Ok ns, g') ->
  getConfig caller (Some n) o2 [] g' = (Ok ns, g').
Proof.
  intros Hne.
  assert (Hsome : forall m, getConfig caller (Some n) o1 [] (Some m) = (Ok ns, g') ->
                    getConfig caller (Some n) o2 [] g' = (Ok ns, g')).
  { intros m H.
    assert (Hv : isnsnamevalid n = true).
    { unfold getConfig in H. rewrite collides_nil in H. cbv iota in H.
      unfold bind, getConfigManager, lift, has_namespace in H.
      apply String.eqb_neq in Hne. rewrite Hne in H. cbn [negb] in H.
      destruct (isnsnamevalid n); [reflexivity | discriminate]. }
    destruct (namespaces m !! n) as [x|] eqn:Hn.
    - rewrite (getConfig_named_present caller m n o1 x Hv Hn) in H.
      injection H as <- <-. now apply getConfig_named_present.
    - rewrite (getConfig_named_absent caller m n o1 Hv Hn) in H.
      injection H as <- <-. apply getConfig_named_present; [exact Hv|].
      apply lookup_insert_eq. }
  destruct g as [m|]; [apply Hsome|].
  rewrite getConfig_unborn by apply collides_nil. apply Hsome.
Qed.

Lemma getConfig_idempotent_witness :
  exists g',
    getConfig "main" (Some "dlapp") true [] None = (Ok (empty_namespace "dlapp"), g')
    /\ getConfig "main" (Some "dlapp") false [] g' = (Ok (empty_namespace "dlapp"), g').
Proof.
  destruct (getConfig "main" (Some "dlapp") true [] None) as [r g'] eqn:Hg.
  assert (Hr : r = Ok (empty_namespace "dlapp")).
  { change r with (fst (r, g')). rewrite <- Hg. reflexivity. }
  subst r. exists g'. split; [reflexivity|].
  apply (getConfig_idempotent "main" "dlapp" true false None g' _
           ltac:(discriminate) Hg).
Defined.

(** *** Lookup by qualified name *)

(** The namespace part and the property part that [getConfigRecord] works
    with: the name is cut at its last dot, and a name without a dot is looked
    up in the calling module's namespace. *)
Definition fq_parts (caller fqname : string) : string * string :=
  if 0 <=? rfind fqname NS_SEP
  then (slice_to fqname (rfind fqname NS_SEP),
        slice_from fqname (rfind fqname NS_SEP + 1))
  else (caller, fqname).

(** The attribute [propname] of the namespace registered under [p]. *)
Definition attr_of (m : ConfigurationManager) (p propname : string) : option attr :=
  match namespaces m !! p with
  | Some ns => __dict__ ns !! propname
  | None => None
  end.

(** The attribute [propname] of the first namespace of [chain] that has it. *)
Fixpoint first_attr (m : ConfigurationManager) (chain : list string)
    (propname : string) : option attr :=
  match chain with
  | [] => None
  | p :: rest =>
      match attr_of m p propname with
      | Some a => Some a
      | None => first_attr m rest propname
      end
  end.

(** The registry with an empty namespace registered under [nspc] if there
    was none. *)
Definition ensure_namespace (m : ConfigurationManager) (nspc : string)
    : ConfigurationManager :=
  if has_ns m nspc then m
  else mkManager (version m) (<[nspc := empty_namespace nspc]> (namespaces m)).

(** No registered namespace holds a property named has_property, which
    would shadow the method that [getConfigRecord] calls. *)
Definition unshadowed (m : ConfigurationManager) : Prop :=
  map_Forall (fun _ ns => has_attr ns "has_property" = false) (namespaces m).

Lemma ensure_namespace_unshadowed m nspc :
  unshadowed m -> unshadowed (ensure_namespace m nspc).
Proof.
  intros H. unfold ensure_namespace. destruct (has_ns m nspc); [exact H|].
  unfold unshadowed. cbn [namespaces]. apply map_Forall_insert_2; [|exact H].
  now apply empty_namespace_attr.
Qed.

Lemma ensure_namespace_ok m nspc :
  manager_ok m -> isnsnamevalid nspc = true -> manager_ok (ensure_namespace m nspc).
Proof.
  intros [Hd Hok] Hv. unfold ensure_namespace.
  destruct (has_ns m nspc); [now split|].
  unfold manager_ok. cbn [namespaces]. split.
  - destruct (decide (nspc = DEFAULT_NS)) as [->|Hne].
    + rewrite lookup_insert_eq. eauto.
    + now rewrite lookup_insert_ne.
  - apply entries_ok_insert; auto.
Qed.

Lemma ensure_namespace_has m nspc : has_ns (ensure_namespace m nspc) nspc = true.
Proof.
  unfold ensure_namespace. destruct (has_ns m nspc) eqn:H; [exact H|].
  apply bool_decide_eq_true. cbn [namespaces]. rewrite lookup_insert_eq. eauto.
Qed.

Lemma getConfig_ensures caller m nspc ornearest :
  isnsnamevalid nspc = true ->
  exists ns,
    getConfig caller (Some nspc) ornearest [] (Some m)
    = (Ok ns, Some (ensure_namespace m nspc))
    /\ namespaces (ensure_namespace m nspc) !! nspc = Some ns.
Proof.
  intros Hv. unfold ensure_namespace.
  destruct (namespaces m !! nspc) as [x|] eqn:Hn.
  - rewrite (has_ns_true m nspc x Hn). exists x.
    split; [now apply getConfig_named_present | exact Hn].
  - rewrite (has_ns_false m nspc Hn). exists (empty_namespace nspc).
    split; [now apply getConfig_named_absent|]. apply lookup_insert_eq.
Qed.

Lemma search_parents_pure caller m chain propname :
  manager_ok m ->
  unshadowed m ->
  (forall p, In p chain -> has_ns m p = true) ->
  ispropertynamevalid propname = true ->
  search_parents caller chain propname (Some m)
  = (Ok (first_attr m chain propname), Some m).
Proof.
  intros Hok Hun Hreg Hp. induction chain as [|p rest IH]; [reflexivity|].
  cbn [search_parents first_attr]. unfold bind at 1.
  pose proof (Hreg p (or_introl eq_refl)) as Hh.
  apply bool_decide_eq_true in Hh as [ns Hns].
  destruct Hok as [Hd Hent]. destruct (Hent p ns Hns) as [Hv _].
  rewrite (getConfig_named_present caller m p false ns Hv Hns).
  unfold bind at 1. unfold lift at 1. unfold has_property.
  rewrite (Hun p ns Hns), Hp.
  cbn [negb]. unfold attr_of. rewrite Hns.
  unfold has_attr, getattr, bind, lift, ret.
  destruct (__dict__ ns !! propname) as [a|] eqn:Ha.
  - rewrite bool_decide_eq_true_2 by eauto. reflexivity.
  - rewrite bool_decide_eq_false_2 by (intros [? ?]; discriminate).
    apply IH. intros q Hq. apply Hreg. now right.
Qed.

Lemma parent_chain_registered m nspc p :
  is_Some (namespaces m !! DEFAULT_NS) ->
  In p (parent_namespaces m nspc) -> has_ns m p = true.
Proof.
  intros Hd Hin. unfold parent_namespaces in Hin.
  apply in_app_iff in Hin as [Hin | [<- | []]].
  - now apply in_parents in Hin as [H _].
  - now apply bool_decide_eq_true.
Qed.

Lemma parents_head_registered m nspc :
  has_ns m nspc = true ->
  exists rest, parent_namespaces m nspc = nspc :: rest.
Proof.
  intros H. unfold parent_namespaces. rewrite _parents_eq, H. cbn. eauto.
Qed.

(** X15. On a well-formed registry in which no namespace holds a property
    named has_property, [getConfigRecord] with valid parts registers an
    empty namespace for the namespace part if there was none, changes
    nothing else, and: with ornearest it returns the attribute of the first
    namespace that has the property among the namespace itself, its
    registered ancestors (nearest first) and the default namespace, and
    raises the property-not-found exception when none has it; without
    ornearest only the namespace itself is consulted. *)
Theorem getConfigRecord_nearest caller (fqname nspc propname : string)
    (m : ConfigurationManager) :
  manager_ok m ->
  unshadowed m ->
  fqname <> "" ->
  fq_parts caller fqname = (nspc, propname) ->
  isnsnamevalid nspc = true ->
  ispropertynamevalid propname = true ->
  let m1 := ensure_namespace m nspc in
  getConfigRecord caller fqname true (Some m)
  = (match first_attr m1 (parent_namespaces m1 nspc) propname with
     | Some a => Ok a
     | None => Raise (ConfigPropertyNotFound fqname)
     end, Some m1)
  /\ getConfigRecord caller fqname false (Some m)
     = (match attr_of m1 nspc propname with
        | Some a => Ok a
        | None => Raise (ConfigPropertyNotFound fqname)
        end, Some m1).
Proof.
  intros Hok Hun Hne Hparts Hv Hp m1.
  assert (Hok1 : manager_ok m1) by now apply ensure_namespace_ok.
  assert (Hun1 : unshadowed m1) by now apply ensure_namespace_unshadowed.
  assert (Hunf : forall o,
             getConfigRecord caller fqname o (Some m)
             = (do ns <- getConfig caller (Some nspc) o [];
                do has <- lift (has_property ns propname);
                if (has : bool) then lift (getattr ns propname)
                else
                  do found <- (if o then
                                 do mgr <- getConfigManager [];
                                 search_parents caller (parent_namespaces mgr nspc)
                                   propname
                               else ret None);
                  match found with
                  | Some a => ret a
                  | None => raise (ConfigPropertyNotFound fqname)
                  end) (Some m)).
  { intros o. unfold getConfigRecord. apply String.eqb_neq in Hne. rewrite Hne.
    unfold fq_parts in Hparts. rewrite Hparts, Hv, Hp. reflexivity. }
  assert (Hbody : forall o,
             getConfigRecord caller fqname o (Some m)
             = (match attr_of m1 nspc propname with
                | Some a => Ok a
                | None =>
                    if o then
                      match first_attr m1 (parent_namespaces m1 nspc) propname with
                      | Some a => Ok a
                      | None => Raise (ConfigPropertyNotFound fqname)
                      end
                    else Raise (ConfigPropertyNotFound fqname)
                end, Some m1)).
  { intros o. rewrite Hunf. unfold bind at 1.
    destruct (getConfig_ensures caller m nspc o Hv) as (ns & -> & Hns).
    fold m1 in Hns |- *.
    unfold bind at 1. unfold lift at 1. unfold has_property.
    rewrite (Hun1 nspc ns Hns), Hp.
    cbn [negb]. unfold attr_of. rewrite Hns. unfold has_attr, getattr, lift.
    destruct (__dict__ ns !! propname) as [a|] eqn:Ha.
    - rewrite bool_decide_eq_true_2 by eauto. reflexivity.
    - rewrite bool_decide_eq_false_2 by (intros [? ?]; discriminate).
      unfold bind at 1. destruct o; [|reflexivity].
      unfold bind at 1. unfold getConfigManager at 1.
      rewrite (search_parents_pure caller m1 _ propname Hok1 Hun1
                 (fun p => parent_chain_registered m1 nspc p (proj1 Hok1)) Hp).
      now destruct (first_attr m1 (parent_namespaces m1 nspc) propname). }
  split; [|apply Hbody].
  rewrite Hbody.
  destruct (parents_head_registered m1 nspc (ensure_namespace_has m nspc))
    as [rest ->].
  cbn [first_attr]. now destruct (attr_of m1 nspc propname).
Qed.

(** The registry of the test suite's lookups: the default namespace holds
    foo = 5 and bar = 7. *)
Definition default_foo_registry : global :=
  snd (getConfig "dlapp.test.test_functions1" (Some DEFAULT_NS) false
         [("properties", VDict [("foo", VDict [("value", VInt 5)]);
                                ("bar", VInt 7)])] None).

Lemma getConfigRecord_nearest_witness :
  exists m,
    default_foo_registry = Some m
    /\ fst (getConfigRecord "dlapp.test" "foo" true (Some m))
       = Ok (AttrRec (ConfigPropertyRecordExt_init "foo" [("value", VInt 5)]))
    /\ fst (getConfigRecord "dlapp.test" "foo" false (Some m))
       = Raise (ConfigPropertyNotFound "foo")
    /\ snd (getConfigRecord "dlapp.test" "foo" true (Some m))
       = Some (ensure_namespace m "dlapp.test").
Proof.
  destruct default_foo_registry as [m|] eqn:Hg; [|vm_compute in Hg; discriminate].
  exists m. split; [reflexivity|].
  assert (Hok : manager_ok m).
  { apply (getConfig_ok "dlapp.test.test_functions1" (Some DEFAULT_NS) false
             [("properties", VDict [("foo", VDict [("value", VInt 5)]);
                                    ("bar", VInt 7)])] None);
      [intros ?; discriminate|].
    exact Hg. }
  assert (Hun : unshadowed m).
  { pose proof Hg as Hg'. vm_compute in Hg'. injection Hg' as <-.
    unfold unshadowed. cbn [namespaces].
    eapply (bool_decide_unpack _). vm_compute. exact I. }
  destruct (getConfigRecord_nearest "dlapp.test" "foo" "dlapp.test" "foo" m
              Hok Hun ltac:(discriminate) eq_refl eq_refl eq_refl) as [H1 H2].
  rewrite H1, H2. cbn [fst snd].
  vm_compute in Hg. injection Hg as <-.
  unfold parent_namespaces.
  rewrite (parents_at_sep _ "dlapp.test" 5 "dlapp" eq_refl ltac:(lia) eq_refl).
  rewrite (parents_no_sep _ "dlapp" eq_refl).
  repeat split.
Defined.

(** With a property named has_property in the namespace, the method is
    shadowed and the lookup raises [TypeError]. *)
Example getConfigRecord_shadowed :
  let g := snd (getConfig "main" (Some "pkg") true [("has_property", VInt 1)] None) in
  global_ok g
  /\ getConfigRecord "main" "pkg.foo" true g = (Raise TypeError, g).
Proof.
  cbv zeta. split.
  - apply getConfig_ok. intros m. discriminate.
  - vm_compute. reflexivity.
Qed.

(** The global holds a registry in which [k] is registered with [x]. *)
Definition holds (k : string) (x : ConfigNamespace) (g : global) : Prop :=
  exists m, g = Some m /\ namespaces m !! k = Some x.

Lemma getConfig_holds caller nspc ornearest k x g :
  holds k x g -> holds k x (snd (getConfig caller nspc ornearest [] g)).
Proof.
  intros (m & -> & Hk). apply getConfig_keeps. exact Hk.
Qed.

Lemma search_parents_holds caller chain propname k x g :
  holds k x g -> holds k x (snd (search_parents caller chain propname g)).
Proof.
  intros (m & -> & Hk). apply search_parents_keeps. exact Hk.
Qed.

(** X16. Looking a name up never removes or changes a registered namespace:
    after [getConfig] without properties to merge, and after
    [getConfigRecord], whether they return or raise, every namespace that
    was registered is still registered, unchanged. *)
Theorem lookups_keep_namespaces caller (m : ConfigurationManager)
    (k : string) (x : ConfigNamespace) :
  namespaces m !! k = Some x ->
  (forall nspc ornearest,
     holds k x (snd (getConfig caller nspc ornearest [] (Some m))))
  /\ (forall fqname ornearest,
        holds k x (snd (getConfigRecord caller fqname ornearest (Some m)))).
Proof.
  intros Hk.
  assert (Hg : holds k x (Some m)) by (exists m; auto).
  split; [intros; now apply getConfig_holds|].
  intros fqname ornearest. unfold getConfigRecord.
  destruct (String.eqb fqname ""); [exact Hg|].
  destruct (if 0 <=? rfind fqname NS_SEP
            then (slice_to fqname (rfind fqname NS_SEP),
                  slice_from fqname (rfind fqname NS_SEP + 1))
            else (caller, fqname)) as [nspc propname].
  destruct (negb (isnsnamevalid nspc)); [exact Hg|].
  destruct (negb (ispropertynamevalid propname)); [exact Hg|].
  unfold bind at 1.
  pose proof (getConfig_holds caller (Some nspc) ornearest k x _ Hg) as H1.
  destruct (getConfig caller (Some nspc) ornearest [] (Some m)) as [[ns|e] g1];
    cbn in H1; [|exact H1].
  unfold bind at 1. unfold lift at 1.
  destruct (has_property ns propname) as [[|]|e]; [| |exact H1].
  - unfold lift. exact H1.
  - unfold bind at 1. destruct ornearest; [|exact H1].
    unfold bind at 1. destruct H1 as (m1 & -> & Hk1).
    unfold getConfigManager at 1.
    pose proof (search_parents_holds caller (parent_namespaces m1 nspc)
                  propname k x (Some m1) ltac:(exists m1; auto)) as H2.
    destruct (search_parents caller (parent_namespaces m1 nspc) propname (Some m1))
      as [[[a|]|e] g3]; exact H2.
Qed.

Lemma lookups_keep_namespaces_witness :
  holds DEFAULT_NS (empty_namespace DEFAULT_NS)
    (snd (getConfigRecord "main" "pkg.mod.foo" true (Some initial_manager)))
  /\ holds DEFAULT_NS (empty_namespace DEFAULT_NS)
       (snd (getConfig "main" (Some "!bad") true [] (Some initial_manager))).
Proof.
  destruct (lookups_keep_namespaces "main" initial_manager DEFAULT_NS
              (empty_namespace DEFAULT_NS) eq_refl) as [H1 H2].
  split; [apply H2 | apply H1].
Defined.

(** ** Source resolution: failures, repetition, and the single sources *)

(** X17. A source that fails stops [resolve]: when the first yielding
    source raises while producing, fetching or formatting its value, that
    exception is raised, the destination and the rest of the [AppConfig] are
    untouched, and no lower source is tried. *)
Theorem resolve_source_failure call environ (self : AppConfig) (e : exn) :
  first_yield call environ self = Some (Raise e) ->
  resolve call environ self = (Raise e, self).
Proof. intros H. rewrite resolve_first_yield, H. reflexivity. Qed.

Lemma resolve_source_failure_witness :
  let self := {| record := ConfigPropertyRecordExt_init "foo" [("value", VInt 1)];
                 argalias := VNone; argformat := VNone;
                 envalias := []; envformat := VNone;
                 cfgparser := None; cfgalias := []; cfgformat := VNone;
                 dictconfig := VDict [("a", VInt 4)];
                 dictalias := [KeyList ["a"; "foo"]]; dictformat := VNone;
                 default_value := VInt 5; has_default := true |} in
  resolve sample_call sample_environ self = (Raise TypeError, self).
Proof.
  intros self. apply resolve_source_failure. reflexivity.
Defined.

(** X18. A value that the destination's validator rejects is not committed
    and nothing else happens: [resolve] raises the validator's exception,
    leaves the [AppConfig] as it was and does not fall through to a lower
    source. *)
Theorem resolve_validator_rejects call environ (self : AppConfig)
    (v : pyval) (n : nat) (e : exn) :
  first_yield call environ self = Some (Ok v) ->
  validate (record self) = VFun n ->
  call n [VStr (_name (record self)); v] = Raise e ->
  resolve call environ self = (Raise e, self).
Proof.
  intros Hy Hv Hc. rewrite resolve_first_yield, Hy.
  unfold bind at 1. rewrite commit_eq. unfold assign_record_value.
  rewrite (set_value_reject call (record self) v n e Hv Hc).
  now destruct self.
Qed.

Lemma resolve_validator_rejects_witness :
  let self := {| record := ConfigPropertyRecordExt_init "foo"
                             [("value", VInt 5); ("validate", VFun 0)];
                 argalias := VInt 12; argformat := VNone;
                 envalias := []; envformat := VNone;
                 cfgparser := None; cfgalias := []; cfgformat := VNone;
                 dictconfig := VNone; dictalias := []; dictformat := VNone;
                 default_value := VInt 3; has_default := true |} in
  resolve sample_call sample_environ self = (Raise (UserException (VInt 12)), self).
Proof.
  intros self.
  apply (resolve_validator_rejects sample_call sample_environ self (VInt 12) 0);
    reflexivity.
Defined.

(** The [AppConfig] with its destination replaced. *)
Definition with_record (self : AppConfig) (rec : ConfigPropertyRecordExt) : AppConfig :=
  {| record := rec;
     argalias := argalias self; argformat := argformat self;
     envalias := envalias self; envformat := envformat self;
     cfgparser := cfgparser self; cfgalias := cfgalias self;
     cfgformat := cfgformat self;
     dictconfig := dictconfig self; dictalias := dictalias self;
     dictformat := dictformat self;
     default_value := default_value self; has_default := has_default self |}.

Lemma first_path_with_record self rec paths :
  first_path (with_record self rec) paths = first_path self paths.
Proof.
  induction paths as [|kp l IH]; [reflexivity|].
  cbn [first_path]. rewrite IH. reflexivity.
Qed.

(** What the sources yield depends on the destination through its name
    only. *)
Lemma first_yield_with_record call environ self rec :
  _name rec = _name (record self) ->
  first_yield call environ (with_record self rec) = first_yield call environ self.
Proof.
  intros Hn.
  assert (Hf : forall fmt raw,
             formatted call (with_record self rec) fmt raw
             = formatted call self fmt raw).
  { intros fmt raw. unfold formatted. cbn [record with_record]. now rewrite Hn. }
  unfold first_yield.
  assert (Ha : arg_source call (with_record self rec) = arg_source call self).
  { unfold arg_source. cbn [argalias argformat with_record].
    destruct (argalias self); try reflexivity; try now rewrite Hf.
    destruct (call n []); cbn [and_then]; [now rewrite Hf | reflexivity]. }
  assert (He : env_source call environ (with_record self rec)
               = env_source call environ self).
  { unfold env_source. cbn [envalias envformat with_record].
    destruct (List.find _ (envalias self)); [now rewrite Hf | reflexivity]. }
  assert (Hc : cfg_source call (with_record self rec) = cfg_source call self).
  { unfold cfg_source. cbn [cfgparser cfgalias cfgformat with_record].
    destruct (cfgparser self) as [parser|]; [|reflexivity].
    destruct (List.find _ (cfgalias self)) as [sk|]; [|reflexivity].
    destruct (get parser (fst sk) (snd sk)); cbn [and_then];
      [now rewrite Hf | reflexivity]. }
  assert (Hd : dict_source call (with_record self rec) = dict_source call self).
  { unfold dict_source. cbn [dictconfig dictalias dictformat with_record].
    rewrite first_path_with_record.
    destruct (first_path self (dictalias self)) as [[raw|e]|];
      cbn [option_map and_then]; rewrite ?Hf; reflexivity. }
  rewrite Ha, He, Hc, Hd. reflexivity.
Qed.

Lemma set_value_again call (r r' : ConfigPropertyRecordExt) (v x : pyval) :
  set_value call v r = (Ok x, r') -> set_value call v r' = (Ok v, r').
Proof.
  unfold set_value, bind, gets, lift, ret, store_value.
  destruct (truthy (validate r) && callable (validate r)) eqn:Hv.
  - destruct (call_obj call (validate r) [VStr (_name r); v]) eqn:Hcv;
      [|discriminate].
    cbn. destruct (truthy (callback r) && callable (callback r)) eqn:Hc.
    + destruct (call_obj call (callback r) [VStr (_name r); v]) eqn:Hcc;
        [|discriminate].
      intros [= <- <-]. cbn. rewrite Hv, Hcv. cbn. rewrite Hc, Hcc. reflexivity.
    + intros [= <- <-]. cbn. rewrite Hv, Hcv. cbn. rewrite Hc. reflexivity.
  - cbn. destruct (truthy (callback r) && callable (callback r)) eqn:Hc.
    + destruct (call_obj call (callback r) [VStr (_name r); v]) eqn:Hcc;
        [|discriminate].
      intros [= <- <-]. cbn. rewrite Hv. cbn. rewrite Hc, Hcc. reflexivity.
    + intros [= <- <-]. cbn. rewrite Hv. cbn. rewrite Hc. reflexivity.
Qed.

(** X19. Resolving again changes nothing: after a [resolve] that returned,
    a second [resolve] (same sources, same environment) returns the same
    value and leaves the [AppConfig], destination included, as the first
    one left it. *)
Theorem resolve_idempotent call environ (self self' : AppConfig) (v : pyval) :
  resolve call environ self = (Ok v, self') ->
  resolve call environ self' = (Ok v, self').
Proof.
  intros H. rewrite resolve_first_yield in H.
  destruct (first_yield call environ self) as [y|] eqn:Hy.
  - unfold bind at 1 in H. rewrite commit_eq in H.
    destruct y as [v0|e]; [|discriminate].
    unfold assign_record_value in H.
    destruct (set_value call v0 (record self)) as [[x|e] rec'] eqn:Hs;
      [|discriminate].
    pose proof (set_value_ok_inv _ _ _ _ _ Hs) as (_ & Hv & Hh & Hn & _).
    unfold read_record_value, get_value in H. cbn [record] in H.
    rewrite Hh, Hv in H. cbn in H. injection H as <- <-.
    change (resolve call environ (with_record self rec')
            = (Ok v0, with_record self rec')).
    rewrite resolve_first_yield, (first_yield_with_record _ _ _ _ Hn), Hy.
    unfold bind at 1. rewrite commit_eq. unfold assign_record_value.
    cbn [record with_record]. rewrite (set_value_again _ _ _ _ _ Hs).
    unfold read_record_value, get_value. cbn [record]. rewrite Hh, Hv.
    reflexivity.
  - unfold read_record_value in H. injection H as H <-.
    rewrite resolve_first_yield, Hy. unfold read_record_value. now rewrite H.
Qed.

Lemma resolve_idempotent_witness :
  exists self',
    resolve sample_call sample_environ (scenario 1) = (Ok (VStr "2"), self')
    /\ resolve sample_call sample_environ self' = (Ok (VStr "2"), self').
Proof.
  destruct (resolve sample_call sample_environ (scenario 1)) as [r self'] eqn:H.
  assert (Hr : r = Ok (VStr "2")).
  { change r with (fst (r, self')). rewrite <- H. reflexivity. }
  subst r. exists self'. split; [reflexivity|].
  exact (resolve_idempotent _ _ _ _ _ H).
Defined.

(** *** The single sources *)

Lemma find_first_present {A} (f : A -> bool) (l1 : list A) (a : A) (l2 : list A) :
  (forall b, In b l1 -> f b = false) -> f a = true ->
  List.find f (l1 ++ a :: l2)%list = Some a.
Proof.
  intros H1 Ha. induction l1 as [|b l1 IH]; cbn.
  - now rewrite Ha.
  - rewrite (H1 b (or_introl eq_refl)). apply IH. intros c Hc. apply H1. now right.
Qed.

(** X20. The environment source takes the first alias, in list order, that
    is a variable of the environment, whatever its value, the empty string
    included: with the argument source not configured, [resolve] commits
    that variable's (formatted) string value, and the later aliases and the
    lower sources are not used. *)
Theorem resolve_environment_first_present call environ (self : AppConfig)
    (absent : list string) (alias : string) (later : list string) (raw : string) :
  argalias self = VNone ->
  envalias self = (absent ++ alias :: later)%list ->
  (forall a, In a absent -> environ !! a = None) ->
  environ !! alias = Some raw ->
  resolve call environ self
  = commit_then_read call (formatted call self (envformat self) (VStr raw)) self.
Proof.
  intros Harg Hal Habs Hraw.
  assert (Ha : arg_source call self = None).
  { unfold arg_source. now rewrite Harg. }
  assert (He : env_source call environ self
               = Some (formatted call self (envformat self) (VStr raw))).
  { unfold env_source. rewrite Hal.
    rewrite (find_first_present _ absent alias later).
    - now rewrite Hraw.
    - intros b Hb. rewrite (Habs b Hb).
      apply bool_decide_eq_false_2. intros [? ?]; discriminate.
    - rewrite Hraw. apply bool_decide_eq_true_2. eauto. }
  rewrite resolve_first_yield. unfold first_yield. now rewrite Ha, He.
Qed.

(** Three aliases, of which the second names a variable set to the empty
    string; the parser and the default are configured as well. *)
Definition env_scenario : AppConfig :=
  {| record := ConfigPropertyRecordExt_init "foo" [];
     argalias := VNone; argformat := VNone;
     envalias := ["APP_MISSING"; "APP_EMPTY"; "APP_FOO"]; envformat := VNone;
     cfgparser := Some sample_parser; cfgalias := [("main", "foo")];
     cfgformat := VNone;
     dictconfig := VNone; dictalias := []; dictformat := VNone;
     default_value := VInt 5; has_default := true |}.

Lemma resolve_environment_first_present_witness :
  destination
    (resolve sample_call (<["APP_EMPTY" := ""]> sample_environ) env_scenario)
  = (Ok (VStr ""), true, VStr "").
Proof.
  rewrite (resolve_environment_first_present sample_call
             (<["APP_EMPTY" := ""]> sample_environ) env_scenario
             ["APP_MISSING"] "APP_EMPTY" ["APP_FOO"] "" eq_refl eq_refl).
  - reflexivity.
  - intros a [<- | []]. reflexivity.
  - reflexivity.
Defined.

(** X21. The parser source takes the first (section, key) pair, in list
    order, that the parser reports as an option: with the argument source
    not configured and no environment alias present, [resolve] commits the
    (formatted) value that the parser returns for that pair; a raise of the
    parser's [get] is raised by [resolve] and leaves the destination
    alone. *)
Theorem resolve_parser_first_option call environ (self : AppConfig)
    (parser : ConfigParser) (misses : list (string * string))
    (section key : string) (later : list (string * string)) :
  argalias self = VNone ->
  (forall a, In a (envalias self) -> environ !! a = None) ->
  cfgparser self = Some parser ->
  cfgalias self = (misses ++ (section, key) :: later)%list ->
  (forall s k, In (s, k) misses -> has_option parser s k = false) ->
  has_option parser section key = true ->
  resolve call environ self
  = commit_then_read call
      (and_then (get parser section key) (formatted call self (cfgformat self)))
      self
  /\ (forall e, get parser section key = Raise e ->
        resolve call environ self = (Raise e, self)).
Proof.
  intros Harg Henv Hp Hal Hmiss Hhit.
  assert (Ha : arg_source call self = None).
  { unfold arg_source. now rewrite Harg. }
  assert (He : env_source call environ self = None).
  { unfold env_source. rewrite find_none_all; [reflexivity|].
    intros a Hin. rewrite (Henv a Hin).
    apply bool_decide_eq_false_2. intros [? ?]; discriminate. }
  assert (Hc : cfg_source call self
               = Some (and_then (get parser section key)
                         (formatted call self (cfgformat self)))).
  { unfold cfg_source. rewrite Hp, Hal.
    rewrite (find_first_present _ misses (section, key) later); [reflexivity| |].
    - intros [s k] Hin. cbn [fst snd]. now apply Hmiss.
    - exact Hhit. }
  assert (Hr : resolve call environ self
               = commit_then_read call
                   (and_then (get parser section key)
                      (formatted call self (cfgformat self))) self).
  { rewrite resolve_first_yield. unfold first_yield. now rewrite Ha, He, Hc. }
  split; [exact Hr|].
  intros e Hg. rewrite Hr, Hg. reflexivity.
Qed.

(** Three (section, key) pairs, of which the second is an option of the
    parser; no environment alias is set. *)
Definition parser_scenario : AppConfig :=
  {| record := ConfigPropertyRecordExt_init "foo" [];
     argalias := VNone; argformat := VNone;
     envalias := ["APP_MISSING"]; envformat := VNone;
     cfgparser := Some sample_parser;
     cfgalias := [("other", "foo"); ("main", "foo"); ("main", "bar")];
     cfgformat := VNone;
     dictconfig := VNone; dictalias := []; dictformat := VNone;
     default_value := VInt 5; has_default := true |}.

Lemma resolve_parser_first_option_witness :
  destination (resolve sample_call sample_environ parser_scenario)
  = (Ok (VStr "3"), true, VStr "3").
Proof.
  assert (Henv : forall a, In a (envalias parser_scenario) ->
                    sample_environ !! a = None).
  { intros a [<- | []]. reflexivity. }
  assert (Hmiss : forall s k, In (s, k) [("other", "foo")] ->
                    has_option sample_parser s k = false).
  { intros s k [[= <- <-] | []]. reflexivity. }
  destruct (resolve_parser_first_option sample_call sample_environ
              parser_scenario sample_parser
              [("other", "foo")] "main" "foo" [("main", "bar")]
              eq_refl Henv eq_refl eq_refl Hmiss eq_refl) as [H _].
  rewrite H. reflexivity.
Defined.

(** X22. A default counts by having been supplied, not by its value: when
    no higher source yields and a default was supplied, [resolve] assigns
    the default through the setter, None included, so that a destination
    whose hooks are not callable holds the default afterwards and reads
    it. *)
Theorem resolve_default_supplied call environ (self : AppConfig) :
  arg_source call self = None ->
  env_source call environ self = None ->
  cfg_source call self = None ->
  dict_source call self = None ->
  has_default self = true ->
  callable (validate (record self)) = false ->
  callable (callback (record self)) = false ->
  destination (resolve call environ self)
  = (Ok (default_value self), true, default_value self).
Proof.
  intros Ha He Hc Hd Hdef Hv Hcb.
  rewrite resolve_first_yield. unfold first_yield.
  rewrite Ha, He, Hc, Hd. unfold default_source. rewrite Hdef.
  unfold bind at 1. rewrite commit_eq. unfold assign_record_value.
  rewrite (set_value_no_hooks call (record self) (default_value self) Hv Hcb).
  reflexivity.
Qed.

(** No source configured, and a default of None supplied. *)
Definition default_none_scenario : AppConfig :=
  {| record := ConfigPropertyRecordExt_init "foo" [];
     argalias := VNone; argformat := VNone;
     envalias := []; envformat := VNone;
     cfgparser := None; cfgalias := []; cfgformat := VNone;
     dictconfig := VNone; dictalias := []; dictformat := VNone;
     default_value := VNone; has_default := true |}.

Lemma resolve_default_supplied_witness :
  destination (resolve sample_call sample_environ default_none_scenario)
  = (Ok VNone, true, VNone).
Proof.
  apply (resolve_default_supplied sample_call sample_environ
           default_none_scenario); reflexivity.
Defined.

(** ** The setters of [AppConfig] and direct assignment *)

(** [set_argalias(argalias, argformat)] *)
Definition set_argalias (argalias' argformat' : pyval) (self : AppConfig) : AppConfig :=
  {| record := record self;
     argalias := argalias'; argformat := argformat';
     envalias := envalias self; envformat := envformat self;
     cfgparser := cfgparser self; cfgalias := cfgalias self;
     cfgformat := cfgformat self;
     dictconfig := dictconfig self; dictalias := dictalias self;
     dictformat := dictformat self;
     default_value := default_value self; has_default := has_default self |}.

(** [set_envalias(envalias, envformat)] *)
Definition set_envalias (envalias' : list string) (envformat' : pyval)
    (self : AppConfig) : AppConfig :=
  {| record := record self;
     argalias := argalias self; argformat := argformat self;
     envalias := envalias'; envformat := envformat';
     cfgparser := cfgparser self; cfgalias := cfgalias self;
     cfgformat := cfgformat self;
     dictconfig := dictconfig self; dictalias := dictalias self;
     dictformat := dictformat self;
     default_value := default_value self; has_default := has_default self |}.

(** [set_dictalias(dictconfig, dictalias, dictformat)]: the formatter is
    stored in the attribute [dictparser] (line 796), which no method reads;
    [dictformat] keeps its value. *)
Definition set_dictalias (dictconfig' : pyval) (dictalias' : list keypath)
    (dictformat' : pyval) (self : AppConfig) : AppConfig :=
  {| record := record self;
     argalias := argalias self; argformat := argformat self;
     envalias := envalias self; envformat := envformat self;
     cfgparser := cfgparser self; cfgalias := cfgalias self;
     cfgformat := cfgformat self;
     dictconfig := dictconfig'; dictalias := dictalias';
     dictformat := dictformat self;
     default_value := default_value self; has_default := has_default self |}.

(** The call [set_cfgalias(cfgparser, cfgalias)], with [cfgformat] left at
    its default None: the last assignment of the method (line 788) stores
    the formatter, here None, in [cfgparser], over the parser just stored;
    [cfgformat] keeps its value. *)
Definition set_cfgalias_default_format (cfgparser' : option ConfigParser)
    (cfgalias' : list (string * string)) (self : AppConfig) : AppConfig :=
  {| record := record self;
     argalias := argalias self; argformat := argformat self;
     envalias := envalias self; envformat := envformat self;
     cfgparser := None; cfgalias := cfgalias';
     cfgformat := cfgformat self;
     dictconfig := dictconfig self; dictalias := dictalias self;
     dictformat := dictformat self;
     default_value := default_value self; has_default := has_default self |}.

Lemma first_path_same_dict (a b : AppConfig) paths :
  dictconfig a = dictconfig b -> first_path a paths = first_path b paths.
Proof.
  intros H. induction paths as [|kp l IH]; [reflexivity|].
  cbn [first_path]. unfold _getdictentry. rewrite H, IH. reflexivity.
Qed.

(** X23. The formatter given to [set_dictalias] is never applied: with
    the higher sources yielding nothing and a destination configuration whose
    [dictformat] is not callable (as after a construction without it), a
    [resolve] after [set_dictalias(d, paths, f)] commits the value found at
    the first path as it is, whatever [f] is. *)
Theorem set_dictalias_ignores_format call environ (self : AppConfig)
    (d : pyval) (kp : keypath) (rest : list keypath) (f v : pyval) :
  arg_source call self = None ->
  env_source call environ self = None ->
  cfg_source call self = None ->
  callable (dictformat self) = false ->
  d <> VNone ->
  path_resolves d (keys_of kp) v ->
  resolve call environ (set_dictalias d (kp :: rest) f self)
  = commit_then_read call (Ok v) (set_dictalias d (kp :: rest) f self).
Proof.
  intros Ha He Hc Hf Hd Hp.
  set (self' := set_dictalias d (kp :: rest) f self).
  assert (Ha' : arg_source call self' = None) by exact Ha.
  assert (He' : env_source call environ self' = None) by exact He.
  assert (Hc' : cfg_source call self' = None) by exact Hc.
  rewrite resolve_first_yield. unfold first_yield. rewrite Ha', He', Hc'.
  assert (Hd' : dict_source call self' = Some (Ok v)).
  { unfold dict_source. cbn [dictconfig dictalias dictformat self' set_dictalias].
    cbn [first_path].
    assert (Hg : _getdictentry self' (keys_of kp) = Ok (true, v))
      by now apply _getdictentry_hit.
    rewrite Hg. cbn [option_map and_then]. unfold formatted.
    rewrite Hf, andb_false_r. now destruct d. }
  now rewrite Hd'.
Qed.

(** The dictionary and the destination of the test suite: foo is 3 at
    the path first, second, foo; the destination holds 5 and validates. *)
Definition suite_dict : pyval :=
  VDict [("first", VDict [("second", VDict [("foo", VInt 3)])])].

Definition suite_appconfig : AppConfig :=
  AppConfig_plain (ConfigPropertyRecordExt_init "foo"
                     [("value", VInt 5); ("validate", VFun 0)]).

Lemma set_dictalias_ignores_format_witness :
  destination
    (resolve sample_call sample_environ
       (set_dictalias suite_dict [KeyList ["first"; "second"; "foo"]] (VFun 1)
          suite_appconfig))
  = (Ok (VInt 3), true, VInt 3).
Proof.
  rewrite (set_dictalias_ignores_format sample_call sample_environ
             suite_appconfig suite_dict (KeyList ["first"; "second"; "foo"]) []
             (VFun 1) (VInt 3) eq_refl eq_refl eq_refl eq_refl
             ltac:(discriminate)).
  - reflexivity.
  - repeat (eapply path_step; [reflexivity|]). apply path_here.
Defined.

(** X24. [set_cfgalias] called without a formatter drops the parser it is
    given: afterwards the parser source yields nothing, and [resolve] gives
    what it gives when no parser and no alias had been passed at all. *)
Theorem set_cfgalias_drops_parser call environ (self : AppConfig)
    (parser : option ConfigParser) (aliases : list (string * string)) :
  cfg_source call (set_cfgalias_default_format parser aliases self) = None
  /\ fst (resolve call environ (set_cfgalias_default_format parser aliases self))
     = fst (resolve call environ (set_cfgalias_default_format None [] self))
  /\ record (snd (resolve call environ
                    (set_cfgalias_default_format parser aliases self)))
     = record (snd (resolve call environ
                      (set_cfgalias_default_format None [] self))).
Proof.
  split; [reflexivity|].
  set (a := set_cfgalias_default_format parser aliases self).
  set (b := set_cfgalias_default_format None [] self).
  assert (Hy : first_yield call environ a = first_yield call environ b).
  { unfold first_yield.
    change (arg_source call a) with (arg_source call b).
    change (env_source call environ a) with (env_source call environ b).
    change (cfg_source call a) with (cfg_source call b).
    assert (Hd : dict_source call a = dict_source call b).
    { unfold dict_source.
      rewrite (first_path_same_dict a b (dictalias a) eq_refl). reflexivity. }
    now rewrite Hd. }
  assert (Hrec : record a = record b) by reflexivity.
  rewrite !resolve_first_yield, Hy.
  destruct (first_yield call environ b) as [y|].
  - unfold bind. rewrite !commit_eq.
    destruct y as [val|e]; [|split; reflexivity].
    unfold assign_record_value. rewrite Hrec.
    destruct (set_value call val (record b)) as [[x|e] rec']; split; reflexivity.
  - unfold read_record_value. rewrite Hrec. split; reflexivity.
Qed.

(** X25. A direct assignment through the [value] attribute goes to the
    destination, and the next [resolve] keeps it only when no source
    yields: otherwise [resolve] commits the first yielding source over it. *)
Theorem direct_assignment_then_resolve call environ (self self1 : AppConfig)
    (v x : pyval) :
  assign_record_value call v self = (Ok x, self1) ->
  read_record_value self1 = (Ok v, self1)
  /\ (first_yield call environ self = None ->
      resolve call environ self1 = (Ok v, self1))
  /\ (forall y, first_yield call environ self = Some y ->
        resolve call environ self1 = commit_then_read call y self1).
Proof.
  unfold assign_record_value.
  destruct (set_value call v (record self)) as [[x'|e] rec'] eqn:Hs;
    [|discriminate].
  intros [= <- <-].
  pose proof (set_value_ok_inv _ _ _ _ _ Hs) as (_ & Hv & Hh & Hn & _).
  change (mkAppConfig rec' (argalias self) (argformat self) (envalias self)
            (envformat self) (cfgparser self) (cfgalias self) (cfgformat self)
            (dictconfig self) (dictalias self) (dictformat self)
            (default_value self) (has_default self))
    with (with_record self rec').
  assert (Hread : read_record_value (with_record self rec')
                  = (Ok v, with_record self rec')).
  { unfold read_record_value, get_value. cbn [record with_record].
    now rewrite Hh, Hv. }
  split; [exact Hread|].
  split.
  - intros Hy. rewrite resolve_first_yield,
      (first_yield_with_record _ _ _ _ Hn), Hy. exact Hread.
  - intros y Hy. rewrite resolve_first_yield,
      (first_yield_with_record _ _ _ _ Hn), Hy. reflexivity.
Qed.

Lemma direct_assignment_then_resolve_witness :
  exists self1,
    assign_record_value sample_call (VInt 9) (scenario 4) = (Ok (VInt 9), self1)
    /\ destination (resolve sample_call sample_environ self1)
       = (Ok (VInt 5), true, VInt 5).
Proof.
  destruct (assign_record_value sample_call (VInt 9) (scenario 4))
    as [r self1] eqn:H.
  assert (Hr : r = Ok (VInt 9)).
  { change r with (fst (r, self1)). rewrite <- H. reflexivity. }
  subst r. exists self1. split; [reflexivity|].
  destruct (direct_assignment_then_resolve sample_call sample_environ
              (scenario 4) self1 (VInt 9) (VInt 9) H) as (_ & _ & H3).
  rewrite (H3 (Ok (VInt 5)) eq_refl).
  vm_compute in H. injection H as <-. reflexivity.
Defined.

(** X26. Reconfiguring a source takes effect at the next [resolve]:
    after [set_argalias] with a value that is neither None nor callable,
    [resolve] commits that value (formatted with the formatter given along)
    whatever the other sources hold; after [set_argalias] with None the
    argument source is not tried; and after [set_envalias], with no argument
    source, the first listed variable that is set is committed. *)
Theorem setters_then_resolve call environ (self : AppConfig) :
  (forall v f, v <> VNone -> callable v = false ->
     resolve call environ (set_argalias v f self)
     = commit_then_read call (formatted call self f v) (set_argalias v f self))
  /\ (forall f, arg_source call (set_argalias VNone f self) = None)
  /\ (forall alias rest f raw,
        argalias self = VNone ->
        environ !! alias = Some raw ->
        resolve call environ (set_envalias (alias :: rest) f self)
        = commit_then_read call (formatted call self f (VStr raw))
            (set_envalias (alias :: rest) f self)).
Proof.
  split; [|split].
  - intros v f Hv Hc. rewrite resolve_first_yield. unfold first_yield.
    assert (Ha : arg_source call (set_argalias v f self)
                 = Some (formatted call self f v)).
    { unfold arg_source. cbn [argalias argformat set_argalias].
      destruct v; try reflexivity; [congruence | discriminate]. }
    now rewrite Ha.
  - reflexivity.
  - intros alias rest f raw Harg Hraw.
    rewrite resolve_first_yield. unfold first_yield.
    assert (Ha : arg_source call (set_envalias (alias :: rest) f self) = None).
    { unfold arg_source. cbn [argalias set_envalias]. now rewrite Harg. }
    assert (He : env_source call environ (set_envalias (alias :: rest) f self)
                 = Some (formatted call self f (VStr raw))).
    { unfold env_source. cbn [envalias envformat set_envalias List.find].
      rewrite bool_decide_eq_true_2 by (rewrite Hraw; eauto).
      now rewrite Hraw. }
    now rewrite Ha, He.
Qed.

Lemma setters_then_resolve_witness :
  destination (resolve sample_call sample_environ
                 (set_argalias (VInt 4) (VFun 1) (scenario 1)))
  = (Ok (VInt 8), true, VInt 8)
  /\ destination (resolve sample_call sample_environ
                    (set_envalias ["APP_FOO"] VNone (scenario 2)))
     = (Ok (VStr "2"), true, VStr "2").
Proof.
  destruct (setters_then_resolve sample_call sample_environ (scenario 1))
    as (H1 & _ & _).
  destruct (setters_then_resolve sample_call sample_environ (scenario 2))
    as (_ & _ & H3).
  split.
  - rewrite (H1 (VInt 4) (VFun 1) ltac:(discriminate) eq_refl). reflexivity.
  - rewrite (H3 "APP_FOO" [] VNone "2" eq_refl eq_refl). reflexivity.
Defined.

(** * dlapp.logger: [adjust_loglevel] *)

(** [logging.WARNING] *)
Definition DEFAULT_LOGLEVEL : Z := 30.

(** [d[k] = v] on a dictionary in insertion order. *)
Fixpoint dict_set {A} (d : list (string * A)) (k : string) (v : A)
    : list (string * A) :=
  match d with
  | [] => [(k, v)]
  | (k', x) :: d' =>
      if String.eqb k' k then (k', v) :: d' else (k', x) :: dict_set d' k v
  end.

(** The integer that [level + loglevel_delta] adds to: an int, or a bool
    (a subclass of int); any other value of the model refuses the sum. *)
Definition as_number (v : pyval) : result Z :=
  match v with
  | VInt z => Ok z
  | VBool b => Ok (if b then 1 else 0)
  | _ => Raise TypeError
  end.

Definition loglevel_delta (verbosity quiet : Z) : Z :=
  let delta := 0 in
  let delta := if negb (quiet =? 0) then 10 * quiet else delta in
  if negb (verbosity =? 0) then delta - 10 * verbosity else delta.

(** The body of the loop over the names root and the empty string. *)
Definition adjust_entry (config : list (string * pyval)) (name : string)
    (delta : Z) : result (list (string * pyval)) :=
  let cfg_level := match dict_get config name with Some c => c | None => VNone end in
  if truthy cfg_level then
    match cfg_level with
    | VDict d =>
        match as_number (match dict_get d "level" with
                         | Some l => l
                         | None => VInt DEFAULT_LOGLEVEL
                         end) with
        | Ok l =>
            let level := l + delta in
            let level := if level <? 0 then 0 else level in
            Ok (dict_set config name (VDict (dict_set d "level" (VInt level))))
        | Raise e => Raise e
        end
    | _ => Raise AttributeError
    end
  else Ok config.

(** [adjust_loglevel(logging_config, verbosity, quiet)]: the deep copy is
    the value itself, and the exception handlers re-raise. *)
Definition adjust_loglevel (logging_config : list (string * pyval))
    (verbosity quiet : Z) : result (list (string * pyval)) :=
  let config := logging_config in
  let delta := loglevel_delta verbosity quiet in
  if negb (delta =? 0) then
    match adjust_entry config "root" delta with
    | Ok config => adjust_entry config "" delta
    | Raise e => Raise e
    end
  else Ok config.

Lemma dict_get_set_eq {A} (d : list (string * A)) k v :
  dict_get (dict_set d k v) k = Some v.
Proof.
  induction d as [|[k' x] d IH]; cbn.
  - now rewrite String.eqb_refl.
  - destruct (String.eqb k' k) eqn:E; cbn; rewrite E; [reflexivity | exact IH].
Qed.

Lemma dict_get_set_ne {A} (d : list (string * A)) k k2 v :
  k <> k2 -> dict_get (dict_set d k v) k2 = dict_get d k2.
Proof.
  intros Hne. induction d as [|[k' x] d IH]; cbn.
  - apply String.eqb_neq in Hne. now rewrite Hne.
  - destruct (String.eqb k' k) eqn:E; cbn.
    + apply String.eqb_eq in E. subst k'.
      apply String.eqb_neq in Hne. now rewrite Hne.
    + destruct (String.eqb k' k2); [reflexivity | exact IH].
Qed.

Lemma loglevel_delta_eq verbosity quiet :
  loglevel_delta verbosity quiet = 10 * quiet - 10 * verbosity.
Proof.
  unfold loglevel_delta.
  destruct (quiet =? 0) eqn:Hq; destruct (verbosity =? 0) eqn:Hv; cbn [negb];
    rewrite ?Z.eqb_eq in *; lia.
Qed.

Lemma adjust_entry_frame config name delta config' k :
  adjust_entry config name delta = Ok config' -> k <> name ->
  dict_get config' k = dict_get config k.
Proof.
  unfold adjust_entry. intros H Hk.
  destruct (truthy _); [|now injection H as <-].
  destruct (match dict_get config name with Some c => c | None => VNone end);
    try discriminate.
  destruct (as_number _); [|discriminate].
  injection H as <-. apply dict_get_set_ne. congruence.
Qed.

(** The level that an entry of the configuration has afterwards. *)
Definition adjusted_level (l delta : Z) : Z := Z.max 0 (l + delta).

Lemma adjust_entry_level config name delta d l :
  dict_get config name = Some (VDict d) -> d <> [] ->
  as_number (match dict_get d "level" with
             | Some x => x
             | None => VInt DEFAULT_LOGLEVEL
             end) = Ok l ->
  adjust_entry config name delta
  = Ok (dict_set config name
          (VDict (dict_set d "level" (VInt (adjusted_level l delta))))).
Proof.
  intros Hc Hd Hl. unfold adjust_entry. rewrite Hc.
  destruct d as [|p d']; [congruence|]. cbn [truthy]. rewrite Hl.
  assert (E : (if l + delta <? 0 then 0 else l + delta) = adjusted_level l delta).
  { unfold adjusted_level.
    destruct (l + delta <? 0) eqn:E; [apply Z.ltb_lt in E | apply Z.ltb_ge in E];
      lia. }
  cbv zeta. now rewrite E.
Qed.

(** X27. [adjust_loglevel] moves the level of the root logger by ten per
    quiet step up and ten per verbosity step down, never below zero: when
    the steps do not cancel, a configuration with a non-empty root entry and
    no entry under the empty name comes back with the root level set to
    max(0, level + 10 * quiet - 10 * verbosity), where a missing level
    counts as WARNING (30); everything else is as it was. *)
Theorem adjust_loglevel_root (config d : list (string * pyval))
    (verbosity quiet l : Z) :
  quiet <> verbosity ->
  dict_get config "root" = Some (VDict d) -> d <> [] ->
  dict_get config "" = None ->
  as_number (match dict_get d "level" with
             | Some x => x
             | None => VInt DEFAULT_LOGLEVEL
             end) = Ok l ->
  exists config' d',
    adjust_loglevel config verbosity quiet = Ok config'
    /\ dict_get config' "root" = Some (VDict d')
    /\ dict_get d' "level" = Some (VInt (Z.max 0 (l + 10 * quiet - 10 * verbosity)))
    /\ (forall k, k <> "level" -> dict_get d' k = dict_get d k)
    /\ (forall k, k <> "root" -> dict_get config' k = dict_get config k).
Proof.
  intros Hne Hroot Hd Hempty Hl.
  unfold adjust_loglevel. rewrite loglevel_delta_eq.
  assert (Hz : (10 * quiet - 10 * verbosity =? 0) = false)
    by (apply Z.eqb_neq; lia).
  rewrite Hz. cbn [negb].
  rewrite (adjust_entry_level config "root" _ d l Hroot Hd Hl).
  set (d' := dict_set d "level" (VInt (adjusted_level l (10 * quiet - 10 * verbosity)))).
  set (config' := dict_set config "root" (VDict d')).
  assert (He : dict_get config' "" = None).
  { unfold config'. rewrite dict_get_set_ne; [exact Hempty | discriminate]. }
  exists config', d'. split.
  - unfold adjust_entry. now rewrite He.
  - split; [apply dict_get_set_eq|].
    split.
    { unfold d', adjusted_level. rewrite dict_get_set_eq.
      now replace (l + (10 * quiet - 10 * verbosity))
        with (l + 10 * quiet - 10 * verbosity) by lia. }
    split.
    + intros k Hk. unfold d'. apply dict_get_set_ne. congruence.
    + intros k Hk. unfold config'. apply dict_get_set_ne. congruence.
Qed.

(** The root entry of the module's default configuration: two handlers,
    level DEBUG (10). *)
Definition default_root : list (string * pyval) :=
  [("handlers", VList [VStr "console_stdout"; VStr "console_stderr"]);
   ("level", VInt 10)].

Lemma adjust_loglevel_root_witness :
  adjust_loglevel [("version", VInt 1); ("root", VDict default_root)] 3 0
  = Ok [("version", VInt 1);
        ("root", VDict [("handlers", VList [VStr "console_stdout";
                                            VStr "console_stderr"]);
                        ("level", VInt 0)])].
Proof.
  destruct (adjust_loglevel_root
              [("version", VInt 1); ("root", VDict default_root)] default_root
              3 0 10 ltac:(lia) eq_refl ltac:(discriminate) eq_refl eq_refl)
    as (config' & d' & H & _).
  rewrite H. vm_compute in H. now injection H as <-.
Defined.

(** X28. [adjust_loglevel] touches nothing but the entries root and the
    empty name: whenever it returns, every other entry of the configuration
    is as it was; and when the quiet and verbosity steps cancel, the
    configuration comes back unchanged, also one that would otherwise make
    it raise. *)
Theorem adjust_loglevel_frame (config : list (string * pyval))
    (verbosity quiet : Z) :
  (forall config' k,
     adjust_loglevel config verbosity quiet = Ok config' ->
     k <> "root" -> k <> "" ->
     dict_get config' k = dict_get config k)
  /\ (quiet = verbosity -> adjust_loglevel config verbosity quiet = Ok config).
Proof.
  split.
  - intros config' k H Hr He. unfold adjust_loglevel in H.
    destruct (negb (loglevel_delta verbosity quiet =? 0));
      [|now injection H as <-].
    destruct (adjust_entry config "root" _) as [c1|] eqn:H1; [|discriminate].
    rewrite (adjust_entry_frame _ _ _ _ k H He).
    now apply (adjust_entry_frame _ _ _ _ k H1).
  - intros ->. unfold adjust_loglevel. rewrite loglevel_delta_eq.
    replace (10 * verbosity - 10 * verbosity) with 0 by lia. reflexivity.
Qed.

Lemma adjust_loglevel_frame_witness :
  adjust_loglevel [("root", VStr "DEBUG")] 2 2 = Ok [("root", VStr "DEBUG")]
  /\ adjust_loglevel [("root", VStr "DEBUG")] 1 0 = Raise AttributeError.
Proof.
  split; [|reflexivity].
  destruct (adjust_loglevel_frame [("root", VStr "DEBUG")] 2 2) as [_ H].
  now apply H.
Defined.
